(** * Bylderr backend: funding ledger, access control and query builder

    A shallow embedding of the Express/Mongoose controllers and middleware
    of the Bylderr crowdfunding backend:

    - [utils/constants.js], [utils/errorResponse.js], [utils/helpers.js],
      [utils/validators.js], [utils/formatters.js]
    - [services/paymentService.js]
    - [controllers/projectController.js] ([getProject], [addToFavorites],
      [removeFromFavorites])
    - [controllers/investmentController.js] ([createInvestment],
      [updateInvestment], [cancelInvestment])
    - [middleware/auth.js] ([protect], [authorize]),
      [middleware/errorHandler.js]
    - [middleware/advancedResults.js]

    Conventions.  JavaScript numbers that hold money amounts, counters and
    timestamps are integers of [Z] (double arithmetic is exact on them in
    the safe range, below [2^53]); the fee and the cents sent to Stripe,
    which the payment service computes with fractions, are IEEE 754
    doubles, with the operations of the Standard Library's [SpecFloat].
    A character of a [string] is one UTF-16 code unit below 256.
    Documents are records, collections keyed by [_id] are [gmap]s, the
    investment collection is a list in insertion order.  A handler is a
    function of the database that either yields a value or finishes the
    request with a reply ([next(err)] or [res.status(..).json(..)]). *)

From Stdlib Require Import ZArith QArith Qpower String Ascii List Lia Lqa DecimalString.
From Stdlib Require SpecFloat.
From stdpp Require Import gmap strings list fin_maps.

Import ListNotations.
Local Set Warnings "-register-all".
Local Open Scope Z_scope.
Local Open Scope string_scope.

(** ** utils/constants.js *)

Module Constants.

(** [USER_ROLES] *)
Inductive UserRole := investor | admin | manager.

(** [PROJECT_STATUSES] *)
Inductive ProjectStatus :=
| ps_draft | ps_pending | ps_active | ps_funded | ps_completed | ps_cancelled.

(** [INVESTMENT_STATUSES] *)
Inductive InvestmentStatus :=
| is_pending | is_completed | is_cancelled | is_refunded.

Definition role_eqb (a b : UserRole) : bool :=
  match a, b with
  | investor, investor | admin, admin | manager, manager => true
  | _, _ => false
  end.

Definition project_status_eqb (a b : ProjectStatus) : bool :=
  match a, b with
  | ps_draft, ps_draft | ps_pending, ps_pending | ps_active, ps_active
  | ps_funded, ps_funded | ps_completed, ps_completed
  | ps_cancelled, ps_cancelled => true
  | _, _ => false
  end.

Definition investment_status_eqb (a b : InvestmentStatus) : bool :=
  match a, b with
  | is_pending, is_pending | is_completed, is_completed
  | is_cancelled, is_cancelled | is_refunded, is_refunded => true
  | _, _ => false
  end.

Definition role_name (r : UserRole) : string :=
  match r with
  | investor => "investor" | admin => "admin" | manager => "manager"
  end.

End Constants.
Export Constants.

(** ** utils/errorResponse.js *)

Record ErrorResponse := mkError { message : string; statusCode : Z }.

(** Template literals print numbers in decimal. *)
Definition show_Z (z : Z) : string := NilZero.string_of_int (Z.to_int z).

(** ** JavaScript numbers with fractions

    A JavaScript number is an IEEE 754 binary64 value.  [SpecFloat]
    defines the format and its correctly rounded operations (to nearest,
    ties to even) for a precision and a largest exponent; 53 and 1024
    are those of binary64.  A finite value [S754_finite s m e] is
    [m * 2^e], negated when [s] is set. *)

Module Double.

Definition prec : Z := 53.
Definition emax : Z := 1024.

Definition double : Type := SpecFloat.spec_float.

(** The double a whole number is held as: the number itself up to
    [2^53], the nearest double beyond. *)
Definition of_Z (z : Z) : double := SpecFloat.binary_normalize prec emax z 0 false.

(** [x * y] *)
Definition mul (x y : double) : double := SpecFloat.SFmul prec emax x y.

(** [x + y] *)
Definition add (x y : double) : double := SpecFloat.SFadd prec emax x y.

(** [x / y] *)
Definition div (x y : double) : double := SpecFloat.SFdiv prec emax x y.

(** The literal [0.02]: the double nearest to 2/100,
    [5764607523034235 / 2^58]. *)
Definition two_hundredths : double :=
  SpecFloat.S754_finite false 5764607523034235 (-58).

(** *** Notions the rounding of doubles is reasoned with *)

(** The number of binary digits of a mantissa *)
Definition digits (m : positive) : Z := Zpos (SpecFloat.digits2_pos m).

Definition b2z (b : bool) : Z := if b then 1 else 0.

(** What [n] halvings of [SpecFloat.shr_1] leave of a mantissa [m0]:
    its quotient by [2^n], the bit shifted out last, and whether any bit
    shifted out before was set. *)
Definition halved (n : Z) (m0 : Z) (mrs : SpecFloat.shr_record) : Prop :=
  0 <= SpecFloat.shr_m mrs /\
  exists T, 2 * m0 = SpecFloat.shr_m mrs * 2 ^ (n + 1)
                     + b2z (SpecFloat.shr_r mrs) * 2 ^ n + T
            /\ 0 <= T < 2 ^ n /\ (SpecFloat.shr_s mrs = true <-> 0 < T).

(** [2^e] as a rational, and the unit roundoff [2^-53] *)
Definition bpow (e : Z) : Q := (2 ^ e)%Q.

Definition unit_roundoff : Q := (1 # 9007199254740992)%Q.

End Double.

(** ** Documents

    The Mongoose schemas [models/User.js], [models/Project.js] and
    [models/Investment.js] are not among the sources: the records hold
    the fields the controllers and the middleware read and write, as
    section 3 of the specification lists them.  Validation by the schemas
    is not modelled: the documents here are the valid ones. *)

Record InvestorProfile := { accreditedStatus : string }.

(** Modelled from the spec: the User schema ([models/User.js]); [u_id]
    is the [_id] the handlers read as [req.user.id]. *)
Record User := {
  u_id : string;
  firstName : string;
  lastName : string;
  email : string;
  avatar : string;
  role : UserRole;
  investorProfile : option InvestorProfile;
  stripeCustomerId : option string
}.

Record Metrics := { views : Z; favorites : Z }.

(** Modelled from the spec: the Project schema ([models/Project.js]); the
    document's [_id] is its key in the collection. *)
Record Project := {
  title : string;
  description : string;
  images : list string;
  owner : string;
  fundingGoal : Z;
  fundingRaised : Z;
  fundingDeadline : Z;
  minInvestment : Z;
  accreditedOnly : bool;
  p_status : ProjectStatus;
  metrics : Metrics
}.

(** Modelled from the spec: the Investment schema
    ([models/Investment.js]). *)
Record Investment := {
  i_id : string;
  i_investor : string;
  i_project : string;
  amount : Z;
  paymentMethod : string;
  paymentId : option string;
  transactionFee : Double.double;
  i_status : InvestmentStatus;
  createdAt : Z
}.

(** What leaves the process: calls into the payment service and the
    Stripe client, and writes to the collections, in the order the
    handler performs them. *)
Inductive Event :=
| EvProcessPayment (amount : Z) (method : string)
| EvStripeCharge (cents : Z)
| EvProcessRefund (paymentId : string) (amount : Z)
| EvStripeRefund (paymentId : string) (cents : Z)
| EvInvestmentCreate (id : string)
| EvInvestmentSave (id : string)
| EvProjectSave (id : string).

(** The collections, the counter the next [_id] is drawn from, and the
    trace of what the handlers did so far. *)
Record Db := {
  projects : gmap string Project;
  users : gmap string User;
  investments : list Investment;
  oid : Z;
  trace : list Event
}.

Definition write_event (e : Event) : bool :=
  match e with
  | EvInvestmentCreate _ | EvInvestmentSave _ | EvProjectSave _ => true
  | _ => false
  end.

(** ** Handlers *)

Inductive Reply (B : Type) :=
| NextErr (e : ErrorResponse)
| Json (status : Z) (data : B).
Arguments NextErr {B} e.
Arguments Json {B} status data.

Definition Handler (B A : Type) : Type := Db -> Db * (A + Reply B).

Definition ret {B A} (a : A) : Handler B A := fun db => (db, inl a).

Definition bind {B A C} (m : Handler B A) (k : A -> Handler B C) : Handler B C :=
  fun db =>
    match m db with
    | (db', inl a) => k a db'
    | (db', inr r) => (db', inr r)
    end.

(** [return next(new ErrorResponse(msg, code))] *)
Definition next_error {B A} (msg : string) (code : Z) : Handler B A :=
  fun db => (db, inr (NextErr (mkError msg code))).

(** [res.status(code).json({ success: true, data })] *)
Definition respond {B A} (code : Z) (data : B) : Handler B A :=
  fun db => (db, inr (Json code data)).

Definition get {B} : Handler B Db := fun db => (db, inl db).

(** The database a handler leaves behind. *)
Definition after {B A} (h : Handler B A) (db : Db) : Db := fst (h db).

Declare Scope handler_scope.
Delimit Scope handler_scope with handler.
Notation "x <- m ;; k" := (bind m (fun x => k))
  (at level 100, m at next level, right associativity) : handler_scope.
Notation "m ;;; k" := (bind m (fun _ => k))
  (at level 100, right associativity) : handler_scope.

(** *** Model calls *)

(** [Project.findById(id)] *)
Definition Project_findById {B} (id : string) : Handler B (option Project) :=
  fun db => (db, inl (projects db !! id)).

(** [project.save()], for the document loaded under [id] *)
Definition Project_save {B} (id : string) (p : Project) : Handler B unit :=
  fun db =>
    ({| projects := <[id := p]> (projects db); users := users db;
        investments := investments db; oid := oid db;
        trace := trace db ++ [EvProjectSave id] |}, inl tt).

(** [User.findById(id)] *)
Definition User_findById {B} (id : string) : Handler B (option User) :=
  fun db => (db, inl (users db !! id)).

(** [Investment.findById(id)] *)
Definition Investment_findById {B} (id : string) : Handler B (option Investment) :=
  fun db => (db, inl (List.find (fun i => String.eqb (i_id i) id) (investments db))).

(** ** controllers/projectController.js *)

Module ProjectController.

Record OwnerView := {
  ov_firstName : string; ov_lastName : string;
  ov_email : string; ov_avatar : string
}.

Record InvestmentView := {
  iv_amount : Z; iv_status : InvestmentStatus; iv_createdAt : Z
}.

(** The project document as [getProject] sends it: the document with
    its two populated paths. *)
Record ProjectView := {
  pv_project : Project;
  pv_owner : option OwnerView;
  pv_investments : list InvestmentView
}.

Definition populate_owner (db : Db) (p : Project) : option OwnerView :=
  match users db !! owner p with
  | Some u => Some {| ov_firstName := firstName u; ov_lastName := lastName u;
                      ov_email := email u; ov_avatar := avatar u |}
  | None => None
  end.

Definition populate_investments (db : Db) (id : string) : list InvestmentView :=
  List.map (fun i => {| iv_amount := amount i; iv_status := i_status i;
                        iv_createdAt := createdAt i |})
    (List.filter (fun i => String.eqb (i_project i) id) (investments db)).

Definition increment_views (p : Project) : Project :=
  {| title := title p; description := description p;
     images := images p; owner := owner p; fundingGoal := fundingGoal p;
     fundingRaised := fundingRaised p; fundingDeadline := fundingDeadline p;
     minInvestment := minInvestment p; accreditedOnly := accreditedOnly p;
     p_status := p_status p;
     metrics := {| views := views (metrics p) + 1;
                   favorites := favorites (metrics p) |} |}.

Definition getProject (id : string) : Handler ProjectView unit :=
  (found <- Project_findById id ;;
   match found with
   | None => next_error ("Project not found with id of " ++ id) 404
   | Some project =>
       db <- get ;;
       let owner_view := populate_owner db project in
       let investment_views := populate_investments db id in
       (* Increment view count *)
       let project := increment_views project in
       Project_save id project ;;;
       respond 200 {| pv_project := project; pv_owner := owner_view;
                      pv_investments := investment_views |}
   end)%handler.

End ProjectController.

(** ** services/paymentService.js *)

Module PaymentService.

(** What the Stripe client answers when it is called: the created
    object, or an exception with a message. *)
Inductive StripeAnswer :=
| StripeObject (id : string) (status : string)
| StripeThrows (msg : string).

(** The surroundings of one request: the clock and the answers Stripe
    would give to a charge and to a refund. *)
Record Env := {
  now : Z;
  stripe_paymentIntents_create : StripeAnswer;
  stripe_refunds_create : StripeAnswer
}.

Record PaymentDetails := { paymentMethodId : option string }.

Record PaymentOptions := {
  po_amount : Z;
  po_paymentMethod : string;
  po_paymentDetails : option PaymentDetails;
  po_user : User;
  po_project : string * Project
}.

Record PaymentResult := {
  pr_paymentId : string;
  pr_fee : Double.double;
  pr_status : string
}.

Record RefundResult := { rr_refundId : string; rr_status : string }.

(** A service call: the events it causes, and a result or a thrown
    [ErrorResponse]. *)
Definition Call (A : Type) : Type := list Event * (A + ErrorResponse).

(** [Math.round(x)]: the integer nearest to [x], halves upwards, which
    is the floor of [x + 1/2] taken exactly.  [Math.round] gives [NaN]
    and the infinities back as they are; they are no integers, and the
    model has 0 for them: whole amounts between [-2^1017] and [2^1017]
    do not reach them. *)
Definition Math_round (x : Double.double) : Z :=
  match x with
  | SpecFloat.S754_finite s m e =>
      let v := SpecFloat.cond_Zopp s (Zpos m) in
      if Z.leb 0 e then v * 2 ^ e
      else (2 * v + 2 ^ (- e)) / 2 ^ (1 - e)
  | _ => 0
  end.

(** [amount * 0.02] *)
Definition fee_of (amount : Z) : Double.double :=
  Double.mul (Double.of_Z amount) Double.two_hundredths.

(** [Math.round((amount + fee) * 100)] *)
Definition charge_cents (amount : Z) : Z :=
  Math_round (Double.mul (Double.add (Double.of_Z amount) (fee_of amount))
                         (Double.of_Z 100)).

(** [Math.round(amount * 100)] *)
Definition refund_cents (amount : Z) : Z :=
  Math_round (Double.mul (Double.of_Z amount) (Double.of_Z 100)).

Definition processPayment (env : Env) (options : PaymentOptions)
  : Call PaymentResult :=
  let amount := po_amount options in
  let fee := fee_of amount in
  let method := po_paymentMethod options in
  if String.eqb method "credit_card" then
    match po_paymentDetails options with
    | None =>
        (* paymentDetails.paymentMethodId on undefined, inside the try *)
        ([EvProcessPayment amount method],
         inr (mkError ("Payment failed: " ++
                "Cannot read properties of undefined (reading 'paymentMethodId')")
                400))
    | Some _ =>
        match stripe_paymentIntents_create env with
        | StripeObject id status =>
            ([EvProcessPayment amount method; EvStripeCharge (charge_cents amount)],
             inl {| pr_paymentId := id; pr_fee := fee;
                    pr_status := if String.eqb status "succeeded"
                                 then "succeeded" else "pending" |})
        | StripeThrows msg =>
            ([EvProcessPayment amount method; EvStripeCharge (charge_cents amount)],
             inr (mkError ("Payment failed: " ++ msg) 400))
        end
    end
  else if String.eqb method "bank_transfer" then
    ([EvProcessPayment amount method],
     inl {| pr_paymentId := "bank_" ++ show_Z (now env); pr_fee := fee;
            pr_status := "pending" |})
  else if String.eqb method "wire" then
    ([EvProcessPayment amount method],
     inl {| pr_paymentId := "wire_" ++ show_Z (now env); pr_fee := fee;
            pr_status := "pending" |})
  else if String.eqb method "crypto" then
    ([EvProcessPayment amount method],
     inl {| pr_paymentId := "crypto_" ++ show_Z (now env); pr_fee := fee;
            pr_status := "pending" |})
  else
    ([EvProcessPayment amount method],
     inr (mkError "Unsupported payment method" 400)).

Definition processRefund (env : Env) (paymentId : string) (amount : Z)
  : Call RefundResult :=
  if String.prefix "pi_" paymentId then
    match stripe_refunds_create env with
    | StripeObject id status =>
        ([EvProcessRefund paymentId amount;
          EvStripeRefund paymentId (refund_cents amount)],
         inl {| rr_refundId := id; rr_status := status |})
    | StripeThrows msg =>
        ([EvProcessRefund paymentId amount;
          EvStripeRefund paymentId (refund_cents amount)],
         inr (mkError ("Refund failed: " ++ msg) 400))
    end
  else if String.prefix "bank_" paymentId || String.prefix "wire_" paymentId
          || String.prefix "crypto_" paymentId then
    ([EvProcessRefund paymentId amount],
     inl {| rr_refundId := "refund_" ++ show_Z (now env); rr_status := "pending" |})
  else
    ([EvProcessRefund paymentId amount], inr (mkError "Invalid payment ID" 400)).

End PaymentService.

(** Awaiting a service call from a handler: its events are appended to
    the trace, the result or the exception is handed to the caller. *)
Definition await {B A} (c : PaymentService.Call A) : Handler B (A + ErrorResponse) :=
  fun db =>
    ({| projects := projects db; users := users db;
        investments := investments db; oid := oid db;
        trace := trace db ++ fst c |}, inl (snd c)).

(** ** controllers/investmentController.js *)

Module InvestmentController.
Import PaymentService.

(** [req] of [POST /api/projects/:projectId/investments], after
    [protect]: the route parameter, the authenticated user and the
    fields of the JSON body the handler and the model read. *)
Record CreateRequest := {
  params_projectId : string;
  req_user : User;
  body_amount : Z;
  body_paymentMethod : string;
  body_paymentDetails : option PaymentDetails;
  body_status : option InvestmentStatus
}.

Definition is_accredited (u : User) : bool :=
  match investorProfile u with
  | None => false
  | Some profile => String.eqb (accreditedStatus profile) "accredited"
  end.

(** Modelled from the spec: the default of [status] in the Investment
    schema is [pending].  [Investment.create(req.body)] stores the body
    with the fields the handler has set, under a fresh [_id] and with
    [createdAt] from the clock; a [status] the body brings is stored as
    it is. *)
Definition Investment_create {B} (env : Env) (investor project : string)
    (amount : Z) (method : string) (payment : PaymentResult)
    (status : option InvestmentStatus) : Handler B Investment :=
  fun db =>
    let doc := {| i_id := show_Z (oid db);
                  i_investor := investor; i_project := project;
                  amount := amount; paymentMethod := method;
                  paymentId := Some (pr_paymentId payment);
                  transactionFee := pr_fee payment;
                  i_status := match status with
                              | Some s => s
                              | None => is_pending
                              end;
                  createdAt := now env |} in
    ({| projects := projects db; users := users db;
        investments := investments db ++ [doc]; oid := oid db + 1;
        trace := trace db ++ [EvInvestmentCreate (i_id doc)] |}, inl doc).

(** [investment.save()] *)
Definition Investment_save {B} (inv : Investment) : Handler B unit :=
  fun db =>
    ({| projects := projects db; users := users db;
        investments :=
          List.map (fun i => if String.eqb (i_id i) (i_id inv) then inv else i)
                   (investments db);
        oid := oid db;
        trace := trace db ++ [EvInvestmentSave (i_id inv)] |}, inl tt).

Definition completed_for (project : string) (i : Investment) : bool :=
  String.eqb (i_project i) project
  && investment_status_eqb (i_status i) is_completed.

Definition sum_amounts (l : list Investment) : Z :=
  List.fold_right (fun i acc => amount i + acc) 0 l.

(** [Investment.aggregate([{ $match: { project, status: 'completed' } },
    { $group: { _id: '$project', totalFunding: { $sum: '$amount' } } }])]:
    one group when some document matches, none otherwise. *)
Definition aggregate_totalFunding {B} (project : string)
  : Handler B (list (string * Z)) :=
  fun db =>
    (db, inl match List.filter (completed_for project) (investments db) with
             | [] => []
             | matched => [(project, sum_amounts matched)]
             end).

Definition set_fundingRaised (v : Z) (p : Project) : Project :=
  {| title := title p; description := description p; images := images p;
     owner := owner p; fundingGoal := fundingGoal p; fundingRaised := v;
     fundingDeadline := fundingDeadline p; minInvestment := minInvestment p;
     accreditedOnly := accreditedOnly p; p_status := p_status p;
     metrics := metrics p |}.

Definition set_status (s : ProjectStatus) (p : Project) : Project :=
  {| title := title p; description := description p; images := images p;
     owner := owner p; fundingGoal := fundingGoal p;
     fundingRaised := fundingRaised p;
     fundingDeadline := fundingDeadline p; minInvestment := minInvestment p;
     accreditedOnly := accreditedOnly p; p_status := s;
     metrics := metrics p |}.

Definition set_investment_status (s : InvestmentStatus) (i : Investment)
  : Investment :=
  {| i_id := i_id i; i_investor := i_investor i; i_project := i_project i;
     amount := amount i; paymentMethod := paymentMethod i;
     paymentId := paymentId i; transactionFee := transactionFee i;
     i_status := s; createdAt := createdAt i |}.

(** The argument of [paymentService.processPayment] *)
Definition payment_options (req : CreateRequest) (project : Project)
  : PaymentOptions :=
  {| po_amount := body_amount req;
     po_paymentMethod := body_paymentMethod req;
     po_paymentDetails := body_paymentDetails req;
     po_user := req_user req;
     po_project := (params_projectId req, project) |}.

Definition createInvestment (env : Env) (req : CreateRequest)
  : Handler Investment unit :=
  (let projectId := params_projectId req in
   found <- Project_findById projectId ;;
   match found with
   | None => next_error ("Project not found with id of " ++ projectId) 404
   | Some project =>
   (* Check if project is active and accepting investments *)
   if negb (project_status_eqb (p_status project) ps_active) then
     next_error "Project is not currently accepting investments" 400
   (* Check if funding deadline has passed *)
   else if Z.ltb (fundingDeadline project) (now env) then
     next_error "Funding deadline has passed" 400
   (* Check if minimum investment is met *)
   else if Z.ltb (body_amount req) (minInvestment project) then
     next_error ("Minimum investment amount is " ++ show_Z (minInvestment project)) 400
   (* Check if accredited investor only and user is accredited *)
   else if accreditedOnly project && negb (is_accredited (req_user req)) then
     next_error "This project is only available to accredited investors" 403
   else
     (* Process payment *)
     paid <- await (processPayment env (payment_options req project)) ;;
     match paid with
     | inr err => next_error ("Payment processing failed: " ++ message err) 400
     | inl paymentResult =>
         (* Mark as completed if payment successful *)
         let status := if String.eqb (pr_status paymentResult) "succeeded"
                       then Some is_completed else body_status req in
         (* Create investment *)
         investment <- Investment_create env (u_id (req_user req)) projectId
                         (body_amount req) (body_paymentMethod req)
                         paymentResult status ;;
         (* Update project funding *)
         totalFunded <- aggregate_totalFunding projectId ;;
         let project := match totalFunded with
                        | (_, totalFunding) :: _ => set_fundingRaised totalFunding project
                        | [] => project
                        end in
         (* Check if funding goal is reached *)
         let project := if Z.leb (fundingGoal project) (fundingRaised project)
                        then set_status ps_funded project else project in
         Project_save projectId project ;;;
         respond 201 investment
     end
   end)%handler.

(** [req] of [PUT /api/investments/:id]: the fields of the body that
    [findByIdAndUpdate] writes. *)
Record UpdateRequest := {
  update_id : string;
  update_user : User;
  patch_status : option InvestmentStatus;
  patch_amount : option Z
}.

Definition apply_patch (req : UpdateRequest) (i : Investment) : Investment :=
  {| i_id := i_id i; i_investor := i_investor i; i_project := i_project i;
     amount := match patch_amount req with Some a => a | None => amount i end;
     paymentMethod := paymentMethod i;
     paymentId := paymentId i; transactionFee := transactionFee i;
     i_status := match patch_status req with Some s => s | None => i_status i end;
     createdAt := createdAt i |}.

Definition updateInvestment (req : UpdateRequest) : Handler Investment unit :=
  (found <- Investment_findById (update_id req) ;;
   match found with
   | None => next_error ("Investment not found with id of " ++ update_id req) 404
   | Some investment =>
       (* Only admin can update investments *)
       if negb (role_eqb (role (update_user req)) admin) then
         next_error ("User " ++ u_id (update_user req)
                     ++ " is not authorized to update this investment") 403
       else
         let investment := apply_patch req investment in
         Investment_save investment ;;;
         respond 200 investment
   end)%handler.

(** [req] of [PUT /api/investments/:id/cancel], after [protect]. *)
Record CancelRequest := { params_id : string; cancel_user : User }.

Definition truthy (s : option string) : option string :=
  match s with
  | Some EmptyString => None
  | other => other
  end.

Definition cancelInvestment (env : Env) (req : CancelRequest)
  : Handler Investment unit :=
  (found <- Investment_findById (params_id req) ;;
   match found with
   | None => next_error ("Investment not found with id of " ++ params_id req) 404
   | Some investment =>
   let user := cancel_user req in
   (* Make sure user is investment owner or admin *)
   if negb (String.eqb (i_investor investment) (u_id user))
      && negb (role_eqb (role user) admin) then
     next_error ("User " ++ u_id user ++ " is not authorized to cancel this investment") 403
   (* Check if investment can be cancelled *)
   else if negb (investment_status_eqb (i_status investment) is_pending) then
     next_error "Only pending investments can be cancelled" 400
   else
     let finish : Handler Investment unit :=
       (* Update investment status *)
       let investment := set_investment_status is_cancelled investment in
       Investment_save investment ;;;
       (* Update project funding amount *)
       project <- Project_findById (i_project investment) ;;
       match project with
       | None =>
           (* TypeError on null, passed to next by asyncHandler and
              answered with 500 by errorHandler *)
           next_error "Cannot read properties of null (reading 'fundingRaised')" 500
       | Some project =>
           Project_save (i_project investment)
             (set_fundingRaised (fundingRaised project - amount investment) project) ;;;
           respond 200 investment
       end in
     (* Process refund if necessary *)
     match truthy (paymentId investment) with
     | Some pid =>
         refunded <- await (processRefund env pid (amount investment)) ;;
         match refunded with
         | inr err => next_error ("Refund processing failed: " ++ message err) 400
         | inl _ => finish
         end
     | None => finish
     end
   end)%handler.

End InvestmentController.

(** ** String primitives of the JavaScript runtime

    A [string] is a JavaScript string whose code units are all below
    256, one [ascii] per code unit. *)

Module Js.

(** [s.split(sep)] for a one-character separator *)
Fixpoint split (sep : ascii) (s : string) : list string :=
  match s with
  | EmptyString => [EmptyString]
  | String c rest =>
      let parts := split sep rest in
      if Ascii.eqb c sep then EmptyString :: parts
      else match parts with
           | [] => [String c EmptyString]
           | part :: others => String c part :: others
           end
  end.

(** [parts.join(sep)] *)
Definition join (sep : string) (parts : list string) : string :=
  String.concat sep parts.

Definition is_digit (c : ascii) : bool :=
  let n := nat_of_ascii c in (48 <=? n)%nat && (n <=? 57)%nat.

Definition digit_value (c : ascii) : Z := Z.of_nat (nat_of_ascii c) - 48.

(** White space and line terminators, which [parseInt] skips: among the
    code units below 256 these are tab, line feed, vertical tab, form
    feed, carriage return, space and no-break space (U+00A0).  The
    others (U+1680, U+2000 to U+200A, U+2028, U+2029, U+202F, U+205F,
    U+3000, U+FEFF) are code units above 255. *)
Definition is_space (c : ascii) : bool :=
  let n := nat_of_ascii c in
  ((9 <=? n)%nat && (n <=? 13)%nat) || (n =? 32)%nat || (n =? 160)%nat.

Fixpoint skip_spaces (s : string) : string :=
  match s with
  | String c rest => if is_space c then skip_spaces rest else s
  | EmptyString => s
  end.

Fixpoint leading_digits (s : string) (acc : option Z) : option Z :=
  match s with
  | String c rest =>
      if is_digit c
      then leading_digits rest
             (Some (10 * match acc with Some v => v | None => 0 end
                    + digit_value c))
      else acc
  | EmptyString => acc
  end.

(** [parseInt(s, 10)]; [None] is [NaN]. *)
Definition parseInt10 (s : string) : option Z :=
  match skip_spaces s with
  | String "-" rest => option_map Z.opp (leading_digits rest None)
  | String "+" rest => leading_digits rest None
  | trimmed => leading_digits trimmed None
  end.

(** [n || fallback] on a number: [NaN] and [0] are falsy. *)
Definition number_or (n : option Z) (fallback : Z) : Z :=
  match n with
  | Some 0 | None => fallback
  | Some v => v
  end.

(** Word characters of [\b] and [\w]: letters, digits, underscore. *)
Definition is_word (c : ascii) : bool :=
  let n := nat_of_ascii c in
  ((48 <=? n)%nat && (n <=? 57)%nat) || ((65 <=? n)%nat && (n <=? 90)%nat)
  || ((97 <=? n)%nat && (n <=? 122)%nat) || (n =? 95)%nat.

(** [arr.slice(start, end)] *)
Definition slice {A} (l : list A) (start finish : Z) : list A :=
  let n := Z.of_nat (length l) in
  let clamp i := if Z.ltb i 0 then Z.max (n + i) 0 else Z.min i n in
  let k := clamp start in
  let e := clamp finish in
  firstn (Z.to_nat (e - k)) (skipn (Z.to_nat k) l).

(** A number that need not be an integer in range. *)
Inductive Number := Num (z : Z) | Infinity | NaN.

(** [Math.ceil(a / b)] for integers [a >= 0] and [b] *)
Definition ceil_div (a b : Z) : Number :=
  if Z.eqb b 0 then (if Z.eqb a 0 then NaN else Infinity)
  else Num (- ((- a) / b)).

End Js.

(** ** middleware/auth.js *)

Module Auth.

(** Outcome of [jwt.verify]: the decoded payload's [id], or an
    exception ([TokenExpiredError], [JsonWebTokenError], ...). *)
Inductive JwtAnswer :=
| Decoded (id : string)
| JwtThrows (name : string).

Record Request := { authorization : option string }.

Section Middleware.

(** [jwt.verify(token, secret)] and [process.env.JWT_SECRET] *)
Variable jwt_verify : string -> string -> JwtAnswer.
Variable JWT_SECRET : string.

(** The token taken from the [Authorization] header, when the header
    is there, starts with [Bearer] and has a non-empty second word. *)
Definition bearer_token (req : Request) : option string :=
  match authorization req with
  | Some header =>
      if String.prefix "Bearer" header
      then match nth_error (Js.split " " header) 1 with
           | Some EmptyString => None
           | token => token
           end
      else None
  | None => None
  end.

(** [protect]: yields [req.user] when it calls [next()]. *)
Definition protect {B} (req : Request) : Handler B User :=
  match bearer_token req with
  (* Make sure token exists *)
  | None => next_error "Not authorized to access this route" 401
  | Some token =>
      (* Verify token *)
      match jwt_verify token JWT_SECRET with
      | Decoded id =>
          (* Get user from the token *)
          (found <- User_findById id ;;
           match found with
           | None => next_error "User not found" 404
           | Some user => ret user
           end)%handler
      | JwtThrows _ => next_error "Not authorized to access this route" 401
      end
  end.

(** [authorize(...roles)] *)
Definition authorize {B} (roles : list UserRole) (user : User) : Handler B unit :=
  if existsb (role_eqb (role user)) roles then ret tt
  else next_error ("User role " ++ role_name (role user)
                   ++ " is not authorized to access this route") 403.

(** A route behind [protect] and [authorize(...roles)]. *)
Definition protected_route {B} (roles : list UserRole)
    (handler : User -> Handler B unit) (req : Request) : Handler B unit :=
  (user <- protect req ;;
   authorize roles user ;;;
   handler user)%handler.

End Middleware.

End Auth.

(** ** utils/helpers.js *)

Module Helpers.

Record Page (A : Type) := {
  pg_page : Z;
  pg_perPage : Z;
  pg_total : Z;
  pg_totalPages : Js.Number;
  pg_data : list A
}.
Arguments pg_page {A}. Arguments pg_perPage {A}. Arguments pg_total {A}.
Arguments pg_totalPages {A}. Arguments pg_data {A}.

(** [paginateArray(items, page = 1, perPage = 10)] *)
Definition paginateArray {A} (items : list A) (page perPage : option Z) : Page A :=
  let page := match page with Some p => p | None => 1 end in
  let perPage := match perPage with Some n => n | None => 10 end in
  let offset := perPage * (page - 1) in
  let totalPages := Js.ceil_div (Z.of_nat (length items)) perPage in
  let paginatedItems := Js.slice items offset (perPage * page) in
  {| pg_page := page; pg_perPage := perPage;
     pg_total := Z.of_nat (length items);
     pg_totalPages := totalPages; pg_data := paginatedItems |}.

End Helpers.

(** ** utils/advancedResults.js *)

Module AdvancedResults.

(** [req.query] as the query-string parser leaves it: strings, arrays
    and nested objects ([amount[gt]=100] is [{ amount: { gt: '100' } }]). *)
Inductive QValue :=
| QStr (s : string)
| QArr (items : list QValue)
| QObj (fields : list (string * QValue)).

Definition Query := list (string * QValue).

Definition quote : ascii := ascii_of_nat 34.
Definition backslash : ascii := ascii_of_nat 92.

Definition hex_digit (n : nat) : ascii :=
  if (n <? 10)%nat then ascii_of_nat (48 + n) else ascii_of_nat (87 + n).

(** One character inside a JSON string literal. *)
Definition json_escape_char (c : ascii) : string :=
  let n := nat_of_ascii c in
  if Ascii.eqb c quote then String backslash (String quote EmptyString)
  else if Ascii.eqb c backslash then String backslash (String backslash EmptyString)
  else if (n =? 8)%nat then String backslash "b"
  else if (n =? 9)%nat then String backslash "t"
  else if (n =? 10)%nat then String backslash "n"
  else if (n =? 12)%nat then String backslash "f"
  else if (n =? 13)%nat then String backslash "r"
  else if (n <? 32)%nat then
    String backslash
      ("u00" ++ String (hex_digit (n / 16)) (String (hex_digit (n mod 16)) EmptyString))
  else String c EmptyString.

Fixpoint json_escape (s : string) : string :=
  match s with
  | EmptyString => EmptyString
  | String c rest => json_escape_char c ++ json_escape rest
  end.

Definition json_string (s : string) : string :=
  String quote (json_escape s ++ String quote EmptyString).

(** [JSON.stringify] *)
Fixpoint stringify (v : QValue) : string :=
  match v with
  | QStr s => json_string s
  | QArr items =>
      "[" ++ Js.join "," (List.map stringify items) ++ "]"
  | QObj fields =>
      "{" ++ Js.join ","
               (List.map (fun kv => json_string (fst kv) ++ ":" ++ stringify (snd kv))
                         fields) ++ "}"
  end.

(** [String(v)], as [parseInt] applies it to its argument *)
Fixpoint to_String (v : QValue) : string :=
  match v with
  | QStr s => s
  | QArr items => Js.join "," (List.map to_String items)
  | QObj _ => "[object Object]"
  end.

Definition lookup (key : string) (q : Query) : option QValue :=
  match List.find (fun kv => String.eqb (fst kv) key) q with
  | Some kv => Some (snd kv)
  | None => None
  end.

(** Fields to exclude from filtering *)
Definition removeFields : list string := ["select"; "sort"; "page"; "limit"].

(** [removeFields.forEach(param => delete reqQuery[param])] *)
Definition remove_excluded (q : Query) : Query :=
  List.filter (fun kv => negb (existsb (String.eqb (fst kv)) removeFields)) q.

Definition operators : list string := ["gt"; "gte"; "lt"; "lte"; "in"].

Definition flush_word (callback : string -> string) (word : string) : string :=
  if existsb (String.eqb word) operators then callback word else word.

(** [s.replace(/\b(gt|gte|lt|lte|in)\b/g, callback)]: every maximal run
    of word characters that spells one of the five names is replaced by
    what the callback returns for it.  [word] is the run read so far. *)
Fixpoint replace_from (callback : string -> string) (word : string) (s : string)
  : string :=
  match s with
  | EmptyString => flush_word callback word
  | String c rest =>
      if Js.is_word c
      then replace_from callback (word ++ String c EmptyString) rest
      else flush_word callback word
           ++ String c (replace_from callback EmptyString rest)
  end.

Definition replace_operators (callback : string -> string) (s : string) : string :=
  replace_from callback EmptyString s.

(** The callback of the source, [match => `${match}`]: the template
    holds the match and nothing else. *)
Definition operator_callback (match_ : string) : string := match_.

(** The callback the comment above the call announces ([$gt], [$gte],
    etc): the match behind a dollar sign. *)
Definition dollar_callback (match_ : string) : string := "$" ++ match_.

(** [queryStr] as it reaches [JSON.parse] *)
Definition queryStr (q : Query) : string :=
  replace_operators operator_callback (stringify (QObj (remove_excluded q))).

Record PageRef := { page : Z; limit : Z }.

Record Pagination := { next : option PageRef; prev : option PageRef }.

Record Envelope (Doc : Type) := {
  success : bool;
  count : Z;
  pagination : Pagination;
  data : list Doc
}.
Arguments success {Doc}. Arguments count {Doc}.
Arguments pagination {Doc}. Arguments data {Doc}.

(** A query parameter the handler calls a string method on. *)
Inductive Param := Absent | Text (s : string) | NotText.

Definition param (key : string) (q : Query) : Param :=
  match lookup key q with
  | None | Some (QStr EmptyString) => Absent
  | Some (QStr s) => Text s
  | Some (QArr _) | Some (QObj _) => NotText
  end.

Definition parse_number (key : string) (q : Query) : option Z :=
  match lookup key q with
  | Some v => Js.parseInt10 (to_String v)
  | None => None
  end.

Fixpoint insert_sorted {Doc} (before : Doc -> Doc -> bool) (d : Doc) (l : list Doc)
  : list Doc :=
  match l with
  | [] => [d]
  | x :: rest => if before x d then x :: insert_sorted before d rest else d :: l
  end.

(** The argument of [query.select]: the fields of [select], separated
    by spaces, when the parameter is given. *)
Definition fields_of (selected : Param) : option string :=
  match selected with
  | Text s => Some (Js.join " " (Js.split "," s))
  | _ => None
  end.

(** The argument of [query.sort] *)
Definition sortBy_of (sorted : Param) : string :=
  match sorted with
  | Text s => Js.join " " (Js.split "," s)
  | _ => "-createdAt"
  end.

Section Model.

(** The Mongoose model behind the route: its documents; what Mongoose
    or the database throws for a filter, a projection and a sort order
    it does not execute (a [CastError] for a value that does not fit
    the schema, a projection that mixes inclusion and exclusion, ...),
    if it throws; and for a query it executes, which documents the
    parsed filter selects, the projection of [select], the order of a
    [sort] specification and the joins of [populate]. *)
Variable Doc : Type.
Variable collection : list Doc.
Variable refusal : string -> option string -> string -> option string.
Variable matches : string -> Doc -> bool.
Variable select_fields : string -> Doc -> Doc.
Variable before : string -> Doc -> Doc -> bool.
Variable populate : Doc -> Doc.

(** [model.find(JSON.parse(queryStr))] *)
Definition find (queryStr : string) : list Doc :=
  List.filter (matches queryStr) collection.

(** [model.countDocuments(JSON.parse(queryStr))] *)
Definition countDocuments (queryStr : string) : Z :=
  Z.of_nat (length (List.filter (matches queryStr) collection)).

(** [query.sort(spec)] *)
Definition sort (spec : string) (docs : list Doc) : list Doc :=
  List.fold_right (insert_sorted (before spec)) [] docs.

(** [query.skip(startIndex).limit(limit)]; the driver refuses a
    negative skip and reads a negative limit as its absolute value. *)
Definition skip_limit (startIndex limit : Z) (docs : list Doc)
  : option (list Doc) :=
  if Z.ltb startIndex 0 then None
  else Some (firstn (Z.to_nat (Z.abs limit)) (skipn (Z.to_nat startIndex) docs)).

Inductive Thrown := TypeError (what : string) | MongoError (what : string).

(** The middleware is not wrapped in [asyncHandler]: what it throws
    leaves the request without [res.advancedResults] and without
    [next()]. *)
Definition advancedResults (query : Query) : Envelope Doc + Thrown :=
  let queryStr := queryStr query in
  (* Finding resource *)
  let found := find queryStr in
  (* Select fields *)
  match param "select" query with
  | NotText => inr (TypeError "req.query.select.split is not a function")
  | selected =>
  (* Sort *)
  match param "sort" query with
  | NotText => inr (TypeError "req.query.sort.split is not a function")
  | sorted =>
  let fields := fields_of selected in
  let sortBy := sortBy_of sorted in
  (* Pagination *)
  let page := Js.number_or (parse_number "page" query) 1 in
  let limit := Js.number_or (parse_number "limit" query) 10 in
  let startIndex := (page - 1) * limit in
  let endIndex := page * limit in
  let total := countDocuments queryStr in
  (* Execute query *)
  match refusal queryStr fields sortBy with
  | Some what => inr (MongoError what)
  | None =>
  match skip_limit startIndex limit (sort sortBy found) with
  | None => inr (MongoError "Skip value must be non-negative")
  | Some window =>
      let projected :=
        match fields with
        | Some fields => List.map (select_fields fields) window
        | None => window
        end in
      let results := List.map populate projected in
      inl {| success := true;
             count := Z.of_nat (length results);
             pagination :=
               {| next := if Z.ltb endIndex total
                          then Some {| page := page + 1; limit := limit |}
                          else None;
                  prev := if Z.ltb 0 startIndex
                          then Some {| page := page - 1; limit := limit |}
                          else None |};
             data := results |}
  end
  end
  end
  end.

End Model.

End AdvancedResults.

(** ** Sample data *)

Module Samples.
Import PaymentService InvestmentController.

Definition alice : User :=
  {| u_id := "u1"; firstName := "Alice"; lastName := "Ames";
     email := "alice@example.com"; avatar := "a.png"; role := investor;
     investorProfile := None; stripeCustomerId := Some "cus_1" |}.

Definition bob : User :=
  {| u_id := "u2"; firstName := "Bob"; lastName := "Bell";
     email := "bob@example.com"; avatar := "b.png"; role := investor;
     investorProfile := Some {| accreditedStatus := "pending" |};
     stripeCustomerId := None |}.

Definition root : User :=
  {| u_id := "u0"; firstName := "Root"; lastName := "Admin";
     email := "root@example.com"; avatar := "r.png"; role := admin;
     investorProfile := None; stripeCustomerId := None |}.

Definition mona : User :=
  {| u_id := "u3"; firstName := "Mona"; lastName := "Moss";
     email := "mona@example.com"; avatar := "m.png"; role := manager;
     investorProfile := None; stripeCustomerId := None |}.

(** The project of the specification's examples: goal 10000, minimum
    100, active. *)
Definition tower : Project :=
  {| title := "Tower"; description := "Forty flats"; images := [];
     owner := "u3"; fundingGoal := 10000; fundingRaised := 0;
     fundingDeadline := 2000; minInvestment := 100;
     accreditedOnly := false; p_status := ps_active;
     metrics := {| views := 7; favorites := 2 |} |}.

Definition vault : Project :=
  {| title := "Vault"; description := "Accredited only"; images := [];
     owner := "u3"; fundingGoal := 50000; fundingRaised := 0;
     fundingDeadline := 2000; minInvestment := 1000;
     accreditedOnly := true; p_status := ps_active;
     metrics := {| views := 0; favorites := 0 |} |}.

Definition db0 : Db :=
  {| projects := <["p1" := tower]> (<["p2" := vault]> ∅);
     users := <["u0" := root]> (<["u1" := alice]> (<["u2" := bob]>
                (<["u3" := mona]> ∅)));
     investments := []; oid := 1; trace := [] |}.

Definition card_succeeds : Env :=
  {| now := 1000;
     stripe_paymentIntents_create := StripeObject "pi_1" "succeeded";
     stripe_refunds_create := StripeObject "re_1" "succeeded" |}.

Definition card_declined : Env :=
  {| now := 1000;
     stripe_paymentIntents_create := StripeThrows "Your card was declined.";
     stripe_refunds_create := StripeThrows "No such payment_intent" |}.

Definition invest (project : string) (u : User) (n : Z) (method : string)
    (status : option InvestmentStatus) : CreateRequest :=
  {| params_projectId := project; req_user := u; body_amount := n;
     body_paymentMethod := method;
     body_paymentDetails := Some {| paymentMethodId := Some "pm_1" |};
     body_status := status |}.

Definition cancel (id : string) (u : User) : CancelRequest :=
  {| params_id := id; cancel_user := u |}.

(** A stand-in for [jwt.verify]: three tokens signed with the secret
    [s3cret], one of them expired. *)
Definition sample_verify (token secret : string) : Auth.JwtAnswer :=
  if negb (String.eqb secret "s3cret") then Auth.JwtThrows "JsonWebTokenError"
  else if String.eqb token "tok-alice" then Auth.Decoded "u1"
  else if String.eqb token "tok-mona" then Auth.Decoded "u3"
  else if String.eqb token "tok-gone" then Auth.Decoded "u9"
  else if String.eqb token "tok-old" then Auth.JwtThrows "TokenExpiredError"
  else Auth.JwtThrows "JsonWebTokenError".

Definition bearer (token : string) : Auth.Request :=
  {| Auth.authorization := Some ("Bearer " ++ token) |}.

(** Stripe accepts the charge without settling it at once. *)
Definition card_processing : Env :=
  {| now := 1000;
     stripe_paymentIntents_create := StripeObject "pi_2" "processing";
     stripe_refunds_create := StripeObject "re_2" "pending" |}.

(** Alice's card payment of 500 on the tower, still pending. *)
Definition db_processing : Db :=
  after (createInvestment card_processing (invest "p1" alice 500 "credit_card" None)) db0.

(** Alice's card payment of 500 on the tower, completed. *)
Definition db_paid : Db :=
  after (createInvestment card_succeeds (invest "p1" alice 500 "credit_card" None)) db0.

(** The same after an administrator marked that investment refunded. *)
Definition db_corrected : Db :=
  after (updateInvestment {| update_id := "1"; update_user := root;
                             patch_status := Some is_refunded;
                             patch_amount := None |}) db_paid.

(** An investment left behind by a project that was deleted. *)
Definition orphan : Investment :=
  {| i_id := "7"; i_investor := "u1"; i_project := "p9"; amount := 250;
     paymentMethod := "wire"; paymentId := Some "wire_900";
     transactionFee := PaymentService.fee_of 250; i_status := is_pending;
     createdAt := 900 |}.

Definition db_orphan : Db :=
  {| projects := projects db0; users := users db0; investments := [orphan];
     oid := 8; trace := [] |}.

End Samples.

(** ** The properties, as the specification words them *)

Module Ledger.
Import PaymentService InvestmentController.

(** The five refusals of [createInvestment]. *)
Inductive Rejection :=
| ProjectNotFound | ProjectNotActive | DeadlinePassed
| BelowMinimum | NotAccredited.

(** The precondition that fails first, the specification's order:
    project exists; status is active; now is not past the deadline;
    amount reaches the minimum; accredited investor when the project
    asks for one. *)
Inductive fails_check (env : Env) (req : CreateRequest) (db : Db)
  : Rejection -> Prop :=
| fails_missing :
    projects db !! params_projectId req = None ->
    fails_check env req db ProjectNotFound
| fails_inactive p :
    projects db !! params_projectId req = Some p ->
    p_status p <> ps_active ->
    fails_check env req db ProjectNotActive
| fails_deadline p :
    projects db !! params_projectId req = Some p ->
    p_status p = ps_active ->
    fundingDeadline p < now env ->
    fails_check env req db DeadlinePassed
| fails_minimum p :
    projects db !! params_projectId req = Some p ->
    p_status p = ps_active ->
    now env <= fundingDeadline p ->
    body_amount req < minInvestment p ->
    fails_check env req db BelowMinimum
| fails_accredited p :
    projects db !! params_projectId req = Some p ->
    p_status p = ps_active ->
    now env <= fundingDeadline p ->
    minInvestment p <= body_amount req ->
    accreditedOnly p = true ->
    option_map accreditedStatus (investorProfile (req_user req))
      <> Some "accredited" ->
    fails_check env req db NotAccredited.

(** Some precondition fails, in whatever position. *)
Definition violates (env : Env) (req : CreateRequest) (db : Db) : Prop :=
  match projects db !! params_projectId req with
  | None => True
  | Some p =>
      p_status p <> ps_active \/ fundingDeadline p < now env
      \/ body_amount req < minInvestment p
      \/ (accreditedOnly p = true
          /\ option_map accreditedStatus (investorProfile (req_user req))
             <> Some "accredited")
  end.

Definition rejection_error (req : CreateRequest) (db : Db) (r : Rejection)
  : ErrorResponse :=
  match r with
  | ProjectNotFound =>
      mkError ("Project not found with id of " ++ params_projectId req) 404
  | ProjectNotActive =>
      mkError "Project is not currently accepting investments" 400
  | DeadlinePassed => mkError "Funding deadline has passed" 400
  | BelowMinimum =>
      mkError ("Minimum investment amount is "
               ++ show_Z (match projects db !! params_projectId req with
                          | Some p => minInvestment p
                          | None => 0
                          end)) 400
  | NotAccredited =>
      mkError "This project is only available to accredited investors" 403
  end.

(** All four eligibility checks pass on a project that exists. *)
Definition eligible (env : Env) (req : CreateRequest) (p : Project) : Prop :=
  p_status p = ps_active /\ now env <= fundingDeadline p
  /\ minInvestment p <= body_amount req
  /\ (accreditedOnly p = true -> is_accredited (req_user req) = true).

(** The completed investments of a project, and the funding ledger:
    the stored total is their sum. *)
Definition completed_of (project : string) (db : Db) : list Investment :=
  List.filter (completed_for project) (investments db).

Definition ledger_consistent (db : Db) : Prop :=
  forall id p, projects db !! id = Some p ->
               fundingRaised p = sum_amounts (completed_of id db).

(** The document [Investment.create] stores for a paid request. *)
Definition created (env : Env) (req : CreateRequest) (db : Db) (pr : PaymentResult)
  : Investment :=
  {| i_id := show_Z (oid db);
     i_investor := u_id (req_user req);
     i_project := params_projectId req;
     amount := body_amount req;
     paymentMethod := body_paymentMethod req;
     paymentId := Some (pr_paymentId pr);
     transactionFee := pr_fee pr;
     i_status := if String.eqb (pr_status pr) "succeeded" then is_completed
                 else match body_status req with
                      | Some s => s
                      | None => is_pending
                      end;
     createdAt := now env |}.

(** The project as [createInvestment] saves it, given the investments
    then stored. *)
Definition reconciled (id : string) (stored : list Investment) (p : Project)
  : Project :=
  let p1 := match List.filter (completed_for id) stored with
            | [] => p
            | matched => set_fundingRaised (sum_amounts matched) p
            end in
  if Z.leb (fundingGoal p1) (fundingRaised p1) then set_status ps_funded p1 else p1.

(** The two operations of the ledger and a sequence of them, each with
    the surroundings it runs in. *)
Inductive Operation :=
| Create (env : Env) (req : CreateRequest)
| Cancel (env : Env) (req : CancelRequest).

Definition perform (op : Operation) (db : Db) : Db :=
  match op with
  | Create env req => after (createInvestment env req) db
  | Cancel env req => after (cancelInvestment env req) db
  end.

Definition perform_all (ops : list Operation) (db : Db) : Db :=
  List.fold_left (fun d op => perform op d) ops db.

Definition is_create (op : Operation) : bool :=
  match op with Create _ _ => true | Cancel _ _ => false end.

(** The three refusals of [cancelInvestment]. *)
Inductive Refusal := InvestmentNotFound | NotOwnerNorAdmin | NotPending.

Inductive refuses (req : CancelRequest) (db : Db) : Refusal -> Prop :=
| refuses_missing :
    List.find (fun i => String.eqb (i_id i) (params_id req)) (investments db) = None ->
    refuses req db InvestmentNotFound
| refuses_stranger inv :
    List.find (fun i => String.eqb (i_id i) (params_id req)) (investments db) = Some inv ->
    i_investor inv <> u_id (cancel_user req) ->
    role (cancel_user req) <> admin ->
    refuses req db NotOwnerNorAdmin
| refuses_settled inv :
    List.find (fun i => String.eqb (i_id i) (params_id req)) (investments db) = Some inv ->
    (i_investor inv = u_id (cancel_user req) \/ role (cancel_user req) = admin) ->
    i_status inv <> is_pending ->
    refuses req db NotPending.

Definition refusal_error (req : CancelRequest) (r : Refusal) : ErrorResponse :=
  match r with
  | InvestmentNotFound =>
      mkError ("Investment not found with id of " ++ params_id req) 404
  | NotOwnerNorAdmin =>
      mkError ("User " ++ u_id (cancel_user req)
               ++ " is not authorized to cancel this investment") 403
  | NotPending => mkError "Only pending investments can be cancelled" 400
  end.

End Ledger.

(** ** middleware/errorHandler.js *)

Module ErrorHandler.

(** What [errorHandler] reads of the error it is given: [err.name],
    [err.code] when it is a number, [err.message], [err.statusCode] and
    the messages of [err.errors] (a Mongoose validation error's). *)
Record JsError := {
  name : string;
  code : option Z;
  e_message : string;
  e_statusCode : option Z;
  errors : list string
}.

(** An [ErrorResponse] as [next] hands it over: an [Error] with a
    status code. *)
Definition of_ErrorResponse (e : ErrorResponse) : JsError :=
  {| name := "Error"; code := None; e_message := message e;
     e_statusCode := Some (statusCode e); errors := [] |}.

(** [{ success: false, error }] *)
Record ErrorBody := { eb_success : bool; eb_error : string }.

(** [s || fallback] on a string: the empty string is falsy. *)
Definition string_or (s fallback : string) : string :=
  match s with
  | EmptyString => fallback
  | _ => s
  end.

Definition errorHandler (err : JsError) : Z * ErrorBody :=
  (* let error = { ...err }; error.message = err.message *)
  let error := (e_message err, e_statusCode err) in
  (* Mongoose bad ObjectId *)
  let error := if String.eqb (name err) "CastError"
               then ("Resource not found", Some 404) else error in
  (* Mongoose duplicate key *)
  let error := match code err with
               | Some 11000 => ("Duplicate field value entered", Some 400)
               | _ => error
               end in
  (* Mongoose validation error *)
  let error := if String.eqb (name err) "ValidationError"
               then (Js.join "," (errors err), Some 400) else error in
  (Js.number_or (snd error) 500,
   {| eb_success := false; eb_error := string_or (fst error) "Server Error" |}).

(** The HTTP status a handler's reply goes out with. *)
Definition http_status {B} (r : Reply B) : Z :=
  match r with
  | Json status _ => status
  | NextErr e => fst (errorHandler (of_ErrorResponse e))
  end.

End ErrorHandler.

(** ** utils/validators.js *)

Module Validators.

Record PasswordCheck := {
  strength : Z;
  pw_message : string;
  isValid : bool
}.

(** [regex.test(s)] for a one-character class *)
Fixpoint has_char (class : ascii -> bool) (s : string) : bool :=
  match s with
  | EmptyString => false
  | String c rest => class c || has_char class rest
  end.

Definition is_upper (c : ascii) : bool :=
  let n := nat_of_ascii c in (65 <=? n)%nat && (n <=? 90)%nat.
Definition is_lower (c : ascii) : bool :=
  let n := nat_of_ascii c in (97 <=? n)%nat && (n <=? 122)%nat.
(** [[\W_]]: not a word character, or the underscore *)
Definition is_special (c : ascii) : bool :=
  negb (Js.is_word c) || (nat_of_ascii c =? 95)%nat.

Definition bonus (b : bool) : Z := if b then 1 else 0.

(** [validatePasswordStrength(password)]; the characters of the string
    are its code units. *)
Definition validatePasswordStrength (password : string) : PasswordCheck :=
  let len := Z.of_nat (String.length password) in
  let strength :=
    0
    (* Length check *)
    + bonus (Z.leb 8 len) + bonus (Z.leb 12 len)
    (* Complexity checks *)
    + bonus (has_char is_upper password)
    + bonus (has_char is_lower password)
    + bonus (has_char Js.is_digit password)
    + bonus (has_char is_special password) in
  {| strength := strength;
     pw_message := if Z.ltb strength 3 then "Password is too weak"
                   else if Z.ltb strength 5 then "Password is moderate"
                   else "Password is strong";
     isValid := Z.leb 3 strength |}.

End Validators.

(** ** utils/formatters.js *)

Module Formatters.

Section FormatDate.

(** [dateObj.toLocaleDateString('en-US')], with and without the long
    options, and [date.toString()]: the runtime's. *)
Variable toLocaleDateString : Z -> string.
Variable toLocaleDateString_long : Z -> string.
Variable toString : Z -> string.

(** [formatDate(date, format)] for a valid date, as milliseconds since
    the epoch; [now] is [new Date()]. *)
Definition formatDate (now date : Z) (format : string) : string :=
  if String.eqb format "short" then toLocaleDateString date
  else if String.eqb format "long" then toLocaleDateString_long date
  else if String.eqb format "relative" then
    let diffTime := Z.abs (now - date) in
    let diffDays := diffTime / (1000 * 60 * 60 * 24) in
    if Z.eqb diffDays 0 then "Today"
    else if Z.eqb diffDays 1 then "Yesterday"
    else if Z.ltb diffDays 7 then show_Z diffDays ++ " days ago"
    else if Z.ltb diffDays 30 then show_Z (diffDays / 7) ++ " weeks ago"
    else if Z.ltb diffDays 365 then show_Z (diffDays / 30) ++ " months ago"
    else show_Z (diffDays / 365) ++ " years ago"
  else toString date.

End FormatDate.

End Formatters.

(** ** controllers/projectController.js: favourites *)

Module Favorites.

(** The database together with the [favoriteProjects] arrays of the
    user documents, by user [_id]; a user without a key has no array. *)
Record FavDb := {
  base : Db;
  favoriteProjects : gmap string (list string)
}.

Definition set_favorites (v : Z) (p : Project) : Project :=
  {| title := title p; description := description p; images := images p;
     owner := owner p; fundingGoal := fundingGoal p;
     fundingRaised := fundingRaised p;
     fundingDeadline := fundingDeadline p; minInvestment := minInvestment p;
     accreditedOnly := accreditedOnly p; p_status := p_status p;
     metrics := {| views := views (metrics p); favorites := v |} |}.

(** [arr.includes(id)] *)
Definition includes (id : string) (arr : list string) : bool :=
  existsb (String.eqb id) arr.

(** [addToFavorites], for the authenticated user [uid] and the route's
    project [pid] *)
Definition addToFavorites (uid pid : string) (st : FavDb) : FavDb * Reply unit :=
  match projects (base st) !! pid with
  | None => (st, NextErr (mkError ("Project not found with id of " ++ pid) 404))
  | Some project =>
      match users (base st) !! uid with
      | None =>
          (* user is null: TypeError, answered with 500 *)
          (st, NextErr (mkError
                 "Cannot read properties of null (reading 'favoriteProjects')" 500))
      | Some _ =>
          let current := favoriteProjects st !! uid in
          (* Check if already in favorites *)
          if match current with
             | Some arr => includes pid arr
             | None => false
             end
          then (st, NextErr (mkError "Project already in favorites" 400))
          else
            (* Add to user's favorites *)
            let arr := match current with Some arr => arr | None => [] end in
            let saved_user := <[uid := (arr ++ [pid])%list]> (favoriteProjects st) in
            (* Increment project favorites count *)
            let project := set_favorites (favorites (metrics project) + 1) project in
            ({| base := fst (Project_save (B := unit) pid project (base st));
                favoriteProjects := saved_user |},
             Json 200 tt)
      end
  end.

(** [removeFromFavorites] *)
Definition removeFromFavorites (uid pid : string) (st : FavDb) : FavDb * Reply unit :=
  match projects (base st) !! pid with
  | None => (st, NextErr (mkError ("Project not found with id of " ++ pid) 404))
  | Some project =>
      match users (base st) !! uid with
      | None =>
          (st, NextErr (mkError
                 "Cannot read properties of null (reading 'favoriteProjects')" 500))
      | Some _ =>
          (* Check if in favorites *)
          match favoriteProjects st !! uid with
          | None => (st, NextErr (mkError "Project not in favorites" 400))
          | Some arr =>
              if negb (includes pid arr)
              then (st, NextErr (mkError "Project not in favorites" 400))
              else
                (* Remove from user's favorites *)
                let kept := List.filter (fun id => negb (String.eqb id pid)) arr in
                let saved_user := <[uid := kept]> (favoriteProjects st) in
                (* Decrement project favorites count *)
                let project := set_favorites (favorites (metrics project) - 1) project in
                ({| base := fst (Project_save (B := unit) pid project (base st));
                    favoriteProjects := saved_user |},
                 Json 200 tt)
          end
      end
  end.

End Favorites.

(** The sample database with no favourites yet. *)
Definition fav0 : Favorites.FavDb :=
  {| Favorites.base := Samples.db0; Favorites.favoriteProjects := ∅ |}.

(** ** Reference functions the properties are stated with *)

Module Reference.

(** Every occurrence of one character replaced by another. *)
Fixpoint replace_char (a b : ascii) (s : string) : string :=
  match s with
  | EmptyString => EmptyString
  | String c rest =>
      String (if Ascii.eqb c a then b else c) (replace_char a b rest)
  end.

(** The pages [1 .. t] of a list, [l] items a page, one after the
    other. *)
Definition pages {A} (items : list A) (l : Z) (t : nat) : list A :=
  List.concat
    (List.map (fun p => Helpers.pg_data
                          (Helpers.paginateArray items (Some (Z.of_nat p)) (Some l)))
              (seq 1 t)).

End Reference.

(** ** Sequences of requests *)

Module Requests.
Import PaymentService InvestmentController ProjectController.

(** A request to one of the handlers that write to the project and
    investment collections, with the surroundings it runs in. *)
Inductive Request :=
| PostInvestment (env : Env) (req : CreateRequest)
| PutInvestmentCancel (env : Env) (req : CancelRequest)
| PutInvestment (req : UpdateRequest)
| GetProject (id : string).

(** The database after the request was served. *)
Definition serve (r : Request) (db : Db) : Db :=
  match r with
  | PostInvestment env req => after (createInvestment env req) db
  | PutInvestmentCancel env req => after (cancelInvestment env req) db
  | PutInvestment req => after (updateInvestment req) db
  | GetProject id => after (getProject id) db
  end.

Definition serve_all (rs : list Request) (db : Db) : Db :=
  List.fold_left (fun d r => serve r d) rs db.

End Requests.

(** ** Proofs *)

Section BasicFacts.

Lemma role_eqb_eq a b : role_eqb a b = true <-> a = b.
Proof. destruct a, b; simpl; split; congruence. Qed.

Lemma project_status_eqb_eq a b : project_status_eqb a b = true <-> a = b.
Proof. destruct a, b; simpl; split; congruence. Qed.

Lemma investment_status_eqb_eq a b :
  investment_status_eqb a b = true <-> a = b.
Proof. destruct a, b; simpl; split; congruence. Qed.

Lemma project_status_eqb_neq a b : project_status_eqb a b = false <-> a <> b.
Proof. destruct a, b; simpl; split; congruence. Qed.

Lemma investment_status_eqb_neq a b :
  investment_status_eqb a b = false <-> a <> b.
Proof. destruct a, b; simpl; split; congruence. Qed.

Lemma role_eqb_neq a b : role_eqb a b = false <-> a <> b.
Proof. destruct a, b; simpl; split; congruence. Qed.

End BasicFacts.

Section ProjectControllerFacts.
Import ProjectController Samples.

Lemma increment_views_frame (p : Project) :
  title (increment_views p) = title p
  /\ description (increment_views p) = description p
  /\ images (increment_views p) = images p
  /\ owner (increment_views p) = owner p
  /\ fundingGoal (increment_views p) = fundingGoal p
  /\ fundingRaised (increment_views p) = fundingRaised p
  /\ fundingDeadline (increment_views p) = fundingDeadline p
  /\ minInvestment (increment_views p) = minInvestment p
  /\ accreditedOnly (increment_views p) = accreditedOnly p
  /\ p_status (increment_views p) = p_status p
  /\ favorites (metrics (increment_views p)) = favorites (metrics p).
Proof. repeat split. Qed.

(** C10.  A successful [GET /api/projects/:id] answers 200 with the
    project and, before that, stores the project with its view counter
    raised by one: the stored document and the one sent are the loaded
    one with [metrics.views + 1] and every other field as it was; no
    other project, no user and no investment changes, and the only
    write is the save of this project. *)
Theorem getProject_increments_views (db : Db) (id : string) (p : Project) :
  projects db !! id = Some p ->
  exists view,
    getProject id db = (after (getProject id) db, inr (Json 200 view))
    /\ projects (after (getProject id) db) !! id = Some (pv_project view)
    /\ views (metrics (pv_project view)) = views (metrics p) + 1
    /\ pv_project view = increment_views p
    /\ title (pv_project view) = title p
    /\ description (pv_project view) = description p
    /\ images (pv_project view) = images p
    /\ owner (pv_project view) = owner p
    /\ fundingGoal (pv_project view) = fundingGoal p
    /\ fundingRaised (pv_project view) = fundingRaised p
    /\ fundingDeadline (pv_project view) = fundingDeadline p
    /\ minInvestment (pv_project view) = minInvestment p
    /\ accreditedOnly (pv_project view) = accreditedOnly p
    /\ p_status (pv_project view) = p_status p
    /\ favorites (metrics (pv_project view)) = favorites (metrics p)
    /\ (forall other, other <> id ->
          projects (after (getProject id) db) !! other = projects db !! other)
    /\ users (after (getProject id) db) = users db
    /\ investments (after (getProject id) db) = investments db
    /\ trace (after (getProject id) db) = (trace db ++ [EvProjectSave id])%list.
Proof.
  intros Hp.
  unfold after, getProject, bind, Project_findById, get, Project_save, respond.
  simpl. rewrite Hp. simpl.
  eexists. split; [reflexivity|]. simpl.
  split; [apply lookup_insert_eq|].
  repeat (split; [reflexivity|]).
  split; [|repeat split].
  intros other Hne. apply lookup_insert_ne. congruence.
Qed.

Lemma getProject_increments_views_witness :
  projects db0 !! "p1" = Some tower
  /\ exists view,
       getProject "p1" db0 = (after (getProject "p1") db0, inr (Json 200 view))
       /\ views (metrics (pv_project view)) = 8
       /\ projects (after (getProject "p1") db0) !! "p2" = Some vault.
Proof.
  split; [reflexivity|].
  destruct (getProject_increments_views db0 "p1" tower eq_refl)
    as (view & Hrun & _ & Hviews & Hrest).
  exists view. split; [exact Hrun|]. split; [exact Hviews|].
  destruct Hrest as (_&_&_&_&_&_&_&_&_&_&_&_& Hother & _).
  rewrite Hother; [reflexivity | discriminate].
Defined.

(** A project that does not exist is answered with 404 and nothing is
    written. *)
Lemma getProject_missing (db : Db) (id : string) :
  projects db !! id = None ->
  getProject id db
  = (db, inr (NextErr (mkError ("Project not found with id of " ++ id) 404))).
Proof.
  intros Hp. unfold getProject, bind, Project_findById, next_error.
  simpl. rewrite Hp. reflexivity.
Qed.

End ProjectControllerFacts.

Section CreateInvestmentRefusals.
Import PaymentService InvestmentController Ledger Samples.

Lemma is_accredited_spec (u : User) :
  is_accredited u = true
  <-> option_map accreditedStatus (investorProfile u) = Some "accredited".
Proof.
  unfold is_accredited. destruct (investorProfile u) as [profile|]; simpl.
  - rewrite String.eqb_eq. split; congruence.
  - split; discriminate.
Qed.

Lemma is_accredited_false (u : User) :
  option_map accreditedStatus (investorProfile u) <> Some "accredited" ->
  is_accredited u = false.
Proof.
  intros H. destruct (is_accredited u) eqn:E; [|reflexivity].
  apply is_accredited_spec in E. contradiction.
Qed.

Lemma status_check_passes (p : Project) :
  p_status p = ps_active ->
  negb (project_status_eqb (p_status p) ps_active) = false.
Proof. intros ->. reflexivity. Qed.

Lemma status_check_fails (p : Project) :
  p_status p <> ps_active ->
  negb (project_status_eqb (p_status p) ps_active) = true.
Proof.
  intros H. apply project_status_eqb_neq in H. rewrite H. reflexivity.
Qed.

Lemma fails_check_rejected env req db r :
  fails_check env req db r ->
  createInvestment env req db = (db, inr (NextErr (rejection_error req db r))).
Proof.
  intros H. unfold createInvestment, bind, Project_findById, next_error.
  destruct H as [Hp | p Hp Hs | p Hp Hs Hd | p Hp Hs Hd Hm | p Hp Hs Hd Hm Ha Hu];
    cbn beta iota zeta; rewrite Hp; cbn beta iota zeta.
  - reflexivity.
  - rewrite (status_check_fails _ Hs). reflexivity.
  - rewrite (status_check_passes _ Hs).
    apply Z.ltb_lt in Hd. rewrite Hd. reflexivity.
  - rewrite (status_check_passes _ Hs).
    apply Z.ltb_ge in Hd. rewrite Hd.
    apply Z.ltb_lt in Hm. rewrite Hm.
    unfold rejection_error. rewrite Hp. reflexivity.
  - rewrite (status_check_passes _ Hs).
    apply Z.ltb_ge in Hd. rewrite Hd.
    apply Z.ltb_ge in Hm. rewrite Hm.
    rewrite Ha, (is_accredited_false _ Hu). reflexivity.
Qed.

Lemma violates_fails_check env req db :
  violates env req db -> exists r, fails_check env req db r.
Proof.
  unfold violates.
  destruct (projects db !! params_projectId req) as [p|] eqn:Hp.
  - intros Hv.
    destruct (project_status_eqb (p_status p) ps_active) eqn:Hs.
    + apply project_status_eqb_eq in Hs.
      destruct (Z_lt_le_dec (fundingDeadline p) (now env)) as [Hd|Hd].
      * exists DeadlinePassed. eapply fails_deadline; eauto.
      * destruct (Z_lt_le_dec (body_amount req) (minInvestment p)) as [Hm|Hm].
        -- exists BelowMinimum. eapply fails_minimum; eauto.
        -- exists NotAccredited.
           destruct Hv as [Hv | [Hv | [Hv | [Ha Hu]]]]; try contradiction; try lia.
           eapply fails_accredited; eauto.
    + apply project_status_eqb_neq in Hs.
      exists ProjectNotActive. eapply fails_inactive; eauto.
  - intros _. exists ProjectNotFound. apply fails_missing. exact Hp.
Qed.

Lemma rejection_error_injective req db r1 r2 :
  rejection_error req db r1 = rejection_error req db r2 -> r1 = r2.
Proof.
  destruct r1, r2; simpl; intros H; try reflexivity; discriminate H.
Qed.

(** C2.  A call to [createInvestment] whose project does not exist, is
    not active, is past its deadline, whose amount is below the minimum,
    or whose investor lacks the accreditation an accredited-only project
    asks for is refused: the reply is the error of the first check that
    fails, in the order just given; the five errors differ from one
    another; and the database comes back as it was, so no investment is
    stored and neither the payment service nor Stripe is called. *)
Theorem createInvestment_refusals (env : Env) (req : CreateRequest) (db : Db) :
  (forall r, fails_check env req db r ->
     createInvestment env req db = (db, inr (NextErr (rejection_error req db r))))
  /\ (violates env req db ->
      exists r, fails_check env req db r
        /\ createInvestment env req db
           = (db, inr (NextErr (rejection_error req db r)))
        /\ investments (after (createInvestment env req) db) = investments db
        /\ trace (after (createInvestment env req) db) = trace db)
  /\ (forall r1 r2, rejection_error req db r1 = rejection_error req db r2 -> r1 = r2).
Proof.
  split; [|split].
  - intros r. apply fails_check_rejected.
  - intros Hv. destruct (violates_fails_check _ _ _ Hv) as [r Hr].
    exists r. split; [exact Hr|].
    unfold after. rewrite (fails_check_rejected _ _ _ _ Hr). repeat split.
  - apply rejection_error_injective.
Qed.

(** The specification's example: 50 on the project whose minimum is 100. *)
Lemma createInvestment_refusals_witness :
  fails_check card_succeeds (invest "p1" alice 50 "credit_card" None) db0 BelowMinimum
  /\ createInvestment card_succeeds (invest "p1" alice 50 "credit_card" None) db0
     = (db0, inr (NextErr (mkError "Minimum investment amount is 100" 400)))
  /\ fails_check card_succeeds (invest "p2" bob 5000 "credit_card" None) db0 NotAccredited
  /\ createInvestment card_succeeds (invest "p2" bob 5000 "credit_card" None) db0
     = (db0, inr (NextErr
          (mkError "This project is only available to accredited investors" 403))).
Proof.
  assert (H1 : fails_check card_succeeds (invest "p1" alice 50 "credit_card" None)
                 db0 BelowMinimum).
  { apply (fails_minimum _ _ _ tower); [reflexivity | reflexivity | simpl; lia | simpl; lia]. }
  assert (H2 : fails_check card_succeeds (invest "p2" bob 5000 "credit_card" None)
                 db0 NotAccredited).
  { apply (fails_accredited _ _ _ vault);
      [reflexivity | reflexivity | simpl; lia | simpl; lia | reflexivity | discriminate]. }
  split; [exact H1|]. split.
  - exact (proj1 (createInvestment_refusals card_succeeds
                    (invest "p1" alice 50 "credit_card" None) db0) _ H1).
  - split; [exact H2|].
    exact (proj1 (createInvestment_refusals card_succeeds
                    (invest "p2" bob 5000 "credit_card" None) db0) _ H2).
Defined.

End CreateInvestmentRefusals.

Section CreateInvestmentPaths.
Import PaymentService InvestmentController Ledger Samples.

Lemma eligible_checks env req p :
  eligible env req p ->
  negb (project_status_eqb (p_status p) ps_active) = false
  /\ Z.ltb (fundingDeadline p) (now env) = false
  /\ Z.ltb (body_amount req) (minInvestment p) = false
  /\ accreditedOnly p && negb (is_accredited (req_user req)) = false.
Proof.
  intros (Hs & Hd & Hm & Ha).
  split; [apply status_check_passes; exact Hs|].
  split; [apply Z.ltb_ge; exact Hd|].
  split; [apply Z.ltb_ge; exact Hm|].
  destruct (accreditedOnly p); [|reflexivity].
  rewrite (Ha eq_refl). reflexivity.
Qed.

Lemma createInvestment_payment_throws env req db p evs err :
  projects db !! params_projectId req = Some p ->
  eligible env req p ->
  processPayment env (payment_options req p) = (evs, inr err) ->
  createInvestment env req db
  = ({| projects := projects db; users := users db;
        investments := investments db; oid := oid db;
        trace := trace db ++ evs |},
     inr (NextErr (mkError ("Payment processing failed: " ++ message err) 400))).
Proof.
  intros Hp He Hpay. destruct (eligible_checks _ _ _ He) as (C1 & C2 & C3 & C4).
  unfold createInvestment, bind, Project_findById, await, next_error.
  cbn beta iota zeta. rewrite Hp. cbn beta iota zeta.
  rewrite C1, C2, C3, C4, Hpay. reflexivity.
Qed.

Lemma createInvestment_paid env req db p evs pr :
  projects db !! params_projectId req = Some p ->
  eligible env req p ->
  processPayment env (payment_options req p) = (evs, inl pr) ->
  createInvestment env req db
  = ({| projects :=
          <[params_projectId req :=
              reconciled (params_projectId req)
                (investments db ++ [created env req db pr]) p]> (projects db);
        users := users db;
        investments := investments db ++ [created env req db pr];
        oid := oid db + 1;
        trace := ((trace db ++ evs) ++ [EvInvestmentCreate (show_Z (oid db))])
                 ++ [EvProjectSave (params_projectId req)] |},
     inr (Json 201 (created env req db pr))).
Proof.
  intros Hp He Hpay. destruct (eligible_checks _ _ _ He) as (C1 & C2 & C3 & C4).
  unfold createInvestment, bind, Project_findById, await, Investment_create,
    aggregate_totalFunding, Project_save, respond.
  cbn beta iota zeta. rewrite Hp. cbn beta iota zeta.
  rewrite C1, C2, C3, C4, Hpay. cbn [fst snd projects users investments oid trace].
  unfold reconciled, created.
  destruct (String.eqb (pr_status pr) "succeeded");
    cbn [i_id];
    match goal with
    | |- context [List.filter ?f ?l] => destruct (List.filter f l)
    end; reflexivity.
Qed.

(** A reply of 201 comes from a project that exists, passes the four
    checks, and whose payment went through. *)
Lemma createInvestment_created_inv env req db db' inv :
  createInvestment env req db = (db', inr (Json 201 inv)) ->
  exists p evs pr,
    projects db !! params_projectId req = Some p
    /\ eligible env req p
    /\ processPayment env (payment_options req p) = (evs, inl pr).
Proof.
  intros Hrun.
  destruct (projects db !! params_projectId req) as [p|] eqn:Hp.
  - destruct (project_status_eqb (p_status p) ps_active) eqn:Hs.
    + apply project_status_eqb_eq in Hs.
      destruct (Z_lt_le_dec (fundingDeadline p) (now env)) as [Hd|Hd].
      { rewrite (fails_check_rejected env req db DeadlinePassed) in Hrun;
          [discriminate | eapply fails_deadline; eauto]. }
      destruct (Z_lt_le_dec (body_amount req) (minInvestment p)) as [Hm|Hm].
      { rewrite (fails_check_rejected env req db BelowMinimum) in Hrun;
          [discriminate | eapply fails_minimum; eauto]. }
      assert (He : eligible env req p).
      { repeat split; try assumption.
        intros Ha. destruct (is_accredited (req_user req)) eqn:Hu; [reflexivity|].
        rewrite (fails_check_rejected env req db NotAccredited) in Hrun;
          [discriminate |].
        eapply fails_accredited; eauto.
        intros Hacc. apply is_accredited_spec in Hacc. congruence. }
      destruct (processPayment env (payment_options req p)) as [evs [pr|err]] eqn:Hpay.
      * exists p, evs, pr. auto.
      * rewrite (createInvestment_payment_throws _ _ _ _ _ _ Hp He Hpay) in Hrun.
        discriminate.
    + apply project_status_eqb_neq in Hs.
      rewrite (fails_check_rejected env req db ProjectNotActive) in Hrun;
        [discriminate | eapply fails_inactive; eauto].
  - rewrite (fails_check_rejected env req db ProjectNotFound) in Hrun;
      [discriminate | apply fails_missing; exact Hp].
Qed.

End CreateInvestmentPaths.

Section PaymentFacts.
Import PaymentService InvestmentController Ledger Samples.

Lemma processPayment_no_write env options :
  forallb (fun e => negb (write_event e)) (fst (processPayment env options)) = true.
Proof.
  unfold processPayment.
  repeat match goal with
         | |- context [if ?b then _ else _] => destruct b
         | |- context [match ?x with _ => _ end] => destruct x
         end; reflexivity.
Qed.


Lemma processPayment_status env options evs pr :
  processPayment env options = (evs, inl pr) ->
  pr_status pr = "succeeded" \/ pr_status pr = "pending".
Proof.
  unfold processPayment.
  destruct (String.eqb (po_paymentMethod options) "credit_card").
  - destruct (po_paymentDetails options); [|discriminate].
    destruct (stripe_paymentIntents_create env) as [id status|msg]; [|discriminate].
    intros H. inversion H; subst; simpl.
    destruct (String.eqb status "succeeded"); auto.
  - repeat match goal with
           | |- context [if ?b then _ else _] => destruct b
           end; intros H; inversion H; subst; simpl; auto.
Qed.

(** C6.  When the call to the payment service throws, [createInvestment]
    answers with the payment error (400, the message of the exception
    behind [Payment processing failed: ]), stores no investment and
    leaves every project as it was: the only trace of the request is
    the call to the gateway itself. *)
Theorem createInvestment_gateway_failure env req db p evs err :
  projects db !! params_projectId req = Some p ->
  eligible env req p ->
  processPayment env (payment_options req p) = (evs, inr err) ->
  createInvestment env req db
  = (after (createInvestment env req) db,
     inr (NextErr (mkError ("Payment processing failed: " ++ message err) 400)))
  /\ investments (after (createInvestment env req) db) = investments db
  /\ projects (after (createInvestment env req) db) = projects db
  /\ trace (after (createInvestment env req) db) = (trace db ++ evs)%list
  /\ forallb (fun e => negb (write_event e)) evs = true.
Proof.
  intros Hp He Hpay. unfold after.
  rewrite (createInvestment_payment_throws _ _ _ _ _ _ Hp He Hpay). simpl.
  repeat split.
  pose proof (processPayment_no_write env (payment_options req p)) as Hw.
  rewrite Hpay in Hw. exact Hw.
Qed.

Lemma tower_eligible n method status :
  100 <= n -> eligible card_declined (invest "p1" alice n method status) tower.
Proof.
  intros Hn. repeat split; simpl; try lia; try discriminate.
Defined.

Lemma createInvestment_gateway_failure_witness :
  createInvestment card_declined (invest "p1" alice 500 "credit_card" None) db0
  = (after (createInvestment card_declined (invest "p1" alice 500 "credit_card" None)) db0,
     inr (NextErr (mkError
            "Payment processing failed: Payment failed: Your card was declined." 400)))
  /\ investments
       (after (createInvestment card_declined (invest "p1" alice 500 "credit_card" None)) db0)
     = []
  /\ projects
       (after (createInvestment card_declined (invest "p1" alice 500 "credit_card" None)) db0)
     = projects db0.
Proof.
  destruct (createInvestment_gateway_failure card_declined
              (invest "p1" alice 500 "credit_card" None) db0 tower
              [EvProcessPayment 500 "credit_card"; EvStripeCharge 51000]
              (mkError "Payment failed: Your card was declined." 400)
              eq_refl (tower_eligible 500 "credit_card" None ltac:(lia)) eq_refl)
    as (Hrun & Hinv & Hproj & _).
  split; [exact Hrun|]. split; [exact Hinv | exact Hproj].
Defined.

(** An unsupported method throws before any charge is attempted. *)
Lemma processPayment_unsupported env options :
  po_paymentMethod options = "other" ->
  processPayment env options
  = ([EvProcessPayment (po_amount options) "other"],
     inr (mkError "Unsupported payment method" 400)).
Proof. intros H. unfold processPayment. rewrite H. reflexivity. Qed.

End PaymentFacts.

Section FundingFacts.
Import PaymentService InvestmentController Ledger Samples.

Lemma sum_amounts_app (l1 l2 : list Investment) :
  sum_amounts (l1 ++ l2) = sum_amounts l1 + sum_amounts l2.
Proof.
  induction l1 as [|i l1 IH]; simpl; [reflexivity|].
  unfold sum_amounts in *. simpl. rewrite IH. lia.
Qed.

Lemma reconciled_spec (id : string) (stored : list Investment) (p : Project) :
  (List.filter (completed_for id) stored <> [] ->
     fundingRaised (reconciled id stored p)
     = sum_amounts (List.filter (completed_for id) stored))
  /\ (List.filter (completed_for id) stored = [] ->
        fundingRaised (reconciled id stored p) = fundingRaised p)
  /\ (fundingGoal p <= fundingRaised (reconciled id stored p) ->
        p_status (reconciled id stored p) = ps_funded)
  /\ (fundingRaised (reconciled id stored p) < fundingGoal p ->
        p_status (reconciled id stored p) = p_status p)
  /\ fundingGoal (reconciled id stored p) = fundingGoal p
  /\ metrics (reconciled id stored p) = metrics p.
Proof.
  unfold reconciled.
  destruct (List.filter (completed_for id) stored) as [|i rest] eqn:Hf;
    cbn zeta;
    match goal with
    | |- context [Z.leb ?a ?b] => destruct (Z.leb_spec a b) as [Hle|Hlt]
    end; simpl in *; repeat split; intros; try reflexivity; try congruence; try lia.
Qed.

Lemma completed_of_created env req db pr :
  completed_for (params_projectId req) (created env req db pr)
  = investment_status_eqb (i_status (created env req db pr)) is_completed.
Proof.
  unfold completed_for. simpl. rewrite String.eqb_refl. reflexivity.
Qed.

(** C4, as the code has it.  After a successful [createInvestment] the
    new investment is the last of the collection and the project is
    saved with [fundingRaised] equal to the sum of the amounts of its
    completed investments whenever it has one (a sum over the stored
    investments, whatever the total was before), and with the total it
    had when it has none; the project is [funded] when that total
    reaches the goal and keeps its active status otherwise.  When the
    gateway reports success on a project without completed investments
    the new one is completed and is the whole total: with goal 10000,
    minimum 100 and amount 10000 the total is 10000 and the project is
    funded. *)
Theorem createInvestment_reconciles env req db db' inv :
  createInvestment env req db = (db', inr (Json 201 inv)) ->
  exists p p' evs pr,
    projects db !! params_projectId req = Some p
    /\ projects db' !! params_projectId req = Some p'
    /\ processPayment env (payment_options req p) = (evs, inl pr)
    /\ investments db' = (investments db ++ [inv])%list
    /\ (completed_of (params_projectId req) db' <> [] ->
          fundingRaised p' = sum_amounts (completed_of (params_projectId req) db'))
    /\ (completed_of (params_projectId req) db' = [] ->
          fundingRaised p' = fundingRaised p)
    /\ (fundingGoal p <= fundingRaised p' -> p_status p' = ps_funded)
    /\ (fundingRaised p' < fundingGoal p -> p_status p' = ps_active)
    /\ (pr_status pr = "succeeded" ->
        completed_of (params_projectId req) db = [] ->
        i_status inv = is_completed
        /\ fundingRaised p' = body_amount req
        /\ (fundingGoal p = 10000 -> minInvestment p = 100 ->
            body_amount req = 10000 ->
            fundingRaised p' = 10000 /\ p_status p' = ps_funded)).
Proof.
  intros Hrun.
  destruct (createInvestment_created_inv _ _ _ _ _ Hrun) as (p & evs & pr & Hp & He & Hpay).
  rewrite (createInvestment_paid _ _ _ _ _ _ Hp He Hpay) in Hrun.
  inversion Hrun as [[Hdb Hinv]]. clear Hrun.
  set (stored := (investments db ++ [created env req db pr])%list) in *.
  set (id := params_projectId req) in *.
  exists p, (reconciled id stored p), evs, pr.
  destruct (reconciled_spec id stored p) as (R1 & R2 & R3 & R4 & R5 & _).
  split; [exact Hp|].
  split; [simpl; apply lookup_insert_eq|].
  split; [exact Hpay|].
  split; [reflexivity|].
  unfold completed_of. cbn [investments].
  split; [exact R1|]. split; [exact R2|]. split; [exact R3|].
  split.
  { intros Hlt. rewrite (R4 Hlt). destruct He as (Hs & _). exact Hs. }
  intros Hok Hnone.
  assert (Hst : i_status (created env req db pr) = is_completed).
  { unfold created. simpl. apply String.eqb_eq in Hok. rewrite Hok. reflexivity. }
  assert (Hf : List.filter (completed_for id) stored = [created env req db pr]).
  { unfold stored. rewrite List.filter_app.
    unfold completed_of in Hnone. rewrite Hnone. simpl. unfold id.
    rewrite completed_of_created, Hst. reflexivity. }
  assert (Hraised : fundingRaised (reconciled id stored p) = body_amount req).
  { rewrite R1; rewrite Hf; [|discriminate]. unfold sum_amounts. simpl. lia. }
  split; [exact Hst|]. split; [exact Hraised|].
  intros Hgoal _ Hamount. split; [lia|].
  apply R3. lia.
Qed.

(** The specification's example on the sample data. *)
Lemma createInvestment_reconciles_witness :
  exists db' inv p',
    createInvestment card_succeeds (invest "p1" alice 10000 "credit_card" None) db0
    = (db', inr (Json 201 inv))
    /\ projects db' !! "p1" = Some p'
    /\ i_status inv = is_completed
    /\ fundingRaised p' = 10000
    /\ p_status p' = ps_funded.
Proof.
  pose (run := createInvestment card_succeeds
                 (invest "p1" alice 10000 "credit_card" None) db0).
  assert (Hrun : createInvestment card_succeeds
                   (invest "p1" alice 10000 "credit_card" None) db0
                 = (fst run, inr (Json 201 (created card_succeeds
                      (invest "p1" alice 10000 "credit_card" None) db0
                      {| pr_paymentId := "pi_1"; pr_fee := fee_of 10000;
                         pr_status := "succeeded" |})))).
  { vm_compute. reflexivity. }
  destruct (createInvestment_reconciles _ _ _ _ _ Hrun)
    as (p & p' & evs & pr & Hp & Hp' & Hpay & _ & _ & _ & _ & _ & Hex).
  assert (Hp0 : Some p = Some tower) by (rewrite <- Hp; reflexivity).
  inversion Hp0. subst p.
  assert (Hpr : Some (pr_status pr) = Some "succeeded").
  { change (Some (pr_status pr))
      with (match (evs, @inl _ ErrorResponse pr) with
            | (_, inl r) => Some (pr_status r)
            | _ => None
            end).
    rewrite <- Hpay. reflexivity. }
  inversion Hpr as [Hok].
  destruct (Hex Hok eq_refl) as (Hst & _ & Hnum).
  destruct (Hnum eq_refl eq_refl eq_refl) as (Hraised & Hfunded).
  eexists _, _, p'. repeat split; eauto.
Defined.

End FundingFacts.

Section FundingCounterexamples.
Import PaymentService InvestmentController Ledger Samples.

(** C4, as the claim words it, fails.  After an administrator marked the
    only completed investment of the tower refunded, the project still
    says 500 raised; a new pending investment is accepted and the total
    stays 500 although no completed investment is left (their sum is
    0).  And on the tower with a completed investment of 500 already
    there, committing 10000 by card leaves 10500 raised, not 10000. *)
Lemma createInvestment_reconciles_counterexample :
  (exists db' inv p',
     createInvestment card_succeeds (invest "p1" bob 300 "bank_transfer" None)
       db_corrected = (db', inr (Json 201 inv))
     /\ projects db' !! "p1" = Some p'
     /\ completed_of "p1" db' = []
     /\ sum_amounts (completed_of "p1" db') = 0
     /\ fundingRaised p' = 500)
  /\ (exists db' inv p',
        createInvestment card_succeeds (invest "p1" bob 10000 "credit_card" None)
          db_paid = (db', inr (Json 201 inv))
        /\ projects db_paid !! "p1" = Some (set_fundingRaised 500 tower)
        /\ projects db' !! "p1" = Some p'
        /\ i_status inv = is_completed
        /\ fundingRaised p' = 10500).
Proof.
  split.
  - eexists _, _, _. split; [vm_compute; reflexivity|].
    split; [vm_compute; reflexivity|]. repeat split.
  - eexists _, _, _. split; [vm_compute; reflexivity|].
    split; [vm_compute; reflexivity|].
    split; [vm_compute; reflexivity|]. repeat split.
Qed.




End FundingCounterexamples.

Section CancelGuards.
Import InvestmentController.

Lemma allowed_check (inv : Investment) (u : User) :
  i_investor inv = u_id u \/ role u = admin ->
  negb (String.eqb (i_investor inv) (u_id u)) && negb (role_eqb (role u) admin)
  = false.
Proof.
  intros [H | H].
  - apply String.eqb_eq in H. rewrite H. reflexivity.
  - rewrite H. simpl. apply andb_false_r.
Qed.

Lemma stranger_check (inv : Investment) (u : User) :
  i_investor inv <> u_id u -> role u <> admin ->
  negb (String.eqb (i_investor inv) (u_id u)) && negb (role_eqb (role u) admin)
  = true.
Proof.
  intros H1 H2. apply String.eqb_neq in H1. apply role_eqb_neq in H2.
  rewrite H1, H2. reflexivity.
Qed.

End CancelGuards.

(** Runs [cancelInvestment] up to the refund, for an investment that is
    found, may be cancelled by the requester and is pending. *)
Ltac past_guards Hf Ha Hs :=
  unfold InvestmentController.cancelInvestment, bind, Investment_findById,
    next_error, await, InvestmentController.Investment_save, Project_findById,
    Project_save, respond;
  cbn beta iota zeta; rewrite Hf; cbn beta iota zeta;
  rewrite (allowed_check _ _ Ha), Hs; cbn beta iota zeta.

Section CancelInvestmentFacts.
Import PaymentService InvestmentController Ledger Samples.

Lemma refuses_rejected env req db r :
  refuses req db r ->
  cancelInvestment env req db = (db, inr (NextErr (refusal_error req r))).
Proof.
  intros H. unfold cancelInvestment, bind, Investment_findById, next_error.
  destruct H as [Hf | inv Hf Hi Hr | inv Hf Ha Hs];
    cbn beta iota zeta; rewrite Hf; cbn beta iota zeta.
  - reflexivity.
  - rewrite (stranger_check _ _ Hi Hr). reflexivity.
  - rewrite (allowed_check _ _ Ha).
    apply investment_status_eqb_neq in Hs. rewrite Hs. reflexivity.
Qed.

(** The first thing [processRefund] does is to be called, with the
    payment identifier and the amount it was given; it writes nothing. *)
Lemma processRefund_events env pid amt :
  exists rest,
    fst (processRefund env pid amt) = EvProcessRefund pid amt :: rest
    /\ forallb (fun e => negb (write_event e)) rest = true.
Proof.
  unfold processRefund.
  repeat match goal with
         | |- context [if ?b then _ else _] => destruct b
         | |- context [match ?x with _ => _ end] => destruct x
         end; eexists; split; reflexivity.
Qed.

Lemma cancelInvestment_refund_throws env req db inv pid evs err :
  List.find (fun i => String.eqb (i_id i) (params_id req)) (investments db) = Some inv ->
  i_investor inv = u_id (cancel_user req) \/ role (cancel_user req) = admin ->
  i_status inv = is_pending ->
  truthy (paymentId inv) = Some pid ->
  processRefund env pid (amount inv) = (evs, inr err) ->
  cancelInvestment env req db
  = ({| projects := projects db; users := users db;
        investments := investments db; oid := oid db;
        trace := trace db ++ evs |},
     inr (NextErr (mkError ("Refund processing failed: " ++ message err) 400))).
Proof.
  intros Hf Ha Hs Ht Hr.
  unfold cancelInvestment, bind, Investment_findById, next_error, await.
  cbn beta iota zeta. rewrite Hf. cbn beta iota zeta.
  rewrite (allowed_check _ _ Ha), Hs. cbn beta iota zeta.
  rewrite Ht, Hr. reflexivity.
Qed.

(** What a cancellation that got past the guards and the refund leaves
    behind. *)
Lemma cancelInvestment_done env req db inv p :
  List.find (fun i => String.eqb (i_id i) (params_id req)) (investments db) = Some inv ->
  i_investor inv = u_id (cancel_user req) \/ role (cancel_user req) = admin ->
  i_status inv = is_pending ->
  (forall pid, truthy (paymentId inv) = Some pid ->
     exists ok, snd (processRefund env pid (amount inv)) = inl ok) ->
  projects db !! i_project inv = Some p ->
  snd (cancelInvestment env req db)
  = inr (Json 200 (set_investment_status is_cancelled inv))
  /\ projects (after (cancelInvestment env req) db) !! i_project inv
     = Some (set_fundingRaised (fundingRaised p - amount inv) p)
  /\ investments (after (cancelInvestment env req) db)
     = List.map (fun i => if String.eqb (i_id i) (i_id inv)
                          then set_investment_status is_cancelled inv else i)
                (investments db).
Proof.
  intros Hf Ha Hs Hrefund Hp.
  unfold after. past_guards Hf Ha Hs.
  destruct (truthy (paymentId inv)) as [pid|] eqn:Ht.
  - destruct (Hrefund pid eq_refl) as [ok Hok].
    destruct (processRefund env pid (amount inv)) as [evs res].
    simpl in Hok. subst res. cbn. rewrite Hp. cbn.
    split; [reflexivity|]. split; [apply lookup_insert_eq | reflexivity].
  - cbn. rewrite Hp. cbn.
    split; [reflexivity|]. split; [apply lookup_insert_eq | reflexivity].
Qed.

(** C3.  [cancelInvestment] fails, leaving the database as it was, when
    the investment is not found (404), when the requester is neither its
    investor nor an administrator (403), and when its status is not
    pending (400).  Past these guards, an investment with a payment
    identifier has its refund requested from the payment service for the
    full amount before anything else happens: the request is the first
    new entry of the trace, ahead of every write.  If the refund throws,
    the reply is the refund error and no collection changes: the
    investment is found again as it was, pending. *)
Theorem cancelInvestment_guards (env : Env) (req : CancelRequest) (db : Db) :
  (forall r, refuses req db r ->
     cancelInvestment env req db = (db, inr (NextErr (refusal_error req r))))
  /\ (forall inv pid,
        List.find (fun i => String.eqb (i_id i) (params_id req)) (investments db)
          = Some inv ->
        i_investor inv = u_id (cancel_user req) \/ role (cancel_user req) = admin ->
        i_status inv = is_pending ->
        truthy (paymentId inv) = Some pid ->
        (exists rest,
           trace (after (cancelInvestment env req) db)
           = (trace db ++ EvProcessRefund pid (amount inv) :: rest)%list)
        /\ (forall evs err,
              processRefund env pid (amount inv) = (evs, inr err) ->
              cancelInvestment env req db
              = (after (cancelInvestment env req) db,
                 inr (NextErr (mkError ("Refund processing failed: " ++ message err) 400)))
              /\ investments (after (cancelInvestment env req) db) = investments db
              /\ projects (after (cancelInvestment env req) db) = projects db
              /\ List.find (fun i => String.eqb (i_id i) (params_id req))
                   (investments (after (cancelInvestment env req) db)) = Some inv
              /\ forallb (fun e => negb (write_event e)) evs = true)).
Proof.
  split.
  - intros r. apply refuses_rejected.
  - intros inv pid Hf Ha Hs Ht. split.
    + destruct (processRefund_events env pid (amount inv)) as (rest & Hev & _).
      unfold after. past_guards Hf Ha Hs. rewrite Ht.
      destruct (processRefund env pid (amount inv)) as [evs [ok|err]];
        simpl in Hev; subst evs; cbn.
      * destruct (projects db !! i_project inv); cbn;
          eexists; rewrite <- !app_assoc; simpl; reflexivity.
      * eexists. reflexivity.
    + intros evs err Hr. unfold after.
      rewrite (cancelInvestment_refund_throws _ _ _ _ _ _ _ Hf Ha Hs Ht Hr). simpl.
      repeat split; try assumption.
      destruct (processRefund_events env pid (amount inv)) as (rest & Hev & Hw).
      rewrite Hr in Hev. simpl in Hev. subst evs. simpl. exact Hw.
Qed.

Lemma cancel_dichotomy (req : CancelRequest) (db : Db) :
  (exists r, refuses req db r)
  \/ (exists inv,
        List.find (fun i => String.eqb (i_id i) (params_id req)) (investments db)
          = Some inv
        /\ (i_investor inv = u_id (cancel_user req) \/ role (cancel_user req) = admin)
        /\ i_status inv = is_pending).
Proof.
  destruct (List.find (fun i => String.eqb (i_id i) (params_id req)) (investments db))
    as [inv|] eqn:Hf; [|left; exists InvestmentNotFound; apply refuses_missing; exact Hf].
  destruct (String.eqb_spec (i_investor inv) (u_id (cancel_user req))) as [Ho|Ho].
  - destruct (investment_status_eqb (i_status inv) is_pending) eqn:Hs.
    + apply investment_status_eqb_eq in Hs. right. exists inv. auto.
    + apply investment_status_eqb_neq in Hs. left. exists NotPending.
      eapply refuses_settled; eauto.
  - destruct (role_eqb (role (cancel_user req)) admin) eqn:Hr.
    + apply role_eqb_eq in Hr.
      destruct (investment_status_eqb (i_status inv) is_pending) eqn:Hs.
      * apply investment_status_eqb_eq in Hs. right. exists inv. auto.
      * apply investment_status_eqb_neq in Hs. left. exists NotPending.
        eapply refuses_settled; eauto.
    + apply role_eqb_neq in Hr. left. exists NotOwnerNorAdmin.
      eapply refuses_stranger; eauto.
Qed.

(** A reply of 200 comes from a pending investment of an existing
    project, cancelled by its investor or an administrator; the project
    is saved with the amount taken off its total. *)
Lemma cancelInvestment_cancelled_inv env req db db' inv' :
  cancelInvestment env req db = (db', inr (Json 200 inv')) ->
  exists inv p,
    List.find (fun i => String.eqb (i_id i) (params_id req)) (investments db) = Some inv
    /\ i_status inv = is_pending
    /\ inv' = set_investment_status is_cancelled inv
    /\ projects db !! i_project inv = Some p
    /\ projects db' !! i_project inv
       = Some (set_fundingRaised (fundingRaised p - amount inv) p)
    /\ investments db'
       = List.map (fun i => if String.eqb (i_id i) (i_id inv)
                            then set_investment_status is_cancelled inv else i)
                  (investments db).
Proof.
  intros Hrun.
  destruct (cancel_dichotomy req db) as [[r Hr] | (inv & Hf & Ha & Hs)].
  { rewrite (refuses_rejected env _ _ _ Hr) in Hrun. discriminate. }
  revert Hrun.
  past_guards Hf Ha Hs.
  destruct (truthy (paymentId inv)) as [pid|].
  - destruct (processRefund env pid (amount inv)) as [evs [ok|err]]; cbn;
      [|discriminate].
    destruct (projects db !! i_project inv) as [p|] eqn:Hp; cbn; [|discriminate].
    intros H. inversion H. subst. exists inv, p.
    repeat split; auto. cbn. apply lookup_insert_eq.
  - cbn. destruct (projects db !! i_project inv) as [p|] eqn:Hp; cbn; [|discriminate].
    intros H. inversion H. subst. exists inv, p.
    repeat split; auto. cbn. apply lookup_insert_eq.
Qed.

Lemma completed_unchanged_by_cancel (id : string) (inv : Investment)
    (stored : list Investment) :
  i_status inv = is_pending ->
  (forall i, In i stored -> i_id i = i_id inv -> i = inv) ->
  List.filter (completed_for id)
    (List.map (fun i => if String.eqb (i_id i) (i_id inv)
                        then set_investment_status is_cancelled inv else i) stored)
  = List.filter (completed_for id) stored.
Proof.
  intros Hs Huniq.
  induction stored as [|x rest IH]; [reflexivity|].
  cbn [List.map List.filter].
  rewrite IH by (intros i Hi; apply Huniq; right; exact Hi).
  destruct (String.eqb_spec (i_id x) (i_id inv)) as [Heq|Hne]; [|reflexivity].
  rewrite (Huniq x (or_introl eq_refl) Heq).
  unfold completed_for. cbn. rewrite Hs. cbn.
  rewrite !andb_false_r. reflexivity.
Qed.

(** X2.  Every successful cancellation leaves the project's total at
    the sum of its completed investments less the cancelled amount, when
    the two agreed before and identifiers name one investment each. *)
Lemma cancelInvestment_drifts env req db db' inv' :
  ledger_consistent db ->
  (forall i j, In i (investments db) -> In j (investments db) ->
               i_id i = i_id j -> i = j) ->
  cancelInvestment env req db = (db', inr (Json 200 inv')) ->
  exists p',
    projects db' !! i_project inv' = Some p'
    /\ fundingRaised p'
       = sum_amounts (completed_of (i_project inv') db') - amount inv'.
Proof.
  intros Hledger Huniq Hrun.
  destruct (cancelInvestment_cancelled_inv _ _ _ _ _ Hrun)
    as (inv & p & Hf & Hs & -> & Hp & Hp' & Hinvs).
  exists (set_fundingRaised (fundingRaised p - amount inv) p).
  split; [exact Hp'|]. cbn.
  unfold completed_of. rewrite Hinvs.
  rewrite completed_unchanged_by_cancel.
  - rewrite (Hledger _ _ Hp). reflexivity.
  - exact Hs.
  - intros i Hi Hid. apply Huniq; [exact Hi | | exact Hid].
    apply List.find_some in Hf. apply Hf.
Qed.

End CancelInvestmentFacts.

Section CancelInvestmentExamples.
Import PaymentService InvestmentController Ledger Samples.

(** On the sample data: a completed investment cannot be cancelled, a
    stranger cannot cancel, and a refund Stripe refuses leaves the
    pending investment pending. *)
Lemma cancelInvestment_guards_witness :
  cancelInvestment card_succeeds (cancel "1" alice) db_paid
  = (db_paid, inr (NextErr (mkError "Only pending investments can be cancelled" 400)))
  /\ cancelInvestment card_succeeds (cancel "1" bob) db_processing
     = (db_processing,
        inr (NextErr (mkError "User u2 is not authorized to cancel this investment" 403)))
  /\ cancelInvestment card_declined (cancel "1" alice) db_processing
     = (after (cancelInvestment card_declined (cancel "1" alice)) db_processing,
        inr (NextErr (mkError
               "Refund processing failed: Refund failed: No such payment_intent" 400)))
  /\ option_map i_status
       (List.find (fun i => String.eqb (i_id i) "1")
          (investments (after (cancelInvestment card_declined (cancel "1" alice))
                          db_processing)))
     = Some is_pending.
Proof.
  pose (inv := {| i_id := "1"; i_investor := "u1"; i_project := "p1"; amount := 500;
                  paymentMethod := "credit_card"; paymentId := Some "pi_2";
                  transactionFee := fee_of 500; i_status := is_pending;
                  createdAt := 1000 |}).
  assert (Hfound : List.find (fun i => String.eqb (i_id i) "1") (investments db_processing)
                   = Some inv) by reflexivity.
  split.
  { apply (proj1 (cancelInvestment_guards card_succeeds (cancel "1" alice) db_paid)
             NotPending).
    eapply refuses_settled; [reflexivity | left; reflexivity | discriminate]. }
  split.
  { apply (proj1 (cancelInvestment_guards card_succeeds (cancel "1" bob) db_processing)
             NotOwnerNorAdmin).
    eapply refuses_stranger; [reflexivity | discriminate | discriminate]. }
  destruct (proj2 (cancelInvestment_guards card_declined (cancel "1" alice) db_processing)
              inv "pi_2" Hfound (or_introl eq_refl) eq_refl eq_refl) as (_ & Hthrow).
  destruct (Hthrow [EvProcessRefund "pi_2" 500; EvStripeRefund "pi_2" 50000]
              (mkError "Refund failed: No such payment_intent" 400) eq_refl)
    as (Hrun & _ & _ & Hagain & _).
  split; [exact Hrun|].
  change "1" with (params_id (cancel "1" alice)) at 1.
  rewrite Hagain. reflexivity.
Defined.

(** C1 fails on the code.  From a consistent ledger (the tower has
    nothing raised and no investment), the sequence "create a pending
    bank transfer of 500, then cancel it as its investor" runs through:
    both calls succeed, no investment of the project is completed, and
    the project is left with -500 raised. *)
Theorem cancelInvestment_breaks_ledger :
  ledger_consistent db0
  /\ exists inv inv' p,
       snd (createInvestment card_succeeds
              (invest "p1" alice 500 "bank_transfer" None) db0)
       = inr (Json 201 inv)
       /\ i_status inv = is_pending
       /\ snd (cancelInvestment card_succeeds (cancel (i_id inv) alice)
                 (perform (Create card_succeeds
                             (invest "p1" alice 500 "bank_transfer" None)) db0))
          = inr (Json 200 inv')
       /\ i_status inv' = is_cancelled
       /\ projects
            (perform_all
               [Create card_succeeds (invest "p1" alice 500 "bank_transfer" None);
                Cancel card_succeeds (cancel "1" alice)] db0) !! "p1" = Some p
       /\ completed_of "p1"
            (perform_all
               [Create card_succeeds (invest "p1" alice 500 "bank_transfer" None);
                Cancel card_succeeds (cancel "1" alice)] db0) = []
       /\ fundingRaised p = -500.
Proof.
  split.
  - intros id p Hp. unfold completed_of. simpl.
    unfold db0 in Hp. simpl in Hp.
    destruct (decide (id = "p1")) as [->|Hne1].
    + rewrite lookup_insert_eq in Hp. inversion Hp. reflexivity.
    + rewrite lookup_insert_ne in Hp by congruence.
      destruct (decide (id = "p2")) as [->|Hne2].
      * rewrite lookup_insert_eq in Hp. inversion Hp. reflexivity.
      * rewrite lookup_insert_ne in Hp by congruence.
        rewrite lookup_empty in Hp. discriminate.
  - eexists _, _, _.
    split; [vm_compute; reflexivity|].
    split; [reflexivity|].
    split; [vm_compute; reflexivity|].
    split; [reflexivity|].
    split; [vm_compute; reflexivity|].
    split; [vm_compute; reflexivity | reflexivity].
Qed.

End CancelInvestmentExamples.

Section LedgerPreservation.
Import PaymentService InvestmentController Ledger Samples.

Lemma checks_dichotomy env req db :
  (exists r, fails_check env req db r)
  \/ (exists p, projects db !! params_projectId req = Some p /\ eligible env req p).
Proof.
  destruct (projects db !! params_projectId req) as [p|] eqn:Hp;
    [|left; exists ProjectNotFound; apply fails_missing; exact Hp].
  destruct (project_status_eqb (p_status p) ps_active) eqn:Hs;
    [apply project_status_eqb_eq in Hs
    |apply project_status_eqb_neq in Hs; left; exists ProjectNotActive;
     eapply fails_inactive; eauto].
  destruct (Z_lt_le_dec (fundingDeadline p) (now env)) as [Hd|Hd];
    [left; exists DeadlinePassed; eapply fails_deadline; eauto|].
  destruct (Z_lt_le_dec (body_amount req) (minInvestment p)) as [Hm|Hm];
    [left; exists BelowMinimum; eapply fails_minimum; eauto|].
  destruct (accreditedOnly p) eqn:Ha.
  - destruct (is_accredited (req_user req)) eqn:Hu.
    + right. exists p. repeat split; auto.
    + left. exists NotAccredited. eapply fails_accredited; eauto.
      intros Hacc. apply is_accredited_spec in Hacc. congruence.
  - right. exists p. repeat split; auto. rewrite Ha. discriminate.
Qed.

Lemma completed_of_other env req db pr (id : string) :
  id <> params_projectId req ->
  List.filter (completed_for id) (investments db ++ [created env req db pr])
  = completed_of id db.
Proof.
  intros Hne. rewrite List.filter_app. simpl.
  unfold completed_for at 2. simpl.
  assert (H : String.eqb (params_projectId req) id = false)
    by (apply String.eqb_neq; congruence).
  rewrite H. simpl. apply app_nil_r.
Qed.

(** [createInvestment] keeps the ledger: when every project's total is
    the sum of its completed investments before the call, it is so
    after it, whatever the outcome. *)
Lemma createInvestment_keeps_ledger env req db :
  ledger_consistent db ->
  ledger_consistent (after (createInvestment env req) db).
Proof.
  intros Hledger. unfold after.
  destruct (checks_dichotomy env req db) as [[r Hr] | (p & Hp & He)].
  { rewrite (fails_check_rejected _ _ _ _ Hr). exact Hledger. }
  destruct (processPayment env (payment_options req p)) as [evs [pr|err]] eqn:Hpay.
  - rewrite (createInvestment_paid _ _ _ _ _ _ Hp He Hpay). simpl.
    intros id q Hq. unfold completed_of. simpl in *.
    destruct (decide (id = params_projectId req)) as [->|Hne].
    + rewrite lookup_insert_eq in Hq. inversion Hq. subst q. clear Hq.
      destruct (reconciled_spec (params_projectId req)
                  (investments db ++ [created env req db pr]) p)
        as (R1 & R2 & _).
      destruct (List.filter (completed_for (params_projectId req))
                  (investments db ++ [created env req db pr])) as [|i rest] eqn:Hf.
      * rewrite (R2 eq_refl). rewrite (Hledger _ _ Hp).
        rewrite List.filter_app in Hf. apply app_eq_nil in Hf.
        unfold completed_of. rewrite (proj1 Hf). reflexivity.
      * apply R1. discriminate.
    + rewrite lookup_insert_ne in Hq by congruence.
      rewrite (completed_of_other env req db pr id Hne).
      apply Hledger. exact Hq.
  - rewrite (createInvestment_payment_throws _ _ _ _ _ _ Hp He Hpay). simpl.
    intros id q Hq. apply (Hledger id q Hq).
Qed.

(** X1.  A sequence of creations alone keeps the ledger: when every
    project's total is the sum of its completed investments before, it
    is so after every [createInvestment] of the sequence, whatever their
    outcomes. *)
Lemma creations_keep_ledger (ops : list Operation) (db : Db) :
  forallb is_create ops = true ->
  ledger_consistent db ->
  ledger_consistent (perform_all ops db).
Proof.
  revert db. induction ops as [|op ops IH]; intros db Hops Hledger; [exact Hledger|].
  simpl in Hops. apply andb_true_iff in Hops. destruct Hops as [Hop Hops].
  unfold perform_all. simpl. apply IH; [exact Hops|].
  destruct op as [env req|env req]; [|discriminate].
  apply createInvestment_keeps_ledger. exact Hledger.
Qed.

Lemma map_moves {A} (f : A -> A) (x : A) (l : list A) :
  In x l -> f x <> x -> List.map f l <> l.
Proof.
  induction l as [|y rest IH]; intros Hin Hfx Heq; [contradiction|].
  simpl in Heq. inversion Heq as [[Hy Hrest]].
  destruct Hin as [->|Hin]; [contradiction|].
  apply (IH Hin Hfx Hrest).
Qed.

Lemma snoc_moves {A} (x : A) (l : list A) : (l ++ [x])%list <> l.
Proof.
  intros Heq. apply (f_equal (@length A)) in Heq.
  rewrite length_app in Heq. simpl in Heq. lia.
Qed.

(** The second half of C1 holds: an operation that changes the project
    collection, and so any [fundingRaised], also creates an investment or
    changes the status of one. *)
Lemma funding_moves_with_investments (op : Operation) (db : Db) :
  projects (perform op db) <> projects db ->
  investments (perform op db) <> investments db.
Proof.
  destruct op as [env req|env req]; unfold perform, after.
  - destruct (checks_dichotomy env req db) as [[r Hr] | (p & Hp & He)].
    { rewrite (fails_check_rejected _ _ _ _ Hr). simpl. intros H. contradiction. }
    destruct (processPayment env (payment_options req p)) as [evs [pr|err]] eqn:Hpay.
    + rewrite (createInvestment_paid _ _ _ _ _ _ Hp He Hpay). simpl.
      intros _. apply snoc_moves.
    + rewrite (createInvestment_payment_throws _ _ _ _ _ _ Hp He Hpay). simpl.
      intros H. contradiction.
  - destruct (cancel_dichotomy req db) as [[r Hr] | (inv & Hf & Ha & Hs)].
    { rewrite (refuses_rejected env _ _ _ Hr). simpl. intros H. contradiction. }
    assert (Hmoves :
              List.map (fun i => if String.eqb (i_id i) (i_id inv)
                                 then set_investment_status is_cancelled inv else i)
                       (investments db) <> investments db).
    { apply (map_moves _ inv).
      - apply List.find_some in Hf. apply Hf.
      - rewrite String.eqb_refl. intros Heq.
        apply (f_equal i_status) in Heq. simpl in Heq. congruence. }
    past_guards Hf Ha Hs.
    destruct (truthy (paymentId inv)) as [pid|].
    + destruct (processRefund env pid (amount inv)) as [evs [ok|err]]; cbn.
      * destruct (projects db !! i_project inv); cbn; intros _; exact Hmoves.
      * intros H. contradiction.
    + cbn. destruct (projects db !! i_project inv); cbn; intros _; exact Hmoves.
Qed.

End LedgerPreservation.

Section AccessControl.
Import Auth Samples.

Variable jwt_verify : string -> string -> JwtAnswer.
Variable JWT_SECRET : string.

Lemma role_allowed (roles : list UserRole) (r : UserRole) :
  existsb (role_eqb r) roles = true <-> In r roles.
Proof.
  rewrite existsb_exists. split.
  - intros (x & Hin & Heq). apply role_eqb_eq in Heq. subst. exact Hin.
  - intros Hin. exists r. split; [exact Hin | apply role_eqb_eq; reflexivity].
Qed.

Lemma role_refused (roles : list UserRole) (r : UserRole) :
  ~ In r roles -> existsb (role_eqb r) roles = false.
Proof.
  intros Hn. destruct (existsb (role_eqb r) roles) eqn:E; [|reflexivity].
  apply role_allowed in E. contradiction.
Qed.

Lemma protect_passes_inv {B} (req : Request) (db db' : Db) (u : User) :
  protect (B := B) jwt_verify JWT_SECRET req db = (db', inl u) ->
  exists token id,
    bearer_token req = Some token
    /\ jwt_verify token JWT_SECRET = Decoded id
    /\ users db !! id = Some u
    /\ db' = db.
Proof.
  unfold protect.
  destruct (bearer_token req) as [token|]; [|discriminate].
  destruct (jwt_verify token JWT_SECRET) as [id|name] eqn:Hv; [|discriminate].
  unfold bind, User_findById, ret, next_error. simpl.
  destruct (users db !! id) as [user|] eqn:Hu; [|discriminate].
  intros H. inversion H. subst. exists token, id. auto.
Qed.

Lemma protect_passes {B} (req : Request) (db : Db) token id (u : User) :
  bearer_token req = Some token ->
  jwt_verify token JWT_SECRET = Decoded id ->
  users db !! id = Some u ->
  protect (B := B) jwt_verify JWT_SECRET req db = (db, inl u).
Proof.
  intros Ht Hv Hu. unfold protect. rewrite Ht, Hv.
  unfold bind, User_findById, ret. simpl. rewrite Hu. reflexivity.
Qed.

(** A token that verifies for a user who is gone is answered with 404,
    neither of the two errors of the claim. *)
Lemma protect_user_gone {B} (req : Request) (db : Db) token id :
  bearer_token req = Some token ->
  jwt_verify token JWT_SECRET = Decoded id ->
  users db !! id = None ->
  protect (B := B) jwt_verify JWT_SECRET req db
  = (db, inr (NextErr (mkError "User not found" 404))).
Proof.
  intros Ht Hv Hu. unfold protect. rewrite Ht, Hv.
  unfold bind, User_findById, next_error. simpl. rewrite Hu. reflexivity.
Qed.

(** C9.  Behind [protect] and [authorize(...roles)] the handler runs
    only for a request whose bearer token verifies against the signing
    secret and names a stored user, and then only when the user's role
    is in the list.  A request without a bearer token, or with one
    [jwt.verify] throws on (invalid or expired), is answered with the
    authentication error 401; a verified user whose role is not in the
    list is answered with the authorization error 403; the two status
    codes differ, and none of these replies touches the database. *)
Theorem protected_route_access {B} (roles : list UserRole)
    (handler : User -> Handler B unit) (req : Request) (db : Db) :
  (forall db' u,
     protect (B := B) jwt_verify JWT_SECRET req db = (db', inl u) ->
     exists token id,
       bearer_token req = Some token
       /\ jwt_verify token JWT_SECRET = Decoded id
       /\ users db !! id = Some u /\ db' = db)
  /\ (forall token id u,
        bearer_token req = Some token ->
        jwt_verify token JWT_SECRET = Decoded id ->
        users db !! id = Some u ->
        In (role u) roles ->
        protected_route jwt_verify JWT_SECRET roles handler req db = handler u db)
  /\ (bearer_token req = None ->
        protected_route jwt_verify JWT_SECRET roles handler req db
        = (db, inr (NextErr (mkError "Not authorized to access this route" 401))))
  /\ (forall token name,
        bearer_token req = Some token ->
        jwt_verify token JWT_SECRET = JwtThrows name ->
        protected_route jwt_verify JWT_SECRET roles handler req db
        = (db, inr (NextErr (mkError "Not authorized to access this route" 401))))
  /\ (forall token id u,
        bearer_token req = Some token ->
        jwt_verify token JWT_SECRET = Decoded id ->
        users db !! id = Some u ->
        ~ In (role u) roles ->
        protected_route jwt_verify JWT_SECRET roles handler req db
        = (db, inr (NextErr (mkError
                 ("User role " ++ role_name (role u)
                  ++ " is not authorized to access this route") 403))))
  /\ (401 <> 403)%Z.
Proof.
  split; [intros db' u; apply protect_passes_inv|].
  split.
  { intros token id u Ht Hv Hu Hin.
    unfold protected_route, bind.
    rewrite (protect_passes req db token id u Ht Hv Hu).
    unfold authorize. apply role_allowed in Hin. rewrite Hin. reflexivity. }
  split.
  { intros Ht. unfold protected_route, bind, protect. rewrite Ht. reflexivity. }
  split.
  { intros token name Ht Hv. unfold protected_route, bind, protect.
    rewrite Ht, Hv. reflexivity. }
  split; [|discriminate].
  intros token id u Ht Hv Hu Hout.
  unfold protected_route, bind.
  rewrite (protect_passes req db token id u Ht Hv Hu).
  unfold authorize. rewrite (role_refused _ _ Hout). reflexivity.
Qed.

End AccessControl.

Section AccessControlExamples.
Import Auth Samples.

(** The role check of project creation ([authorize('admin', 'manager')])
    on the sample data: the manager reaches the handler, the investor
    gets 403, an expired token and a missing header get 401. *)
Lemma protected_route_access_witness :
  protected_route sample_verify "s3cret" [admin; manager]
    (fun u => respond 201 (u_id u)) (bearer "tok-mona") db0
  = (db0, inr (Json 201 "u3"))
  /\ protected_route sample_verify "s3cret" [admin; manager]
       (fun u => respond 201 (u_id u)) (bearer "tok-alice") db0
     = (db0, inr (NextErr (mkError
               "User role investor is not authorized to access this route" 403)))
  /\ protected_route sample_verify "s3cret" [admin; manager]
       (fun u => respond 201 (u_id u)) (bearer "tok-old") db0
     = (db0, inr (NextErr (mkError "Not authorized to access this route" 401)))
  /\ protected_route sample_verify "s3cret" [admin; manager]
       (fun u => respond 201 (u_id u)) {| authorization := None |} db0
     = (db0, inr (NextErr (mkError "Not authorized to access this route" 401))).
Proof.
  pose (handler := fun u : User => @respond string unit 201 (u_id u)).
  destruct (protected_route_access sample_verify "s3cret" [admin; manager]
              handler (bearer "tok-mona") db0) as (_ & Hpass & _).
  destruct (protected_route_access sample_verify "s3cret" [admin; manager]
              handler (bearer "tok-alice") db0) as (_ & _ & _ & _ & Hrole & _).
  destruct (protected_route_access sample_verify "s3cret" [admin; manager]
              handler (bearer "tok-old") db0) as (_ & _ & _ & Hold & _).
  destruct (protected_route_access sample_verify "s3cret" [admin; manager]
              handler {| authorization := None |} db0) as (_ & _ & Hnone & _).
  split.
  { apply (Hpass "tok-mona" "u3" mona); [reflexivity | reflexivity | reflexivity |].
    simpl. tauto. }
  split.
  { apply (Hrole "tok-alice" "u1" alice); [reflexivity | reflexivity | reflexivity |].
    simpl. intros [H | [H | []]]; discriminate H. }
  split.
  { apply (Hold "tok-old" "TokenExpiredError"); reflexivity. }
  apply Hnone. reflexivity.
Defined.

End AccessControlExamples.

Section PaginationFacts.
Import AdvancedResults Helpers.

Variable Doc : Type.
Variable collection : list Doc.
Variable refusal : string -> option string -> string -> option string.
Variable matches : string -> Doc -> bool.
Variable select_fields : string -> Doc -> Doc.
Variable before : string -> Doc -> Doc -> bool.
Variable populate : Doc -> Doc.




Lemma ceil_div_spec (n l : Z) :
  0 <= n -> 1 <= l ->
  exists t, Js.ceil_div n l = Js.Num t
            /\ (t - 1) * l < n <= t * l
            /\ t = (n + l - 1) / l.
Proof.
  intros Hn Hl. unfold Js.ceil_div.
  destruct (Z.eqb_spec l 0) as [->|_]; [lia|].
  exists (- (- n / l)). split; [reflexivity|].
  split; Z.div_mod_to_equations; nia.
Qed.



End PaginationFacts.

Section PaginationExamples.
Import AdvancedResults Helpers.



End PaginationExamples.

Section QueryBuilderFacts.
Import AdvancedResults.

Lemma append_cons (c : ascii) (a b : string) : String c a ++ b = String c (a ++ b).
Proof. reflexivity. Qed.

Lemma append_empty_r (a : string) : a ++ EmptyString = a.
Proof.
  induction a as [|x a IH]; [reflexivity|]. rewrite append_cons, IH. reflexivity.
Qed.

Lemma append_step (a : string) (c : ascii) (b : string) :
  (a ++ String c EmptyString) ++ b = a ++ String c b.
Proof.
  induction a as [|x a IH]; [reflexivity|]. rewrite !append_cons, IH. reflexivity.
Qed.

Lemma flush_word_plain (word : string) : flush_word operator_callback word = word.
Proof. unfold flush_word, operator_callback. destruct (existsb _ _); reflexivity. Qed.

Lemma replace_from_plain (s word : string) :
  replace_from operator_callback word s = word ++ s.
Proof.
  revert word. induction s as [|c rest IH]; intros word; cbn [replace_from].
  - rewrite flush_word_plain, append_empty_r. reflexivity.
  - destruct (Js.is_word c).
    + rewrite IH. apply append_step.
    + rewrite flush_word_plain, IH. reflexivity.
Qed.

(** The replacement of the source changes nothing: its callback hands
    every match back as it is. *)
Lemma replace_operators_plain (s : string) :
  replace_operators operator_callback s = s.
Proof. unfold replace_operators. apply replace_from_plain. Qed.

(** X16.  [select], [sort], [page] and [limit] never reach the filter;
    every other parameter does, with its value. *)
Lemma remove_excluded_spec (q : Query) (key : string) (v : QValue) :
  In (key, v) (remove_excluded q)
  <-> In (key, v) q /\ ~ In key removeFields.
Proof.
  unfold remove_excluded. rewrite List.filter_In. cbn [fst].
  split; intros [Hin Hk]; (split; [exact Hin|]).
  - intros Hbad.
    assert (Hex : existsb (String.eqb key) removeFields = true).
    { apply existsb_exists. exists key. split; [exact Hbad | apply String.eqb_refl]. }
    rewrite Hex in Hk. discriminate Hk.
  - destruct (existsb (String.eqb key) removeFields) eqn:E; [|reflexivity].
    apply existsb_exists in E. destruct E as (x & Hx & Heq).
    apply String.eqb_eq in Heq. subst x. contradiction.
Qed.

(** C7 fails on the code.  The string handed to [JSON.parse] and
    [model.find] is the stringified query itself: for
    [?fundingGoal[gt]=100&page=2] the filter is
    [{ fundingGoal: { gt: '100' } }], with the plain key [gt], where the
    replacement the comment announces would have produced the operator
    [$gt]. *)
Theorem queryStr_operators_unchanged :
  (forall q : Query, queryStr q = stringify (QObj (remove_excluded q)))
  /\ queryStr [("fundingGoal", QObj [("gt", QStr "100")]); ("page", QStr "2")]
     = stringify (QObj [("fundingGoal", QObj [("gt", QStr "100")])])
  /\ replace_operators dollar_callback
       (stringify (QObj [("fundingGoal", QObj [("gt", QStr "100")])]))
     = stringify (QObj [("fundingGoal", QObj [("$gt", QStr "100")])])
  /\ stringify (QObj [("fundingGoal", QObj [("gt", QStr "100")])])
     <> stringify (QObj [("fundingGoal", QObj [("$gt", QStr "100")])]).
Proof.
  split; [intros q; unfold queryStr; apply replace_operators_plain|].
  split; [reflexivity|]. split; [reflexivity|].
  vm_compute. discriminate.
Qed.

End QueryBuilderFacts.

(** ** Further properties of the controllers *)

Section LedgerExtras.
Import PaymentService InvestmentController Ledger Samples.

Lemma db0_ledger_consistent : ledger_consistent db0.
Proof.
  intros id p Hp. unfold completed_of. simpl.
  unfold db0 in Hp. simpl in Hp.
  destruct (decide (id = "p1")) as [->|Hne1].
  - rewrite lookup_insert_eq in Hp. inversion Hp. reflexivity.
  - rewrite lookup_insert_ne in Hp by congruence.
    destruct (decide (id = "p2")) as [->|Hne2].
    + rewrite lookup_insert_eq in Hp. inversion Hp. reflexivity.
    + rewrite lookup_insert_ne in Hp by congruence.
      rewrite lookup_empty in Hp. discriminate.
Qed.

Lemma creations_keep_ledger_witness :
  forallb is_create
    [Create card_succeeds (invest "p1" alice 500 "credit_card" None);
     Create card_declined (invest "p1" bob 700 "credit_card" None);
     Create card_succeeds (invest "p1" bob 50 "wire" None);
     Create card_succeeds (invest "p1" bob 900 "wire" None)] = true
  /\ ledger_consistent
       (perform_all
          [Create card_succeeds (invest "p1" alice 500 "credit_card" None);
           Create card_declined (invest "p1" bob 700 "credit_card" None);
           Create card_succeeds (invest "p1" bob 50 "wire" None);
           Create card_succeeds (invest "p1" bob 900 "wire" None)] db0).
Proof.
  split; [reflexivity|].
  apply creations_keep_ledger; [reflexivity | exact db0_ledger_consistent].
Defined.

Lemma db_processing_ledger_consistent : ledger_consistent db_processing.
Proof.
  unfold db_processing. apply createInvestment_keeps_ledger.
  exact db0_ledger_consistent.
Qed.

Lemma cancelInvestment_drifts_witness :
  exists db' inv' p',
    cancelInvestment card_succeeds (cancel "1" alice) db_processing
    = (db', inr (Json 200 inv'))
    /\ projects db' !! i_project inv' = Some p'
    /\ fundingRaised p' = sum_amounts (completed_of (i_project inv') db') - amount inv'.
Proof.
  pose (run := cancelInvestment card_succeeds (cancel "1" alice) db_processing).
  assert (Hrun : cancelInvestment card_succeeds (cancel "1" alice) db_processing
                 = (fst run,
                    inr (Json 200
                           {| i_id := "1"; i_investor := "u1"; i_project := "p1";
                              amount := 500; paymentMethod := "credit_card";
                              paymentId := Some "pi_2"; transactionFee := fee_of 500;
                              i_status := is_cancelled; createdAt := 1000 |}))).
  { vm_compute. reflexivity. }
  assert (Huniq : forall i j, In i (investments db_processing) ->
                              In j (investments db_processing) ->
                              i_id i = i_id j -> i = j).
  { intros i j [<-|[]] [<-|[]] _. reflexivity. }
  destruct (cancelInvestment_drifts _ _ _ _ _ db_processing_ledger_consistent Huniq Hrun)
    as (p' & Hp' & Hraised).
  eexists _, _, p'. split; [exact Hrun|]. split; [exact Hp' | exact Hraised].
Defined.

Lemma find_map_kept {A} (test : A -> bool) (f : A -> A) (l : list A) (x : A) :
  (forall y, test (f y) = test y) ->
  List.find test l = Some x ->
  List.find test (List.map f l) = Some (f x).
Proof.
  intros Hkeep. induction l as [|y rest IH]; simpl; [discriminate|].
  rewrite Hkeep. destruct (test y); [intros H; inversion H; reflexivity | exact IH].
Qed.

(** X3.  Cancelling an investment whose project is gone: past the
    guards, and with the refund granted when there is a payment
    identifier, the investment is stored as cancelled and then the
    handler fails on the missing project: the reply is the error 500,
    the project collection is as it was, and the investment is found
    again cancelled. *)
Theorem cancelInvestment_orphan env req db inv :
  List.find (fun i => String.eqb (i_id i) (params_id req)) (investments db) = Some inv ->
  i_investor inv = u_id (cancel_user req) \/ role (cancel_user req) = admin ->
  i_status inv = is_pending ->
  projects db !! i_project inv = None ->
  (forall pid, truthy (paymentId inv) = Some pid ->
     exists ok, snd (processRefund env pid (amount inv)) = inl ok) ->
  snd (cancelInvestment env req db)
  = inr (NextErr (mkError "Cannot read properties of null (reading 'fundingRaised')" 500))
  /\ projects (after (cancelInvestment env req) db) = projects db
  /\ List.find (fun i => String.eqb (i_id i) (params_id req))
       (investments (after (cancelInvestment env req) db))
     = Some (set_investment_status is_cancelled inv)
  /\ (forall pid, truthy (paymentId inv) = Some pid ->
        exists rest,
          trace (after (cancelInvestment env req) db)
          = (trace db ++ EvProcessRefund pid (amount inv) :: rest
               ++ [EvInvestmentSave (i_id inv)])%list).
Proof.
  intros Hf Ha Hs Hp Hrefund.
  assert (Hagain :
            List.find (fun i => String.eqb (i_id i) (params_id req))
              (List.map (fun i => if String.eqb (i_id i) (i_id inv)
                                  then set_investment_status is_cancelled inv else i)
                        (investments db))
            = Some (set_investment_status is_cancelled inv)).
  { rewrite (find_map_kept _ _ _ inv); [rewrite String.eqb_refl; reflexivity | | exact Hf].
    intros y. destruct (String.eqb_spec (i_id y) (i_id inv)) as [Heq|Hne]; [|reflexivity].
    simpl. rewrite Heq. reflexivity. }
  unfold after. past_guards Hf Ha Hs.
  destruct (truthy (paymentId inv)) as [pid|] eqn:Ht.
  - destruct (Hrefund pid eq_refl) as [ok Hok].
    destruct (processRefund_events env pid (amount inv)) as (rest & Hev & _).
    destruct (processRefund env pid (amount inv)) as [evs res].
    simpl in Hok, Hev. subst res evs. cbn. rewrite Hp. cbn.
    split; [reflexivity|]. split; [reflexivity|]. split; [exact Hagain|].
    intros pid' Hpid'. inversion Hpid'. subst pid'.
    exists rest. rewrite <- !app_assoc. reflexivity.
  - cbn. rewrite Hp. cbn.
    split; [reflexivity|]. split; [reflexivity|]. split; [exact Hagain|].
    intros pid' Hpid'. discriminate.
Qed.

Lemma cancelInvestment_orphan_witness :
  snd (cancelInvestment card_succeeds (cancel "7" alice) db_orphan)
  = inr (NextErr (mkError "Cannot read properties of null (reading 'fundingRaised')" 500))
  /\ option_map i_status
       (List.find (fun i => String.eqb (i_id i) "7")
          (investments (after (cancelInvestment card_succeeds (cancel "7" alice))
                          db_orphan)))
     = Some is_cancelled.
Proof.
  destruct (cancelInvestment_orphan card_succeeds (cancel "7" alice) db_orphan orphan
              eq_refl (or_introl eq_refl) eq_refl eq_refl) as (Hreply & _ & Hfound & _).
  { intros pid Hpid. inversion Hpid. subst pid. eexists. reflexivity. }
  split; [exact Hreply|].
  change "7" with (params_id (cancel "7" alice)) at 1.
  rewrite Hfound. reflexivity.
Defined.

(** The state a successful cancellation leaves. *)
Lemma cancelInvestment_cancelled_state env req db db' inv' :
  cancelInvestment env req db = (db', inr (Json 200 inv')) ->
  exists inv p,
    List.find (fun i => String.eqb (i_id i) (params_id req)) (investments db) = Some inv
    /\ i_status inv = is_pending
    /\ inv' = set_investment_status is_cancelled inv
    /\ projects db !! i_project inv = Some p
    /\ projects db'
       = <[i_project inv := set_fundingRaised (fundingRaised p - amount inv) p]>
           (projects db)
    /\ users db' = users db
    /\ oid db' = oid db
    /\ investments db'
       = List.map (fun i => if String.eqb (i_id i) (i_id inv)
                            then set_investment_status is_cancelled inv else i)
                  (investments db).
Proof.
  intros Hrun.
  destruct (cancel_dichotomy req db) as [[r Hr] | (inv & Hf & Ha & Hs)].
  { rewrite (refuses_rejected env _ _ _ Hr) in Hrun. discriminate. }
  revert Hrun. past_guards Hf Ha Hs.
  destruct (truthy (paymentId inv)) as [pid|].
  - destruct (processRefund env pid (amount inv)) as [evs [ok|err]]; cbn;
      [|discriminate].
    destruct (projects db !! i_project inv) as [p|] eqn:Hp; cbn; [|discriminate].
    intros H. inversion H. subst. exists inv, p. repeat split; auto.
  - cbn. destruct (projects db !! i_project inv) as [p|] eqn:Hp; cbn; [|discriminate].
    intros H. inversion H. subst. exists inv, p. repeat split; auto.
Qed.

(** X4.  What a successful cancellation changes and what it leaves: the
    investment keeps every field but its status, now cancelled; its
    project keeps every field but [fundingRaised], lowered by the
    amount, so a funded project stays funded whatever is left of its
    total; no other project, no user and no other investment changes,
    and none is added or removed. *)
Theorem cancelInvestment_frame env req db db' inv' :
  cancelInvestment env req db = (db', inr (Json 200 inv')) ->
  exists inv p p',
    List.find (fun i => String.eqb (i_id i) (params_id req)) (investments db) = Some inv
    /\ inv' = set_investment_status is_cancelled inv
    /\ i_status inv' = is_cancelled
    /\ amount inv' = amount inv /\ i_investor inv' = i_investor inv
    /\ i_project inv' = i_project inv /\ paymentId inv' = paymentId inv
    /\ projects db !! i_project inv = Some p
    /\ projects db' !! i_project inv = Some p'
    /\ fundingRaised p' = fundingRaised p - amount inv
    /\ p_status p' = p_status p
    /\ fundingGoal p' = fundingGoal p
    /\ metrics p' = metrics p
    /\ (forall other, other <> i_project inv ->
          projects db' !! other = projects db !! other)
    /\ users db' = users db
    /\ length (investments db') = length (investments db)
    /\ (forall i, In i (investments db) -> i_id i <> i_id inv ->
          In i (investments db')).
Proof.
  intros Hrun.
  destruct (cancelInvestment_cancelled_state _ _ _ _ _ Hrun)
    as (inv & p & Hf & Hs & -> & Hp & Hprojects & Husers & _ & Hinvs).
  exists inv, p, (set_fundingRaised (fundingRaised p - amount inv) p).
  split; [exact Hf|]. repeat (split; [reflexivity|]).
  split; [exact Hp|].
  split; [rewrite Hprojects; apply lookup_insert_eq|].
  repeat (split; [reflexivity|]).
  split; [intros other Hne; rewrite Hprojects; apply lookup_insert_ne; congruence|].
  split; [exact Husers|].
  split; [rewrite Hinvs; apply length_map|].
  intros i Hi Hid. rewrite Hinvs. apply in_map_iff. exists i.
  split; [|exact Hi].
  apply String.eqb_neq in Hid. rewrite Hid. reflexivity.
Qed.

Lemma cancelInvestment_frame_witness :
  exists db' inv' p',
    cancelInvestment card_succeeds (cancel "1" alice) db_processing
    = (db', inr (Json 200 inv'))
    /\ projects db' !! "p1" = Some p'
    /\ fundingRaised p' = -500
    /\ p_status p' = ps_active
    /\ projects db' !! "p2" = Some vault.
Proof.
  pose (run := cancelInvestment card_succeeds (cancel "1" alice) db_processing).
  assert (Hrun : cancelInvestment card_succeeds (cancel "1" alice) db_processing
                 = (fst run,
                    inr (Json 200
                           {| i_id := "1"; i_investor := "u1"; i_project := "p1";
                              amount := 500; paymentMethod := "credit_card";
                              paymentId := Some "pi_2"; transactionFee := fee_of 500;
                              i_status := is_cancelled; createdAt := 1000 |}))).
  { vm_compute. reflexivity. }
  destruct (cancelInvestment_frame _ _ _ _ _ Hrun)
    as (inv & p & p' & Hf & _ & _ & _ & _ & _ & _ & Hp & Hp' & Hraised & Hstatus
        & _ & _ & Hother & _).
  assert (Hinv : Some inv = List.find (fun i => String.eqb (i_id i) "1")
                              (investments db_processing)) by (rewrite <- Hf; reflexivity).
  vm_compute in Hinv. inversion Hinv. subst inv. clear Hinv.
  assert (Hp0 : Some p = Some tower) by (rewrite <- Hp; reflexivity).
  inversion Hp0. subst p.
  eexists _, _, p'. split; [exact Hrun|]. split; [exact Hp'|].
  split; [rewrite Hraised; reflexivity|]. split; [rewrite Hstatus; reflexivity|].
  rewrite Hother; [reflexivity | discriminate].
Defined.

(** The state a successful creation leaves. *)
Lemma createInvestment_created_state env req db db' inv :
  createInvestment env req db = (db', inr (Json 201 inv)) ->
  exists p evs pr,
    projects db !! params_projectId req = Some p
    /\ eligible env req p
    /\ processPayment env (payment_options req p) = (evs, inl pr)
    /\ inv = created env req db pr
    /\ projects db'
       = <[params_projectId req :=
             reconciled (params_projectId req) (investments db ++ [inv]) p]> (projects db)
    /\ users db' = users db
    /\ investments db' = (investments db ++ [inv])%list
    /\ trace db'
       = (((trace db ++ evs) ++ [EvInvestmentCreate (i_id inv)])
            ++ [EvProjectSave (params_projectId req)])%list.
Proof.
  intros Hrun.
  destruct (createInvestment_created_inv _ _ _ _ _ Hrun) as (p & evs & pr & Hp & He & Hpay).
  rewrite (createInvestment_paid _ _ _ _ _ _ Hp He Hpay) in Hrun.
  inversion Hrun. subst. exists p, evs, pr.
  split; [exact Hp|]. split; [exact He|]. split; [exact Hpay|].
  repeat (split; [reflexivity|]). reflexivity.
Qed.

Lemma reconciled_frame (id : string) (stored : list Investment) (p : Project) :
  title (reconciled id stored p) = title p
  /\ description (reconciled id stored p) = description p
  /\ images (reconciled id stored p) = images p
  /\ owner (reconciled id stored p) = owner p
  /\ fundingGoal (reconciled id stored p) = fundingGoal p
  /\ fundingDeadline (reconciled id stored p) = fundingDeadline p
  /\ minInvestment (reconciled id stored p) = minInvestment p
  /\ accreditedOnly (reconciled id stored p) = accreditedOnly p
  /\ metrics (reconciled id stored p) = metrics p.
Proof.
  unfold reconciled.
  destruct (List.filter (completed_for id) stored); cbn zeta;
    match goal with
    | |- context [Z.leb ?a ?b] => destruct (Z.leb a b)
    end; repeat split.
Qed.

Lemma processPayment_fee env options evs pr :
  processPayment env options = (evs, inl pr) ->
  pr_fee pr = fee_of (po_amount options).
Proof.
  unfold processPayment.
  repeat match goal with
         | |- context [if ?b then _ else _] => destruct b
         | |- context [match ?x with _ => _ end] => destruct x
         end; intros H; inversion H; reflexivity.
Qed.

(** X5.  What a successful [createInvestment] writes and what it leaves.
    The new investment is appended to the collection with the
    authenticated user as investor and the route's project as project,
    whatever the body says, with the body's amount and method and with
    the fee the payment service computed from that amount, the double
    [amount * 0.02]; the project keeps every field but
    [fundingRaised] and [status]; no other project, no user and no older
    investment changes.  The payment service is called first and writes
    nothing; then the investment is stored, then the project. *)
Theorem createInvestment_frame env req db db' inv :
  createInvestment env req db = (db', inr (Json 201 inv)) ->
  exists p p' evs,
    projects db !! params_projectId req = Some p
    /\ projects db' !! params_projectId req = Some p'
    /\ investments db' = (investments db ++ [inv])%list
    /\ i_investor inv = u_id (req_user req)
    /\ i_project inv = params_projectId req
    /\ amount inv = body_amount req
    /\ paymentMethod inv = body_paymentMethod req
    /\ transactionFee inv = fee_of (body_amount req)
    /\ createdAt inv = now env
    /\ title p' = title p /\ description p' = description p
    /\ images p' = images p /\ owner p' = owner p
    /\ fundingGoal p' = fundingGoal p
    /\ fundingDeadline p' = fundingDeadline p
    /\ minInvestment p' = minInvestment p
    /\ accreditedOnly p' = accreditedOnly p
    /\ metrics p' = metrics p
    /\ (forall other, other <> params_projectId req ->
          projects db' !! other = projects db !! other)
    /\ users db' = users db
    /\ trace db'
       = (trace db ++ evs
            ++ [EvInvestmentCreate (i_id inv); EvProjectSave (params_projectId req)])%list
    /\ forallb (fun e => negb (write_event e)) evs = true.
Proof.
  intros Hrun.
  destruct (createInvestment_created_state _ _ _ _ _ Hrun)
    as (p & evs & pr & Hp & He & Hpay & Hinv & Hprojects & Husers & Hinvs & Htrace).
  exists p, (reconciled (params_projectId req) (investments db ++ [inv]) p), evs.
  destruct (reconciled_frame (params_projectId req) (investments db ++ [inv]) p)
    as (F1 & F2 & F3 & F4 & F5 & F6 & F7 & F8 & F9).
  split; [exact Hp|].
  split; [rewrite Hprojects; apply lookup_insert_eq|].
  split; [exact Hinvs|].
  rewrite Hinv at 1 2 3 4 5 6. cbn [i_investor i_project amount paymentMethod
                                     transactionFee createdAt created].
  repeat (split; [reflexivity|]).
  split; [apply (processPayment_fee _ _ _ _ Hpay)|].
  split; [reflexivity|].
  split; [exact F1|]. split; [exact F2|]. split; [exact F3|]. split; [exact F4|].
  split; [exact F5|]. split; [exact F6|]. split; [exact F7|]. split; [exact F8|].
  split; [exact F9|].
  split; [intros other Hne; rewrite Hprojects; apply lookup_insert_ne; congruence|].
  split; [exact Husers|].
  split; [rewrite Htrace, <- !app_assoc; reflexivity|].
  pose proof (processPayment_no_write env (payment_options req p)) as Hw.
  rewrite Hpay in Hw. exact Hw.
Qed.

Lemma createInvestment_frame_witness :
  exists db' inv p',
    createInvestment card_succeeds (invest "p1" alice 500 "wire" None) db0
    = (db', inr (Json 201 inv))
    /\ i_investor inv = "u1" /\ i_project inv = "p1" /\ amount inv = 500
    /\ projects db' !! "p1" = Some p'
    /\ minInvestment p' = 100
    /\ projects db' !! "p2" = Some vault.
Proof.
  pose (req := invest "p1" alice 500 "wire" None).
  pose (pr := {| pr_paymentId := "wire_1000"; pr_fee := fee_of 500;
                 pr_status := "pending" |}).
  assert (Hrun : createInvestment card_succeeds req db0
                 = (after (createInvestment card_succeeds req) db0,
                    inr (Json 201 (created card_succeeds req db0 pr)))).
  { vm_compute. reflexivity. }
  destruct (createInvestment_frame _ _ _ _ _ Hrun)
    as (p & p' & evs & Hp & Hp' & _ & Hi & Hpj & Ha & _ & _ & _ & _ & _ & _ & _ & _
        & _ & Hmin & _ & _ & Hother & _).
  assert (Hp0 : Some p = Some tower) by (rewrite <- Hp; reflexivity).
  inversion Hp0. subst p.
  eexists _, _, p'. split; [exact Hrun|].
  split; [exact Hi|]. split; [exact Hpj|]. split; [exact Ha|].
  split; [exact Hp'|]. split; [exact Hmin|].
  rewrite Hother; [reflexivity | discriminate].
Defined.

Lemma createInvestment_keeps_funded env req db id p :
  projects db !! id = Some p ->
  p_status p = ps_funded ->
  exists p', projects (after (createInvestment env req) db) !! id = Some p'
             /\ p_status p' = ps_funded.
Proof.
  intros Hp Hfunded. unfold after.
  destruct (checks_dichotomy env req db) as [[r Hr] | (q & Hq & He)].
  { rewrite (fails_check_rejected _ _ _ _ Hr). exists p. split; assumption. }
  destruct (processPayment env (payment_options req q)) as [evs [pr|err]] eqn:Hpay.
  - rewrite (createInvestment_paid _ _ _ _ _ _ Hq He Hpay). cbn [fst projects].
    destruct (decide (id = params_projectId req)) as [->|Hne].
    + exfalso. destruct He as (Hactive & _).
      assert (q = p) by congruence. subst q. congruence.
    + rewrite lookup_insert_ne by congruence. exists p. split; assumption.
  - rewrite (createInvestment_payment_throws _ _ _ _ _ _ Hq He Hpay).
    exists p. split; assumption.
Qed.

Lemma cancelInvestment_keeps_status env req db id p :
  projects db !! id = Some p ->
  exists p', projects (after (cancelInvestment env req) db) !! id = Some p'
             /\ p_status p' = p_status p.
Proof.
  intros Hp. unfold after, cancelInvestment, bind, Investment_findById,
    Investment_save, Project_findById, Project_save, await, next_error, respond.
  cbn beta iota zeta.
  destruct (List.find _ (investments db)) as [inv|];
    [|exists p; split; [exact Hp | reflexivity]].
  destruct (negb (String.eqb (i_investor inv) (u_id (cancel_user req)))
            && negb (role_eqb (role (cancel_user req)) admin));
    [exists p; split; [exact Hp | reflexivity]|].
  destruct (negb (investment_status_eqb (i_status inv) is_pending));
    [exists p; split; [exact Hp | reflexivity]|].
  assert (Hsave : forall q, projects db !! i_project inv = Some q ->
            exists p',
              <[i_project inv := set_fundingRaised (fundingRaised q - amount inv) q]>
                (projects db) !! id = Some p'
              /\ p_status p' = p_status p).
  { intros q Hq. destruct (decide (id = i_project inv)) as [->|Hne].
    - rewrite lookup_insert_eq. eexists. split; [reflexivity|].
      assert (q = p) by congruence. subst q. reflexivity.
    - rewrite lookup_insert_ne by congruence. exists p. split; [exact Hp | reflexivity]. }
  destruct (truthy (paymentId inv)) as [pid|]; cbn beta iota zeta.
  - destruct (processRefund env pid (amount inv)) as [evs [ok|err]];
      cbn [fst snd projects set_investment_status i_project amount].
    + destruct (projects db !! i_project inv) as [q|] eqn:Hq; cbn [fst projects].
      * apply Hsave. reflexivity.
      * exists p. split; [exact Hp | reflexivity].
    + exists p. split; [exact Hp | reflexivity].
  - cbn [fst snd projects set_investment_status i_project amount].
    destruct (projects db !! i_project inv) as [q|] eqn:Hq; cbn [fst projects].
    + apply Hsave. reflexivity.
    + exists p. split; [exact Hp | reflexivity].
Qed.

Lemma updateInvestment_keeps_projects req db :
  projects (after (updateInvestment req) db) = projects db.
Proof.
  unfold after, updateInvestment, bind, Investment_findById, Investment_save,
    next_error, respond.
  cbn beta iota zeta.
  destruct (List.find _ (investments db)) as [inv|]; [|reflexivity].
  destruct (negb (role_eqb (role (update_user req)) admin)); reflexivity.
Qed.

Lemma getProject_keeps_status id' db id p :
  projects db !! id = Some p ->
  exists p', projects (after (ProjectController.getProject id') db) !! id = Some p'
             /\ p_status p' = p_status p.
Proof.
  intros Hp. unfold after, ProjectController.getProject, bind, Project_findById,
    Project_save, get, next_error, respond.
  cbn beta iota zeta.
  destruct (projects db !! id') as [q|] eqn:Hq; cbn [fst projects];
    [|exists p; split; [exact Hp | reflexivity]].
  destruct (decide (id = id')) as [->|Hne].
  - rewrite lookup_insert_eq. eexists. split; [reflexivity|].
    assert (q = p) by congruence. subst q. reflexivity.
  - rewrite lookup_insert_ne by congruence. exists p. split; [exact Hp | reflexivity].
Qed.

(** A funded project stays funded through the requests of
    [Requests.Request]. *)
Lemma serve_all_keeps_funded (rs : list Requests.Request) (db : Db) id p :
  projects db !! id = Some p ->
  p_status p = ps_funded ->
  exists p', projects (Requests.serve_all rs db) !! id = Some p'
             /\ p_status p' = ps_funded.
Proof.
  revert db p. induction rs as [|r rs IH]; intros db p Hp Hfunded.
  { exists p. split; assumption. }
  unfold Requests.serve_all. cbn [List.fold_left].
  assert (Hstep : exists p', projects (Requests.serve r db) !! id = Some p'
                             /\ p_status p' = ps_funded).
  { destruct r as [env req|env req|req|id']; cbn [Requests.serve].
    - apply (createInvestment_keeps_funded env req db id p Hp Hfunded).
    - destruct (cancelInvestment_keeps_status env req db id p Hp) as (p' & Hp' & Hs).
      exists p'. split; [exact Hp' | congruence].
    - rewrite updateInvestment_keeps_projects. exists p. split; assumption.
    - destruct (getProject_keeps_status id' db id p Hp) as (p' & Hp' & Hs).
      exists p'. split; [exact Hp' | congruence]. }
  destruct Hstep as (p' & Hp' & Hfunded').
  apply (IH _ p' Hp' Hfunded').
Qed.

(** X6.  Once a [createInvestment] has brought the project's total to
    its goal, the project is funded, and it stays funded through every
    sequence of requests to [createInvestment], [cancelInvestment],
    [updateInvestment] and [getProject]: a [createInvestment] on it
    after such a sequence, by whoever and for whatever amount, is
    refused with 400 and changes nothing.  (The handlers of this model
    are the only writers here; [updateProject], which stores the status
    its body carries, is not among them.) *)
Theorem funded_project_takes_no_investment env req db db' inv p' :
  createInvestment env req db = (db', inr (Json 201 inv)) ->
  projects db' !! params_projectId req = Some p' ->
  fundingGoal p' <= fundingRaised p' ->
  forall (later : list Requests.Request) env' req',
    params_projectId req' = params_projectId req ->
    createInvestment env' req' (Requests.serve_all later db')
    = (Requests.serve_all later db',
       inr (NextErr (mkError "Project is not currently accepting investments" 400))).
Proof.
  intros Hrun Hp' Hgoal later env' req' Hsame.
  destruct (createInvestment_created_state _ _ _ _ _ Hrun)
    as (p & evs & pr & Hp & He & Hpay & Hinv & Hprojects & _).
  assert (Hlook := Hp').
  rewrite Hprojects, lookup_insert_eq in Hlook. inversion Hlook as [Heq]. clear Hlook.
  destruct (reconciled_spec (params_projectId req) (investments db ++ [inv]) p)
    as (_ & _ & R3 & _ & R5 & _).
  rewrite Heq in R3, R5.
  assert (Hfunded : p_status p' = ps_funded) by (apply R3; lia).
  destruct (serve_all_keeps_funded later db' _ p' Hp' Hfunded) as (p'' & Hp'' & Hfunded'').
  apply (fails_check_rejected env' req' _ ProjectNotActive).
  apply (fails_inactive _ _ _ p'').
  - rewrite Hsame. exact Hp''.
  - rewrite Hfunded''. discriminate.
Qed.

(** The tower after Alice's wire of 500, still pending, and Bob's card
    payment of 10000: funded.  Alice then cancels her wire, which brings
    the total to 9500, under the goal, and the project is viewed; Mona's
    investment after that is refused. *)
Lemma funded_project_takes_no_investment_witness :
  exists db' db'',
    after (createInvestment card_succeeds (invest "p1" bob 10000 "credit_card" None))
      (after (createInvestment card_succeeds (invest "p1" alice 500 "wire" None)) db0)
    = db'
    /\ Requests.serve_all
         [Requests.PutInvestmentCancel card_succeeds (cancel "1" alice);
          Requests.GetProject "p1"] db' = db''
    /\ option_map fundingRaised (projects db'' !! "p1") = Some 9500
    /\ option_map fundingGoal (projects db'' !! "p1") = Some 10000
    /\ createInvestment card_processing (invest "p1" mona 100 "wire" None) db''
       = (db'', inr (NextErr
                  (mkError "Project is not currently accepting investments" 400))).
Proof.
  pose (db1 := after (createInvestment card_succeeds (invest "p1" alice 500 "wire" None))
                 db0).
  pose (req := invest "p1" bob 10000 "credit_card" None).
  pose (pr := {| pr_paymentId := "pi_1"; pr_fee := fee_of 10000;
                 pr_status := "succeeded" |}).
  assert (Hrun : createInvestment card_succeeds req db1
                 = (after (createInvestment card_succeeds req) db1,
                    inr (Json 201 (created card_succeeds req db1 pr)))).
  { vm_compute. reflexivity. }
  eexists _, _. split; [reflexivity|]. split; [reflexivity|].
  split; [vm_compute; reflexivity|]. split; [vm_compute; reflexivity|].
  apply (funded_project_takes_no_investment _ _ _ _ _
           (set_status ps_funded (set_fundingRaised 10000 tower)) Hrun);
    [vm_compute; reflexivity | simpl; lia | reflexivity].
Defined.

Lemma map_update_other (inv inv' : Investment) (l : list Investment) :
  ~ In (i_id inv) (List.map i_id l) ->
  List.map (fun i => if String.eqb (i_id i) (i_id inv) then inv' else i) l = l.
Proof.
  induction l as [|x rest IH]; intros Hout; [reflexivity|].
  simpl in *. rewrite IH by tauto.
  destruct (String.eqb_spec (i_id x) (i_id inv)) as [Heq|_]; [|reflexivity].
  exfalso. apply Hout. left. exact Heq.
Qed.

Lemma sum_after_uncompleting (id : string) (inv inv' : Investment)
    (l : list Investment) :
  List.NoDup (List.map i_id l) ->
  In inv l ->
  completed_for id inv = true ->
  completed_for id inv' = false ->
  sum_amounts
    (List.filter (completed_for id)
       (List.map (fun i => if String.eqb (i_id i) (i_id inv) then inv' else i) l))
  = sum_amounts (List.filter (completed_for id) l) - amount inv.
Proof.
  intros Hnodup Hin Hyes Hno.
  induction l as [|x rest IH]; [contradiction|].
  inversion Hnodup as [|? ? Hfresh Hrest]. subst.
  destruct Hin as [->|Hin].
  - cbn [List.map List.filter]. rewrite String.eqb_refl, Hno, Hyes.
    rewrite (map_update_other inv inv' rest Hfresh).
    unfold sum_amounts. simpl. lia.
  - assert (Hne : i_id x <> i_id inv).
    { intros Heq. apply Hfresh. rewrite Heq. apply in_map. exact Hin. }
    cbn [List.map List.filter]. apply String.eqb_neq in Hne. rewrite Hne.
    destruct (completed_for id x).
    + unfold sum_amounts in *. simpl. rewrite (IH Hrest Hin). lia.
    + exact (IH Hrest Hin).
Qed.

(** X7.  An administrator's [updateInvestment] never touches a project.
    So when it takes a completed investment out of that status, on a
    ledger that agreed and with one investment per identifier, the
    project's total stays where it was: above the sum of its completed
    investments by the amount of the investment. *)
Theorem updateInvestment_leaves_total req db inv p s :
  ledger_consistent db ->
  List.NoDup (List.map i_id (investments db)) ->
  List.find (fun i => String.eqb (i_id i) (update_id req)) (investments db) = Some inv ->
  role (update_user req) = admin ->
  i_status inv = is_completed ->
  patch_status req = Some s ->
  s <> is_completed ->
  projects db !! i_project inv = Some p ->
  snd (updateInvestment req db) = inr (Json 200 (apply_patch req inv))
  /\ projects (after (updateInvestment req) db) = projects db
  /\ fundingRaised p
     = sum_amounts (completed_of (i_project inv) (after (updateInvestment req) db))
       + amount inv.
Proof.
  intros Hledger Hnodup Hf Hadmin Hst Hpatch Hs Hp.
  unfold after, updateInvestment, bind, Investment_findById, Investment_save,
    next_error, respond.
  cbn beta iota zeta. rewrite Hf. cbn beta iota zeta.
  rewrite Hadmin. cbn.
  split; [reflexivity|]. split; [reflexivity|].
  unfold completed_of. cbn.
  rewrite (sum_after_uncompleting (i_project inv) inv (apply_patch req inv)).
  - rewrite (Hledger _ _ Hp). unfold completed_of. lia.
  - exact Hnodup.
  - apply List.find_some in Hf. apply Hf.
  - unfold completed_for. rewrite String.eqb_refl, Hst. reflexivity.
  - unfold completed_for, apply_patch. cbn. rewrite Hpatch.
    apply investment_status_eqb_neq in Hs. rewrite Hs. apply andb_false_r.
Qed.

Lemma db_paid_ledger_consistent : ledger_consistent db_paid.
Proof.
  unfold db_paid. apply createInvestment_keeps_ledger. exact db0_ledger_consistent.
Qed.

Lemma updateInvestment_leaves_total_witness :
  projects db_corrected = projects db_paid
  /\ option_map fundingRaised (projects db_corrected !! "p1") = Some 500
  /\ 500 = sum_amounts (completed_of "p1" db_corrected) + 500.
Proof.
  pose (req := {| update_id := "1"; update_user := root;
                  patch_status := Some is_refunded; patch_amount := None |}).
  pose (inv := {| i_id := "1"; i_investor := "u1"; i_project := "p1"; amount := 500;
                  paymentMethod := "credit_card"; paymentId := Some "pi_1";
                  transactionFee := fee_of 500; i_status := is_completed;
                  createdAt := 1000 |}).
  assert (Hnodup : List.NoDup (List.map i_id (investments db_paid))).
  { apply List.NoDup_cons; [intros [] | apply List.NoDup_nil]. }
  destruct (updateInvestment_leaves_total req db_paid inv (set_fundingRaised 500 tower)
              is_refunded db_paid_ledger_consistent Hnodup eq_refl eq_refl eq_refl
              eq_refl ltac:(discriminate) eq_refl) as (_ & Hprojects & Htotal).
  split; [exact Hprojects|]. split; [reflexivity | exact Htotal].
Defined.

End LedgerExtras.

(** *** Rounding to a double

    What [SpecFloat.binary_round_aux] does to a mantissa with more than
    53 digits: it shifts the digits beyond the 53rd out and rounds to
    nearest, which moves the value by at most one part in [2^53]. *)

Section DoubleRounding.
Import SpecFloat Double.

Lemma iter_pos_nat {A} (f : A -> A) (p : positive) (x : A) :
  iter_pos f p x = Nat.iter (Pos.to_nat p) f x.
Proof.
  revert x. induction p as [p IH|p IH|]; intros x; cbn [iter_pos].
  - rewrite !IH, Pos2Nat.inj_xI.
    replace (S (2 * Pos.to_nat p)) with (Pos.to_nat p + (Pos.to_nat p + 1))%nat by lia.
    rewrite !Nat.iter_add. reflexivity.
  - rewrite !IH, Pos2Nat.inj_xO.
    replace (2 * Pos.to_nat p)%nat with (Pos.to_nat p + Pos.to_nat p)%nat by lia.
    rewrite Nat.iter_add. reflexivity.
  - reflexivity.
Qed.

(** One halving: the quotient by two, the bit shifted out, and the
    bits shifted out before. *)
Lemma shr_1_spec (m : Z) (r s : bool) :
  0 <= m ->
  shr_1 (Build_shr_record m r s) = Build_shr_record (m / 2) (Z.odd m) (r || s).
Proof.
  intros Hm. destruct m as [|[p|p|]|p]; try lia; cbn [shr_1].
  - reflexivity.
  - assert (H : Z.pos p~1 / 2 = Z.pos p).
    { rewrite Pos2Z.inj_xI. symmetry. apply (Z.div_unique _ _ _ 1); lia. }
    rewrite H. reflexivity.
  - assert (H : Z.pos p~0 / 2 = Z.pos p).
    { rewrite Pos2Z.inj_xO. symmetry. apply (Z.div_unique _ _ _ 0); lia. }
    rewrite H. reflexivity.
  - reflexivity.
Qed.

Lemma shr_1_halved n m0 mrs :
  0 <= n -> halved n m0 mrs -> halved (n + 1) m0 (shr_1 mrs).
Proof.
  intros Hn (Hm & T & Heq & HT & Hs).
  destruct mrs as [m r s]. cbn [shr_m shr_r shr_s] in *.
  rewrite (shr_1_spec m r s Hm). unfold halved. cbn [shr_m shr_r shr_s].
  assert (Hp : 2 ^ (n + 1) = 2 * 2 ^ n) by (rewrite Z.pow_add_r by lia; lia).
  assert (Hp2 : 2 ^ (n + 1 + 1) = 4 * 2 ^ n) by (rewrite !Z.pow_add_r by lia; lia).
  assert (Hpos : 0 < 2 ^ n) by (apply Z.pow_pos_nonneg; lia).
  assert (Hdiv : m = 2 * (m / 2) + b2z (Z.odd m)).
  { rewrite (Z.div_mod m 2) at 1 by lia. rewrite Zmod_odd. destruct (Z.odd m); reflexivity. }
  split; [apply Z.div_pos; lia|].
  exists (b2z r * 2 ^ n + T). rewrite Hp2, Hp. rewrite Hp in Heq.
  split.
  { remember (m / 2) as q. remember (b2z (Z.odd m)) as o. remember (2 ^ n) as P.
    rewrite Hdiv in Heq. lia. }
  split; [destruct r; unfold b2z; lia|].
  destruct r, s; unfold b2z, orb; split; intros H; try lia; try reflexivity.
Qed.

Lemma iter_halved (k : nat) n m0 mrs :
  0 <= n -> halved n m0 mrs -> halved (n + Z.of_nat k) m0 (Nat.iter k shr_1 mrs).
Proof.
  intros Hn H. induction k as [|k IH].
  - change (Z.of_nat 0) with 0. replace (n + 0) with n by lia. exact H.
  - simpl Nat.iter. replace (n + Z.of_nat (S k)) with (n + Z.of_nat k + 1) by lia.
    apply shr_1_halved; [lia | exact IH].
Qed.

(** A mantissa of [d] digits lies between [2^(d-1)] and [2^d]. *)
Lemma digits_spec (m : positive) :
  2 ^ (digits m - 1) <= Zpos m < 2 ^ digits m.
Proof.
  unfold digits. induction m as [m IH|m IH|]; cbn [digits2_pos].
  - rewrite Pos2Z.inj_succ. change (Z.pos m~1) with (2 * Z.pos m + 1).
    set (d := Z.pos (digits2_pos m)) in *.
    assert (Hd0 : 1 <= d) by (unfold d; lia). clearbody d.
    assert (Hd : 2 ^ d = 2 * 2 ^ (d - 1)).
    { replace d with (Z.succ (d - 1)) at 1 by lia. apply Z.pow_succ_r. lia. }
    replace (Z.succ d - 1) with d by lia. rewrite Z.pow_succ_r by lia. lia.
  - rewrite Pos2Z.inj_succ. change (Z.pos m~0) with (2 * Z.pos m).
    set (d := Z.pos (digits2_pos m)) in *.
    assert (Hd0 : 1 <= d) by (unfold d; lia). clearbody d.
    assert (Hd : 2 ^ d = 2 * 2 ^ (d - 1)).
    { replace d with (Z.succ (d - 1)) at 1 by lia. apply Z.pow_succ_r. lia. }
    replace (Z.succ d - 1) with d by lia. rewrite Z.pow_succ_r by lia. lia.
  - simpl. lia.
Qed.

Lemma digits_pos (m : positive) : 1 <= digits m.
Proof. unfold digits. lia. Qed.

Lemma digits_unique (m : positive) (k : Z) :
  2 ^ (k - 1) <= Zpos m < 2 ^ k -> digits m = k.
Proof.
  intros [Hlo Hhi]. pose proof (digits_spec m) as [Dlo Dhi].
  pose proof (digits_pos m) as Hd.
  assert (Hk : 1 <= k).
  { destruct (Z_lt_le_dec k 1) as [Hlt|]; [|assumption].
    exfalso. assert (2 ^ k <= 2 ^ 0).
    { destruct (Z_lt_le_dec k 0); [rewrite Z.pow_neg_r by lia; simpl; lia|].
      apply Z.pow_le_mono_r; lia. }
    simpl in *. lia. }
  assert (digits m - 1 < k).
  { apply (Z.pow_lt_mono_r_iff 2); try lia. }
  assert (k - 1 < digits m).
  { apply (Z.pow_lt_mono_r_iff 2); try lia. }
  lia.
Qed.

Lemma digits_lower (m : positive) (k : Z) :
  2 ^ k <= Zpos m -> k < digits m.
Proof.
  intros H. pose proof (digits_spec m) as [_ Dhi]. pose proof (digits_pos m).
  destruct (Z_lt_le_dec k 0); [lia|].
  apply (Z.pow_lt_mono_r_iff 2); lia.
Qed.

Lemma digits_upper (m : positive) (k : Z) :
  0 <= k -> Zpos m < 2 ^ k -> digits m <= k.
Proof.
  intros Hk H. pose proof (digits_spec m) as [Dlo _]. pose proof (digits_pos m).
  assert (digits m - 1 < k); [|lia].
  apply (Z.pow_lt_mono_r_iff 2); lia.
Qed.

Lemma digits_mul (a b : positive) :
  digits a + digits b - 1 <= digits (a * b) <= digits a + digits b.
Proof.
  pose proof (digits_spec a) as [Alo Ahi]. pose proof (digits_spec b) as [Blo Bhi].
  pose proof (digits_pos a). pose proof (digits_pos b).
  split.
  - assert (digits a + digits b - 2 < digits (a * b)); [|lia].
    apply digits_lower. rewrite Pos2Z.inj_mul.
    replace (digits a + digits b - 2) with ((digits a - 1) + (digits b - 1)) by lia.
    rewrite Z.pow_add_r by lia. nia.
  - apply digits_upper; [lia|]. rewrite Pos2Z.inj_mul, Z.pow_add_r by lia. nia.
Qed.

Lemma halved_start (m : Z) : 0 <= m -> halved 0 m (Build_shr_record m false false).
Proof.
  intros Hm. split; [exact Hm|]. exists 0. cbn [shr_m shr_r shr_s b2z].
  change (2 ^ (0 + 1)) with 2. change (2 ^ 0) with 1.
  split; [lia|]. split; [lia|]. split; [discriminate | lia].
Qed.

Lemma shr_halved (m : Z) (p : positive) :
  0 <= m ->
  halved (Zpos p) m (iter_pos shr_1 p (Build_shr_record m false false)).
Proof.
  intros Hm. rewrite iter_pos_nat.
  replace (Zpos p) with (0 + Z.of_nat (Pos.to_nat p)) by lia.
  apply iter_halved; [lia | apply halved_start; exact Hm].
Qed.

(** Rounding to nearest after [n] halvings is off by at most half of
    [2^n]. *)
Lemma round_nearest_even_error n m0 mrs :
  0 <= n -> halved n m0 mrs ->
  shr_m mrs <= round_nearest_even (shr_m mrs) (loc_of_shr_record mrs) <= shr_m mrs + 1
  /\ Z.abs (2 * m0 - round_nearest_even (shr_m mrs) (loc_of_shr_record mrs) * 2 ^ (n + 1))
     <= 2 ^ n
  /\ shr_m mrs * 2 ^ (n + 1) <= 2 * m0 < (shr_m mrs + 1) * 2 ^ (n + 1).
Proof.
  intros Hn (Hm & T & Heq & HT & Hs).
  destruct mrs as [q r s]. cbn [shr_m shr_r shr_s] in *.
  assert (Hp : 2 ^ (n + 1) = 2 * 2 ^ n) by (rewrite Z.pow_add_r by lia; lia).
  rewrite Hp in *. remember (2 ^ n) as P.
  assert (HP : 0 < P) by (subst P; apply Z.pow_pos_nonneg; lia).
  destruct r, s; cbn [loc_of_shr_record round_nearest_even b2z] in *.
  - assert (0 < T) by (apply Hs; reflexivity). lia.
  - assert (T = 0).
    { destruct (Z.eq_dec T 0); [assumption|]. assert (0 < T) by lia.
      apply Hs in H. discriminate. }
    subst T. destruct (Z.even q); lia.
  - lia.
  - assert (T = 0).
    { destruct (Z.eq_dec T 0); [assumption|]. assert (0 < T) by lia.
      apply Hs in H. discriminate. }
    lia.
Qed.

Lemma pow2_53 : 2 ^ 53 = 9007199254740992.
Proof. reflexivity. Qed.

(** A mantissa of at least 53 digits, in the range of the normal
    doubles, is rounded to a mantissa of 53 digits at a higher exponent,
    within one part in [2^53] of it. *)
Lemma binary_round_aux_spec (s : bool) (m : positive) (e : Z) :
  53 <= digits m -> -1021 <= digits m + e <= 1023 ->
  exists m' e',
    binary_round_aux 53 1024 s (Zpos m) e loc_Exact = S754_finite s m' e'
    /\ digits m' = 53
    /\ e + digits m - 53 <= e' <= e + digits m - 52
    /\ 2 ^ 53 * Z.abs (Zpos m' * 2 ^ (e' - e) - Zpos m) <= Zpos m.
Proof.
  intros Hd Hrange. pose proof (digits_spec m) as [Dlo Dhi].
  remember (digits m) as d eqn:Ed.
  unfold binary_round_aux, shr_fexp.
  change (Zdigits2 (Zpos m)) with (digits m). rewrite <- Ed.
  assert (Hfexp : fexp 53 1024 (d + e) = d + e - 53) by (unfold fexp, emin; lia).
  rewrite Hfexp. replace (d + e - 53 - e) with (d - 53) by lia.
  destruct (d - 53) as [|p|p] eqn:Ek; [| |lia].
  - (* the mantissa has 53 digits: nothing is shifted *)
    assert (Hd53 : d = 53) by lia. rewrite Hd53 in *. clear Hd53.
    cbn [shr shr_record_of_loc shr_m loc_of_shr_record round_nearest_even].
    change (Zdigits2 (Zpos m)) with (digits m). rewrite <- Ed.
    assert (Hfexp' : fexp 53 1024 (53 + e) - e = 0) by (unfold fexp, emin; lia).
    rewrite Hfexp'. cbn [shr shr_record_of_loc shr_m].
    assert (He : Z.leb e (1024 - 53) = true) by (apply Z.leb_le; lia).
    rewrite He. exists m, e. split; [reflexivity|]. split; [symmetry; exact Ed|].
    split; [lia|]. replace (e - e) with 0 by lia. simpl (2 ^ 0). 
    replace (Z.pos m * 1 - Z.pos m) with 0 by lia. simpl. lia.
  - (* [p = d - 53] digits are shifted out *)
    cbn [shr shr_record_of_loc].
    pose proof (shr_halved (Zpos m) p ltac:(lia)) as Hh.
    remember (iter_pos shr_1 p (Build_shr_record (Zpos m) false false)) as mrs.
    destruct (round_nearest_even_error (Zpos p) (Zpos m) mrs ltac:(lia) Hh)
      as (Hq & Herr & Hbounds).
    remember (round_nearest_even (shr_m mrs) (loc_of_shr_record mrs)) as M.
    assert (Hk : Zpos p = d - 53) by lia.
    assert (Hpow : 2 ^ d = 2 ^ 53 * 2 ^ Zpos p).
    { rewrite <- Z.pow_add_r by lia. f_equal. lia. }
    assert (Hpow1 : 2 ^ (d - 1) = 2 ^ 52 * 2 ^ Zpos p).
    { rewrite <- Z.pow_add_r by lia. f_equal. lia. }
    assert (Hp1 : 2 ^ (Zpos p + 1) = 2 * 2 ^ Zpos p) by (rewrite Z.pow_add_r by lia; lia).
    assert (HP : 0 < 2 ^ Zpos p) by (apply Z.pow_pos_nonneg; lia).
    rewrite Hp1 in *. remember (2 ^ Zpos p) as P.
    assert (Hqlo : 2 ^ 52 <= shr_m mrs) by nia.
    assert (Hqhi : shr_m mrs < 2 ^ 53) by nia.
    assert (HM : 2 ^ 52 <= M <= 2 ^ 53) by lia.
    destruct M as [|M|M]; try (simpl in HM; lia).
    destruct (Z.eq_dec (Zpos M) (2 ^ 53)) as [Hcarry|Hnocarry].
    + (* the rounded mantissa is 2^53 *)
      assert (M = 9007199254740992%positive) by (rewrite pow2_53 in Hcarry; congruence).
      subst M. change (Zdigits2 9007199254740992) with 54.
      assert (Hfexp' : fexp 53 1024 (54 + (e + Zpos p)) - (e + Zpos p) = 1)
        by (unfold fexp, emin; lia).
      rewrite Hfexp'. cbn [shr shr_record_of_loc iter_pos shr_1 shr_m].
      assert (He : Z.leb (e + Zpos p + 1) (1024 - 53) = true) by (apply Z.leb_le; lia).
      rewrite He. exists 4503599627370496%positive, (e + Zpos p + 1).
      split; [reflexivity|].
      split; [reflexivity|]. split; [lia|].
      replace (e + Zpos p + 1 - e) with (Zpos p + 1) by lia.
      rewrite Hp1. rewrite pow2_53. lia.
    + assert (HMd : digits M = 53).
      { apply digits_unique. change (53 - 1) with 52. lia. }
      change (Zdigits2 (Zpos M)) with (digits M). rewrite HMd.
      assert (Hfexp' : fexp 53 1024 (53 + (e + Zpos p)) - (e + Zpos p) = 0)
        by (unfold fexp, emin; lia).
      rewrite Hfexp'. cbn [shr shr_record_of_loc shr_m].
      assert (He : Z.leb (e + Zpos p) (1024 - 53) = true) by (apply Z.leb_le; lia).
      rewrite He. exists M, (e + Zpos p). split; [reflexivity|].
      split; [exact HMd|]. split; [lia|].
      replace (e + Zpos p - e) with (Zpos p) by lia. rewrite <- HeqP. lia.
Qed.

End DoubleRounding.

(** *** The values of doubles, as rationals *)

Section DoubleValues.
Import SpecFloat Double PaymentService.
Local Open Scope Q_scope.

Lemma bpow_pos (e : Z) : 0 < bpow e.
Proof. unfold bpow. apply Qpower_0_lt. reflexivity. Qed.

Lemma bpow_add (a b : Z) : bpow (a + b) == bpow a * bpow b.
Proof. unfold bpow. apply Qpower_plus. discriminate. Qed.

Lemma bpow_Z (k : Z) : (0 <= k)%Z -> bpow k == inject_Z (2 ^ k).
Proof. intros Hk. unfold bpow. rewrite Zpower_Qpower by exact Hk. reflexivity. Qed.

(** A mantissa [m'] at exponent [e' >= e] that is within [2^-53] of the
    mantissa [m] at exponent [e], relatively. *)
Lemma relative_error (m m' : Z) (e e' : Z) :
  (e <= e')%Z ->
  (2 ^ 53 * Z.abs (m' * 2 ^ (e' - e) - m) <= m)%Z ->
  (inject_Z m * bpow e) * (1 - unit_roundoff) <= inject_Z m' * bpow e'
  /\ inject_Z m' * bpow e' <= (inject_Z m * bpow e) * (1 + unit_roundoff).
Proof.
  intros He Herr.
  assert (Hsplit : bpow e' == inject_Z (2 ^ (e' - e)) * bpow e).
  { replace e' with ((e' - e) + e)%Z at 1 by lia.
    rewrite bpow_add, bpow_Z by lia. reflexivity. }
  rewrite Hsplit. pose proof (bpow_pos e) as HB.
  remember (2 ^ (e' - e))%Z as K. rewrite pow2_53 in Herr.
  assert (H1 : (9007199254740991 * m <= 9007199254740992 * (m' * K))%Z) by lia.
  assert (H2 : (9007199254740992 * (m' * K) <= 9007199254740993 * m)%Z) by lia.
  rewrite Zle_Qle in H1, H2. rewrite !inject_Z_mult in H1, H2.
  remember (bpow e) as B. remember (inject_Z m) as qm.
  remember (inject_Z m') as qm'. remember (inject_Z K) as qK.
  remember (qm' * qK) as p.
  unfold inject_Z in H1, H2. unfold unit_roundoff.
  split.
  - assert (E1 : qm * B * (1 - (1 # 9007199254740992))
                 == (qm * (1 - (1 # 9007199254740992))) * B) by ring.
    assert (E2 : qm' * (qK * B) == p * B) by (subst p; ring).
    rewrite E1, E2.
    apply Qmult_le_compat_r; [|apply Qlt_le_weak; exact HB]. lra.
  - assert (E1 : qm * B * (1 + (1 # 9007199254740992))
                 == (qm * (1 + (1 # 9007199254740992))) * B) by ring.
    assert (E2 : qm' * (qK * B) == p * B) by (subst p; ring).
    rewrite E1, E2.
    apply Qmult_le_compat_r; [|apply Qlt_le_weak; exact HB]. lra.
Qed.

(** A mantissa of 53 digits is a double as it is. *)
Lemma binary_round_aux_exact (s : bool) (m : positive) (e : Z) :
  digits m = 53%Z -> (-1074 <= e <= 970)%Z ->
  binary_round_aux 53 1024 s (Zpos m) e loc_Exact = S754_finite s m e.
Proof.
  intros Hd He. unfold binary_round_aux, shr_fexp.
  change (Zdigits2 (Zpos m)) with (digits m). rewrite Hd.
  assert (Hfexp : (fexp 53 1024 (53 + e) - e = 0)%Z) by (unfold fexp, emin; lia).
  rewrite Hfexp.
  cbn [shr shr_record_of_loc shr_m loc_of_shr_record round_nearest_even].
  change (Zdigits2 (Zpos m)) with (digits m). rewrite Hd, Hfexp.
  cbn [shr shr_record_of_loc shr_m].
  assert (Hle : Z.leb e (1024 - 53) = true) by (apply Z.leb_le; lia).
  rewrite Hle. reflexivity.
Qed.

Lemma iter_xO (m k : positive) : Zpos (Pos.iter xO m k) = (Zpos m * 2 ^ Zpos k)%Z.
Proof.
  induction k as [|k IH] using Pos.peano_ind.
  - cbn [Pos.iter]. change (2 ^ 1)%Z with 2%Z. lia.
  - rewrite Pos.iter_succ, Pos2Z.inj_succ, Z.pow_succ_r by lia.
    change (Zpos (Pos.iter xO m k)~0) with (2 * Zpos (Pos.iter xO m k))%Z.
    rewrite IH. ring.
Qed.

Lemma shl_align_spec (m : positive) (e e' : Z) :
  (e' <= e)%Z ->
  Zpos (fst (shl_align m e e')) = (Zpos m * 2 ^ (e - e'))%Z
  /\ snd (shl_align m e e') = e'.
Proof.
  intros He. unfold shl_align.
  destruct (e' - e)%Z as [|k|k] eqn:Ek; [| lia |]; cbn [fst snd].
  - assert (e' = e) by lia. subst e'. replace (e - e)%Z with 0%Z by lia.
    split; [simpl; lia | reflexivity].
  - split; [|reflexivity]. rewrite iter_xO. f_equal. f_equal. lia.
Qed.

Lemma shl_align_none (m : positive) (e e' : Z) :
  (e <= e')%Z -> shl_align m e e' = (m, e).
Proof.
  intros He. unfold shl_align. destruct (e' - e)%Z eqn:Ek; try reflexivity. lia.
Qed.

(** A whole number from 1 up to, not including, [2^53] is held
    exactly. *)
Lemma of_Z_spec (a : Z) :
  (1 <= a < 2 ^ 53)%Z ->
  exists m e,
    Double.of_Z a = S754_finite false m e
    /\ digits m = 53%Z /\ (-52 <= e <= 0)%Z
    /\ inject_Z (Zpos m) * bpow e == inject_Z a.
Proof.
  intros Ha. destruct a as [|a|a]; try lia.
  unfold Double.of_Z, binary_normalize, binary_round.
  pose proof (digits_spec a) as [Dlo Dhi]. pose proof (digits_pos a) as Dpos.
  assert (Dle : (digits a <= 53)%Z) by (apply digits_upper; lia).
  change (Zpos (digits2_pos a)) with (digits a).
  assert (Hfexp : fexp Double.prec Double.emax (digits a + 0) = (digits a - 53)%Z)
    by (unfold fexp, emin, Double.prec, Double.emax; lia).
  rewrite Hfexp.
  destruct (shl_align_spec a 0 (digits a - 53) ltac:(lia)) as [Hm He].
  destruct (shl_align a 0 (digits a - 53)) as [mz ez]. cbn [fst snd] in Hm, He.
  subst ez.
  assert (Hdz : digits mz = 53%Z).
  { apply digits_unique. rewrite Hm.
    replace (0 - (digits a - 53))%Z with (53 - digits a)%Z by lia.
    assert (H52 : (2 ^ (53 - 1) = 2 ^ (digits a - 1) * 2 ^ (53 - digits a))%Z).
    { rewrite <- Z.pow_add_r by lia. f_equal. lia. }
    assert (H53 : (2 ^ 53 = 2 ^ digits a * 2 ^ (53 - digits a))%Z).
    { rewrite <- Z.pow_add_r by lia. f_equal. lia. }
    rewrite H52, H53.
    assert (0 < 2 ^ (53 - digits a))%Z by (apply Z.pow_pos_nonneg; lia).
    nia. }
  unfold Double.prec, Double.emax.
  rewrite (binary_round_aux_exact false mz (digits a - 53) Hdz) by lia.
  exists mz, (digits a - 53)%Z.
  split; [reflexivity|]. split; [exact Hdz|]. split; [lia|].
  rewrite Hm, inject_Z_mult.
  replace (0 - (digits a - 53))%Z with (53 - digits a)%Z by lia.
  rewrite <- bpow_Z by lia.
  rewrite <- Qmult_assoc, <- bpow_add.
  replace (53 - digits a + (digits a - 53))%Z with 0%Z by lia.
  unfold bpow. simpl. ring.
Qed.

(** The product of two positive normal doubles is their exact product
    within one part in [2^53]. *)
Lemma mul_spec (mx my : positive) (ex ey : Z) :
  digits mx = 53%Z -> digits my = 53%Z -> (-500 <= ex + ey <= 500)%Z ->
  exists m e,
    Double.mul (S754_finite false mx ex) (S754_finite false my ey)
    = S754_finite false m e
    /\ digits m = 53%Z
    /\ (ex + ey + 52 <= e <= ex + ey + 54)%Z
    /\ (inject_Z (Zpos mx) * bpow ex) * (inject_Z (Zpos my) * bpow ey) * (1 - unit_roundoff)
       <= inject_Z (Zpos m) * bpow e
    /\ inject_Z (Zpos m) * bpow e
       <= (inject_Z (Zpos mx) * bpow ex) * (inject_Z (Zpos my) * bpow ey) * (1 + unit_roundoff).
Proof.
  intros Hx Hy He. unfold Double.mul, SFmul. cbn [xorb].
  pose proof (digits_mul mx my) as Hd. rewrite Hx, Hy in Hd.
  destruct (binary_round_aux_spec false (mx * my) (ex + ey)) as (m & e & Hr & Hdm & Hrange & Herr);
    [lia | lia |].
  unfold Double.prec, Double.emax. rewrite Hr.
  exists m, e. split; [reflexivity|]. split; [exact Hdm|]. split; [lia|].
  destruct (relative_error (Zpos (mx * my)) (Zpos m) (ex + ey) e ltac:(lia) Herr) as [H1 H2].
  assert (Hprod : inject_Z (Zpos (mx * my)) * bpow (ex + ey)
                  == (inject_Z (Zpos mx) * bpow ex) * (inject_Z (Zpos my) * bpow ey)).
  { rewrite Pos2Z.inj_mul, inject_Z_mult, bpow_add. ring. }
  rewrite Hprod in H1, H2. split; assumption.
Qed.

(** The sum of two positive normal doubles is their exact sum within
    one part in [2^53]. *)
Lemma add_spec (mx my : positive) (ex ey : Z) :
  digits mx = 53%Z -> digits my = 53%Z ->
  (-500 <= ex <= 500)%Z -> (-500 <= ey <= 500)%Z ->
  exists m e,
    Double.add (S754_finite false mx ex) (S754_finite false my ey)
    = S754_finite false m e
    /\ digits m = 53%Z
    /\ (Z.max ex ey <= e <= Z.max ex ey + 2)%Z
    /\ (inject_Z (Zpos mx) * bpow ex + inject_Z (Zpos my) * bpow ey) * (1 - unit_roundoff)
       <= inject_Z (Zpos m) * bpow e
    /\ inject_Z (Zpos m) * bpow e
       <= (inject_Z (Zpos mx) * bpow ex + inject_Z (Zpos my) * bpow ey) * (1 + unit_roundoff).
Proof.
  intros Hx Hy Hex Hey. unfold Double.add, SFadd. cbn [cond_Zopp].
  set (ez := Z.min ex ey).
  destruct (shl_align_spec mx ex ez ltac:(unfold ez; lia)) as [Hmx _].
  destruct (shl_align_spec my ey ez ltac:(unfold ez; lia)) as [Hmy _].
  remember (fst (shl_align mx ex ez)) as ax. remember (fst (shl_align my ey ez)) as ay.
  change (Zpos ax + Zpos ay)%Z with (Zpos (ax + ay)).
  unfold binary_normalize, binary_round.
  change (Zpos (digits2_pos (ax + ay))) with (digits (ax + ay)).
  pose proof (digits_spec mx) as [Xlo Xhi]. pose proof (digits_spec my) as [Ylo Yhi].
  rewrite Hx in Xlo, Xhi. rewrite Hy in Ylo, Yhi.
  change (53 - 1)%Z with 52%Z in Xlo, Ylo.
  assert (Hsum : Zpos (ax + ay) = (Zpos mx * 2 ^ (ex - ez) + Zpos my * 2 ^ (ey - ez))%Z)
    by (rewrite Pos2Z.inj_add, Hmx, Hmy; reflexivity).
  assert (Hpx : (0 < 2 ^ (ex - ez))%Z) by (apply Z.pow_pos_nonneg; unfold ez; lia).
  assert (Hpy : (0 < 2 ^ (ey - ez))%Z) by (apply Z.pow_pos_nonneg; unfold ez; lia).
  set (top := Z.max ex ey).
  assert (Hlo : (2 ^ (52 + (top - ez)) <= Zpos (ax + ay))%Z).
  { rewrite Hsum, Z.pow_add_r by (unfold top, ez; lia).
    destruct (Z.max_spec ex ey) as [[_ Ht]|[_ Ht]]; fold top in Ht; rewrite Ht; nia. }
  assert (Hhi : (Zpos (ax + ay) < 2 ^ (54 + (top - ez)))%Z).
  { rewrite Hsum.
    assert (H54 : (2 ^ (54 + (top - ez)) = 2 * (2 ^ 53 * 2 ^ (top - ez)))%Z).
    { replace (54 + (top - ez))%Z with (1 + (53 + (top - ez)))%Z by lia.
      rewrite !Z.pow_add_r by (unfold top, ez; lia). reflexivity. }
    rewrite H54.
    assert (Hmono : forall k, (ez <= k <= top)%Z -> (2 ^ (k - ez) <= 2 ^ (top - ez))%Z).
    { intros k Hk. apply Z.pow_le_mono_r; lia. }
    pose proof (Hmono ex ltac:(unfold top, ez; lia)).
    pose proof (Hmono ey ltac:(unfold top, ez; lia)).
    nia. }
  assert (Hdlo : (52 + (top - ez) < digits (ax + ay))%Z) by (apply digits_lower; exact Hlo).
  assert (Hdhi : (digits (ax + ay) <= 54 + (top - ez))%Z)
    by (apply digits_upper; [unfold top, ez; lia | exact Hhi]).
  assert (Hfexp : fexp Double.prec Double.emax (digits (ax + ay) + ez)
                  = (digits (ax + ay) + ez - 53)%Z)
    by (unfold fexp, emin, Double.prec, Double.emax, top, ez in *; lia).
  rewrite Hfexp, shl_align_none by (unfold top, ez in *; lia).
  destruct (binary_round_aux_spec false (ax + ay) ez) as (m & e & Hr & Hdm & Hrange & Herr);
    [unfold top, ez in *; lia | unfold top, ez in *; lia |].
  unfold Double.prec, Double.emax. rewrite Hr.
  exists m, e. split; [reflexivity|]. split; [exact Hdm|].
  split; [unfold top, ez in *; lia|].
  destruct (relative_error (Zpos (ax + ay)) (Zpos m) ez e ltac:(lia) Herr) as [H1 H2].
  assert (Hval : inject_Z (Zpos (ax + ay)) * bpow ez
                 == inject_Z (Zpos mx) * bpow ex + inject_Z (Zpos my) * bpow ey).
  { rewrite Hsum, inject_Z_plus, !inject_Z_mult.
    rewrite <- !bpow_Z by (unfold ez; lia).
    rewrite Qmult_plus_distr_l, <- !Qmult_assoc, <- !bpow_add.
    replace (ex - ez + ez)%Z with ex by lia. replace (ey - ez + ez)%Z with ey by lia.
    reflexivity. }
  rewrite Hval in H1, H2. split; assumption.
Qed.

(** [Math.round] gives [z] on every positive double from [z - 1/2] up
    to, not including, [z + 1/2]. *)
Lemma Math_round_spec (m : positive) (e z : Z) :
  inject_Z z - (1 # 2) <= inject_Z (Zpos m) * bpow e ->
  inject_Z (Zpos m) * bpow e < inject_Z z + (1 # 2) ->
  Math_round (S754_finite false m e) = z.
Proof.
  intros Hlo Hhi. unfold Math_round. cbn [cond_Zopp].
  destruct (Z.leb_spec 0 e) as [He|He].
  - rewrite bpow_Z in Hlo, Hhi by exact He.
    rewrite <- inject_Z_mult in Hlo, Hhi.
    remember (Zpos m * 2 ^ e)%Z as n.
    assert (H1 : inject_Z (2 * z) <= inject_Z (2 * n + 1)).
    { rewrite inject_Z_plus, !inject_Z_mult.
      change (inject_Z 2) with (2 # 1). change (inject_Z 1) with (1 # 1). lra. }
    assert (H2 : inject_Z (2 * n) < inject_Z (2 * z + 1)).
    { rewrite inject_Z_plus, !inject_Z_mult.
      change (inject_Z 2) with (2 # 1). change (inject_Z 1) with (1 # 1). lra. }
    rewrite <- Zle_Qle in H1. rewrite <- Zlt_Qlt in H2. lia.
  - set (K := (2 ^ (- e))%Z).
    assert (HK : (0 < K)%Z) by (apply Z.pow_pos_nonneg; lia).
    assert (HB : bpow e * inject_Z K == 1).
    { unfold K. rewrite <- bpow_Z by lia. rewrite <- bpow_add.
      replace (e + - e)%Z with 0%Z by lia. reflexivity. }
    assert (HKq : 0 < inject_Z K).
    { change 0 with (inject_Z 0). rewrite <- Zlt_Qlt. exact HK. }
    assert (H1 : inject_Z (2 * (z * K)) <= inject_Z (2 * Zpos m + K)).
    { assert (Hs : (inject_Z z - (1 # 2)) * inject_Z K
                   <= inject_Z (Zpos m) * bpow e * inject_Z K)
        by (apply Qmult_le_compat_r; [exact Hlo | apply Qlt_le_weak; exact HKq]).
      rewrite <- Qmult_assoc, HB in Hs.
      rewrite inject_Z_plus, !inject_Z_mult.
      remember (inject_Z z * inject_Z K) as zk.
      assert (Hzk : (inject_Z z - (1 # 2)) * inject_Z K == zk - (1 # 2) * inject_Z K)
        by (subst zk; ring).
      rewrite Hzk in Hs. change (inject_Z 2) with (2 # 1). lra. }
    assert (H2 : inject_Z (2 * Zpos m + K) < inject_Z (2 * (z * K) + 2 * K)).
    { assert (Hs : inject_Z (Zpos m) * bpow e * inject_Z K
                   < (inject_Z z + (1 # 2)) * inject_Z K)
        by (apply Qmult_lt_compat_r; [exact HKq | exact Hhi]).
      rewrite <- Qmult_assoc, HB in Hs.
      rewrite !inject_Z_plus, !inject_Z_mult.
      remember (inject_Z z * inject_Z K) as zk.
      assert (Hzk : (inject_Z z + (1 # 2)) * inject_Z K == zk + (1 # 2) * inject_Z K)
        by (subst zk; ring).
      rewrite Hzk in Hs. change (inject_Z 2) with (2 # 1). lra. }
    rewrite <- Zle_Qle in H1. rewrite <- Zlt_Qlt in H2.
    assert (Hpow : (2 ^ (1 - e) = 2 * K)%Z).
    { unfold K. replace (1 - e)%Z with (1 + - e)%Z by lia.
      rewrite Z.pow_add_r by lia. reflexivity. }
    rewrite Hpow. fold K. symmetry.
    apply (Z.div_unique _ _ _ (2 * Zpos m + K - z * (2 * K))); [left; nia | nia].
Qed.

(** The double 100 is [7036874417766400 / 2^46]. *)
Lemma hundred : Double.of_Z 100 = S754_finite false 7036874417766400 (-46).
Proof. reflexivity. Qed.

Lemma hundred_value : inject_Z 7036874417766400 * bpow (-46) == 100 # 1.
Proof. reflexivity. Qed.

(** The literal [0.02] is the quotient of 2 by 100, correctly rounded. *)
Lemma two_hundredths_nearest :
  Double.div (Double.of_Z 2) (Double.of_Z 100) = Double.two_hundredths.
Proof. vm_compute. reflexivity. Qed.

Lemma two_hundredths_value :
  inject_Z 5764607523034235 * bpow (-58) == 5764607523034235 # 288230376151711744.
Proof. reflexivity. Qed.

(** Up to [10^13] the three roundings of the charge, of the fee, of the
    sum and of the product by 100, stay under half a cent together. *)
Lemma charge_cents_exact (a : Z) :
  (0 <= a <= 10 ^ 13)%Z -> charge_cents a = (102 * a)%Z.
Proof.
  intros Ha. destruct (Z.eq_dec a 0%Z) as [->|Hnz]; [reflexivity|].
  change (10 ^ 13)%Z with 10000000000000%Z in Ha.
  destruct (of_Z_spec a) as (mA & eA & HA & HdA & HeA & HvA); [rewrite pow2_53; lia|].
  unfold charge_cents, fee_of. rewrite HA, hundred. unfold Double.two_hundredths.
  destruct (mul_spec mA 5764607523034235 eA (-58) HdA eq_refl ltac:(lia))
    as (mF & eF & HF & HdF & HeF & HF1 & HF2).
  rewrite HF.
  destruct (add_spec mA mF eA eF HdA HdF ltac:(lia) ltac:(lia))
    as (mS & eS & HS & HdS & HeS & HS1 & HS2).
  rewrite HS.
  destruct (mul_spec mS 7036874417766400 eS (-46) HdS eq_refl ltac:(lia))
    as (mT & eT & HT & HdT & HeT & HT1 & HT2).
  rewrite HT.
  rewrite HvA, two_hundredths_value in HF1, HF2. rewrite HvA in HS1, HS2.
  rewrite hundred_value in HT1, HT2.
  assert (Hlo : 1 # 1 <= inject_Z a).
  { change (1 # 1) with (inject_Z 1). rewrite <- Zle_Qle. lia. }
  assert (Hhi : inject_Z a <= 10000000000000 # 1).
  { change (10000000000000 # 1) with (inject_Z 10000000000000). rewrite <- Zle_Qle. lia. }
  remember (inject_Z a) as qa. remember (inject_Z (Zpos mF) * bpow eF) as vF.
  remember (inject_Z (Zpos mS) * bpow eS) as vS.
  unfold unit_roundoff in *.
  apply Math_round_spec; rewrite inject_Z_mult, <- Heqqa;
    change (inject_Z 102) with (102 # 1);
    remember (inject_Z (Zpos mT) * bpow eT) as vT; lra.
Qed.

(** The product of a whole amount up to [10^13] by 100 rounds to
    itself. *)
Lemma refund_cents_exact (a : Z) :
  (0 <= a <= 10 ^ 13)%Z -> refund_cents a = (100 * a)%Z.
Proof.
  intros Ha. destruct (Z.eq_dec a 0%Z) as [->|Hnz]; [reflexivity|].
  change (10 ^ 13)%Z with 10000000000000%Z in Ha.
  destruct (of_Z_spec a) as (mA & eA & HA & HdA & HeA & HvA); [rewrite pow2_53; lia|].
  unfold refund_cents. rewrite HA, hundred.
  destruct (mul_spec mA 7036874417766400 eA (-46) HdA eq_refl ltac:(lia))
    as (mT & eT & HT & HdT & HeT & HT1 & HT2).
  rewrite HT. rewrite HvA, hundred_value in HT1, HT2.
  assert (Hlo : 1 # 1 <= inject_Z a).
  { change (1 # 1) with (inject_Z 1). rewrite <- Zle_Qle. lia. }
  assert (Hhi : inject_Z a <= 10000000000000 # 1).
  { change (10000000000000 # 1) with (inject_Z 10000000000000). rewrite <- Zle_Qle. lia. }
  remember (inject_Z a) as qa. unfold unit_roundoff in *.
  apply Math_round_spec; rewrite inject_Z_mult, <- Heqqa;
    change (inject_Z 100) with (100 # 1);
    remember (inject_Z (Zpos mT) * bpow eT) as vT; lra.
Qed.

End DoubleValues.

Section PaymentExtras.
Import PaymentService Samples.

(** X8.  The money that goes to Stripe.  The payment service computes
    in doubles: the fee is [amount * 0.02] rounded, the charge
    [Math.round((amount + fee) * 100)].  For a whole amount from 0 to
    [10^13] the roundings cancel: a card payment charges exactly 102
    cents per unit, the amount and the fee of 2%, and the refund of a
    card payment asks for exactly 100 cents per unit, the amount without
    the fee.  Further up they do not: for 300000000000001 the charge is
    30600000000000100 cents, two short of 102 per unit. *)
Theorem stripe_amounts (env : Env) (options : PaymentOptions) (details : PaymentDetails)
    (pid : string) (amt : Z) :
  (po_paymentMethod options = "credit_card" ->
   po_paymentDetails options = Some details ->
   0 <= po_amount options <= 10 ^ 13 ->
   fst (processPayment env options)
   = [EvProcessPayment (po_amount options) "credit_card";
      EvStripeCharge (102 * po_amount options)])
  /\ (String.prefix "pi_" pid = true ->
      0 <= amt <= 10 ^ 13 ->
      fst (processRefund env pid amt)
      = [EvProcessRefund pid amt; EvStripeRefund pid (100 * amt)])
  /\ charge_cents 300000000000001 = 30600000000000100.
Proof.
  split; [|split].
  - intros Hm Hd Ha. unfold processPayment. rewrite Hm, Hd.
    rewrite (charge_cents_exact _ Ha).
    destruct (stripe_paymentIntents_create env) as [id status|msg]; reflexivity.
  - intros Hpi Ha. unfold processRefund. rewrite Hpi, (refund_cents_exact _ Ha).
    destruct (stripe_refunds_create env); reflexivity.
  - vm_compute. reflexivity.
Qed.

Lemma stripe_amounts_witness :
  fst (processPayment card_succeeds
         (InvestmentController.payment_options
            (invest "p1" alice 500 "credit_card" None) tower))
  = [EvProcessPayment 500 "credit_card"; EvStripeCharge 51000]
  /\ fst (processRefund card_succeeds "pi_1" 500)
     = [EvProcessRefund "pi_1" 500; EvStripeRefund "pi_1" 50000].
Proof.
  destruct (stripe_amounts card_succeeds
              (InvestmentController.payment_options
                 (invest "p1" alice 500 "credit_card" None) tower)
              {| paymentMethodId := Some "pm_1" |} "pi_1" 500) as (Hpay & Hrefund & _).
  split; [apply Hpay; [reflexivity | reflexivity | simpl; lia]
         | apply Hrefund; [reflexivity | simpl; lia]].
Defined.

(** X9.  The payment service reports [succeeded] only for a card payment
    that Stripe itself reported as succeeded, under the identifier
    Stripe gave; every other result is [pending]. *)
Theorem processPayment_success_is_stripes env options evs pr :
  processPayment env options = (evs, inl pr) ->
  (pr_status pr = "succeeded"
   /\ po_paymentMethod options = "credit_card"
   /\ stripe_paymentIntents_create env = StripeObject (pr_paymentId pr) "succeeded")
  \/ pr_status pr = "pending".
Proof.
  unfold processPayment.
  destruct (String.eqb_spec (po_paymentMethod options) "credit_card") as [Hm|_].
  - destruct (po_paymentDetails options); [|discriminate].
    destruct (stripe_paymentIntents_create env) as [id status|msg]; [|discriminate].
    destruct (String.eqb_spec status "succeeded") as [Hok|_];
      intros H; inversion H; subst; cbn; [left | right]; auto.
  - repeat match goal with
           | |- context [if ?b then _ else _] => destruct b
           end; intros H; inversion H; subst; right; reflexivity.
Qed.

Lemma processPayment_success_is_stripes_witness :
  exists evs pr,
    processPayment card_processing
      (InvestmentController.payment_options
         (invest "p1" alice 500 "credit_card" None) tower) = (evs, inl pr)
    /\ pr_status pr = "pending".
Proof.
  eexists _, _. split; [reflexivity|].
  destruct (processPayment_success_is_stripes card_processing
              (InvestmentController.payment_options
                 (invest "p1" alice 500 "credit_card" None) tower) _ _ eq_refl)
    as [(_ & _ & Habs) | Hpending]; [discriminate Habs | exact Hpending].
Defined.

Lemma append_literal (c : ascii) (a b : string) :
  String c a ++ b = String c (a ++ b).
Proof. reflexivity. Qed.

Lemma prefix_cons_ne (a b : ascii) (s t : string) :
  a <> b -> String.prefix (String a s) (String b t) = false.
Proof. intros Hne. simpl. destruct (ascii_dec a b); [contradiction | reflexivity]. Qed.

Lemma prefix_cons_eq (a : ascii) (s t : string) :
  String.prefix (String a s) (String a t) = String.prefix s t.
Proof. simpl. destruct (ascii_dec a a); [reflexivity | contradiction]. Qed.

Lemma prefix_empty (s : string) : String.prefix EmptyString s = true.
Proof. destruct s; reflexivity. Qed.

(** X10.  Every payment identifier the service issues for a bank
    transfer, a wire or a crypto payment is one its refund accepts: at
    any later time and for any amount the refund is granted as pending,
    without a call to Stripe. *)
Theorem offline_payment_is_refundable env options evs pr :
  In (po_paymentMethod options) ["bank_transfer"; "wire"; "crypto"] ->
  processPayment env options = (evs, inl pr) ->
  forall env' amt,
    processRefund env' (pr_paymentId pr) amt
    = ([EvProcessRefund (pr_paymentId pr) amt],
       inl {| rr_refundId := "refund_" ++ show_Z (now env'); rr_status := "pending" |}).
Proof.
  unfold processPayment.
  intros [H | [H | [H | []]]]; rewrite <- H; cbn; intros Hrun; inversion Hrun; subst;
    intros env' amt; unfold processRefund; cbn [pr_paymentId];
    rewrite !append_literal;
    repeat (rewrite prefix_cons_ne by discriminate);
    repeat rewrite prefix_cons_eq; rewrite prefix_empty; reflexivity.
Qed.

Lemma offline_payment_is_refundable_witness :
  processRefund card_declined "bank_1000" 500
  = ([EvProcessRefund "bank_1000" 500],
     inl {| rr_refundId := "refund_1000"; rr_status := "pending" |}).
Proof.
  exact (offline_payment_is_refundable card_succeeds
           (InvestmentController.payment_options
              (invest "p1" alice 500 "bank_transfer" None) tower)
           _ _ (or_introl eq_refl) eq_refl card_declined 500).
Defined.

End PaymentExtras.

Section PaginateArrayExtras.
Import Helpers Reference.

Lemma firstn_plus {A} (a b : nat) (xs : list A) :
  firstn (a + b) xs = (firstn a xs ++ firstn b (skipn a xs))%list.
Proof.
  revert xs. induction a as [|a IH]; intros xs; [reflexivity|].
  destruct xs as [|x xs]; simpl.
  - rewrite firstn_nil. reflexivity.
  - rewrite IH. reflexivity.
Qed.

Lemma firstn_capped {A} (a : nat) (xs : list A) :
  firstn (Nat.min a (length xs)) xs = firstn a xs.
Proof.
  destruct (Nat.le_ge_cases a (length xs)) as [H|H].
  - rewrite Nat.min_l by exact H. reflexivity.
  - rewrite Nat.min_r by exact H.
    rewrite !firstn_all2 by lia. reflexivity.
Qed.

(** Page [p >= 1] of [l >= 1] a page is the [l] items after the first
    [l * (p - 1)]. *)
Lemma slice_window {A} (items : list A) (p l : Z) :
  1 <= p -> 1 <= l ->
  Js.slice items (l * (p - 1)) (l * p)
  = firstn (Z.to_nat l) (skipn (Z.to_nat l * (Z.to_nat p - 1)) items).
Proof.
  intros Hp Hl. unfold Js.slice.
  set (n := Z.of_nat (length items)).
  assert (H0 : 0 <= l * (p - 1)) by nia.
  destruct (Z.ltb_spec (l * (p - 1)) 0) as [?|_]; [lia|].
  destruct (Z.ltb_spec (l * p) 0) as [?|_]; [nia|].
  replace (Z.to_nat l * (Z.to_nat p - 1))%nat with (Z.to_nat (l * (p - 1))) by nia.
  destruct (Z_lt_le_dec (l * (p - 1)) n) as [Hin|Hout].
  - rewrite (Z.min_l (l * (p - 1)) n) by lia.
    rewrite <- (firstn_capped (Z.to_nat l)). rewrite length_skipn.
    f_equal. unfold n in *. lia.
  - rewrite (Z.min_r (l * (p - 1)) n) by lia.
    rewrite !skipn_all2 by (unfold n in *; lia).
    rewrite !firstn_nil. reflexivity.
Qed.

Lemma pages_firstn {A} (items : list A) (l : Z) (t : nat) :
  1 <= l ->
  pages items l t = firstn (t * Z.to_nat l) items.
Proof.
  intros Hl. unfold pages. induction t as [|t IH]; [reflexivity|].
  rewrite seq_S, List.map_app, List.concat_app, IH. cbn [List.map List.concat].
  rewrite app_nil_r. unfold paginateArray. cbn [pg_data].
  rewrite slice_window by lia.
  replace (Z.to_nat (Z.of_nat (1 + t)) - 1)%nat with t by lia.
  replace (S t * Z.to_nat l)%nat with (t * Z.to_nat l + Z.to_nat l)%nat by lia.
  rewrite firstn_plus. f_equal. f_equal. f_equal. lia.
Qed.

(** X11.  [paginateArray] cuts a list into pages that tile it: with
    [perPage >= 1], [totalPages] is a number [t], the pages [1 .. t] one
    after the other are the list, every page holds at most [perPage]
    items, and every page after [t] is empty. *)
Theorem paginateArray_pages_tile {A} (items : list A) (perPage : Z) :
  1 <= perPage ->
  exists t : Z,
    pg_totalPages (paginateArray items (Some 1) (Some perPage)) = Js.Num t
    /\ 0 <= t
    /\ pages items perPage (Z.to_nat t) = items
    /\ (forall p, 1 <= p ->
          Z.of_nat (length (pg_data (paginateArray items (Some p) (Some perPage))))
          <= perPage)
    /\ (forall p, t < p ->
          pg_data (paginateArray items (Some p) (Some perPage)) = []).
Proof.
  intros Hl.
  destruct (ceil_div_spec (Z.of_nat (length items)) perPage) as (t & Ht & Hb & _);
    [lia | exact Hl |].
  exists t. split; [exact Ht|].
  assert (Ht0 : 0 <= t) by nia.
  split; [exact Ht0|]. split.
  - rewrite pages_firstn by exact Hl. apply firstn_all2. nia.
  - split.
    + intros p Hp. unfold paginateArray. cbn [pg_data].
      rewrite slice_window by lia. rewrite length_firstn. lia.
    + intros p Hp. unfold paginateArray. cbn [pg_data].
      rewrite slice_window by lia. rewrite skipn_all2; [apply firstn_nil|]. nia.
Qed.

Lemma paginateArray_pages_tile_witness :
  pg_totalPages (paginateArray (seq 1 25) (Some 1) (Some 10)) = Js.Num 3
  /\ pages (seq 1 25) 10 3 = seq 1 25
  /\ pg_data (paginateArray (seq 1 25) (Some 4) (Some 10)) = [].
Proof.
  destruct (paginateArray_pages_tile (seq 1 25) 10 ltac:(lia))
    as (t & Ht & _ & Htile & _ & Hpast).
  assert (H3 : t = 3) by (vm_compute in Ht; congruence).
  subst t. split; [exact Ht|]. split; [exact Htile|]. apply Hpast. lia.
Defined.

(** X12.  The pages [paginateArray] does not know.  Page 0 is empty,
    where the list middleware serves page 1; and with [perPage = 0] every
    page is empty and [totalPages] is no number: [NaN] for an empty
    list, [Infinity] otherwise. *)
Theorem paginateArray_degenerate {A} (items : list A) (page : Z) (perPage : Z) :
  (1 <= perPage -> pg_data (paginateArray items (Some 0) (Some perPage)) = [])
  /\ pg_data (paginateArray items (Some page) (Some 0)) = []
  /\ pg_totalPages (paginateArray items (Some page) (Some 0))
     = match items with [] => Js.NaN | _ => Js.Infinity end.
Proof.
  split; [|split].
  - intros Hl. unfold paginateArray, Js.slice. cbn [pg_data].
    replace (perPage * (0 - 1)) with (- perPage) by lia.
    replace (perPage * 0) with 0 by lia.
    destruct (Z.ltb_spec (- perPage) 0) as [_|?]; [|lia].
    destruct (Z.ltb_spec 0 0) as [?|_]; [lia|].
    replace (Z.to_nat (Z.min 0 (Z.of_nat (length items))
                       - Z.max (Z.of_nat (length items) + - perPage) 0)) with 0%nat by lia.
    reflexivity.
  - unfold paginateArray, Js.slice. cbn [pg_data].
    rewrite !Z.mul_0_l. cbn [Z.ltb Z.compare].
    rewrite Z.min_l by lia. reflexivity.
  - unfold paginateArray, Js.ceil_div. cbn [pg_totalPages]. simpl.
    destruct items; reflexivity.
Qed.

End PaginateArrayExtras.

Section PaginateArrayExamples.
Import Helpers.

Lemma paginateArray_degenerate_witness :
  pg_data (paginateArray (seq 1 25) (Some 0) (Some 10)) = []
  /\ pg_totalPages (paginateArray (seq 1 25) (Some 2) (Some 0)) = Js.Infinity.
Proof.
  destruct (paginateArray_degenerate (seq 1 25) 2 10) as (Hzero & _ & Htotal).
  split; [apply Hzero; lia | exact Htotal].
Defined.

End PaginateArrayExamples.

Section QueryTextExtras.
Import AdvancedResults Reference.

Lemma split_cons (sep : ascii) (s : string) :
  exists part others, Js.split sep s = part :: others.
Proof.
  induction s as [|c rest (part & others & IH)]; simpl.
  - eexists _, _. reflexivity.
  - rewrite IH. destruct (Ascii.eqb c sep); eexists _, _; reflexivity.
Qed.

Lemma concat_cons_char (sep : string) (c : ascii) (part : string)
    (others : list string) :
  String.concat sep (String c part :: others)
  = String c (String.concat sep (part :: others)).
Proof. destruct others; reflexivity. Qed.

Lemma join_split_replace (a b : ascii) (s : string) :
  Js.join (String b EmptyString) (Js.split a s) = replace_char a b s.
Proof.
  unfold Js.join. induction s as [|c rest IH]; [reflexivity|].
  simpl. destruct (split_cons a rest) as (part & others & Hsplit).
  rewrite Hsplit in *. destruct (Ascii.eqb c a).
  - cbn [String.concat]. rewrite <- IH. reflexivity.
  - rewrite concat_cons_char, IH. reflexivity.
Qed.

Lemma replace_char_same (a : ascii) (s : string) : replace_char a a s = s.
Proof.
  induction s as [|c rest IH]; simpl; [reflexivity|].
  rewrite IH. destruct (Ascii.eqb_spec c a) as [->|_]; reflexivity.
Qed.

Lemma replace_char_length (a b : ascii) (s : string) :
  String.length (replace_char a b s) = String.length s.
Proof. induction s as [|c rest IH]; simpl; [reflexivity | rewrite IH; reflexivity]. Qed.

(** X13.  The field lists of [select] and [sort].  Splitting at the
    commas and joining with spaces, as the middleware does, rewrites
    every comma into a space and nothing else: the text keeps its length
    and its other characters, empty fields included; joined with commas
    again it is the text that was split. *)
Theorem select_fields_text (s : string) :
  Js.join " " (Js.split "," s) = replace_char "," " " s
  /\ String.length (Js.join " " (Js.split "," s)) = String.length s
  /\ Js.join "," (Js.split "," s) = s.
Proof.
  split; [apply join_split_replace|].
  split.
  - rewrite join_split_replace. apply replace_char_length.
  - rewrite (join_split_replace "," "," s). apply replace_char_same.
Qed.

(** [parseInt] skips a no-break space as it skips a space. *)
Lemma parseInt10_no_break_space :
  Js.parseInt10 (String (ascii_of_nat 160) "2") = Some 2
  /\ Js.parseInt10 (String " " "2") = Some 2.
Proof. split; reflexivity. Qed.

Section Model.

Variable Doc : Type.
Variable collection : list Doc.
Variable refusal : string -> option string -> string -> option string.
Variable matches : string -> Doc -> bool.
Variable select_fields : string -> Doc -> Doc.
Variable before : string -> Doc -> Doc -> bool.
Variable populate : Doc -> Doc.

(** X14.  A page the middleware cannot read as a positive or negative
    number ([page=0], [page=abc], an empty [page]) is served as page 1:
    the answer is the one to [page=1] with the rest of the query as it
    is. *)
Theorem advancedResults_page_fallback (s : string) (rest : Query) :
  Js.number_or (Js.parseInt10 s) 1 = 1 ->
  advancedResults Doc collection refusal matches select_fields before populate
    (("page", QStr s) :: rest)
  = advancedResults Doc collection refusal matches select_fields before populate
      (("page", QStr "1") :: rest).
Proof.
  intros Hpage. unfold advancedResults.
  assert (Hq : queryStr (("page", QStr s) :: rest)
               = queryStr (("page", QStr "1") :: rest)) by reflexivity.
  rewrite Hq.
  assert (Hsel : param "select" (("page", QStr s) :: rest)
                 = param "select" (("page", QStr "1") :: rest)) by reflexivity.
  assert (Hsort : param "sort" (("page", QStr s) :: rest)
                  = param "sort" (("page", QStr "1") :: rest)) by reflexivity.
  assert (Hlimit : parse_number "limit" (("page", QStr s) :: rest)
                   = parse_number "limit" (("page", QStr "1") :: rest)) by reflexivity.
  assert (Hp : Js.number_or (parse_number "page" (("page", QStr s) :: rest)) 1
               = Js.number_or (parse_number "page" (("page", QStr "1") :: rest)) 1).
  { unfold parse_number, lookup. cbn [List.find fst snd String.eqb Ascii.eqb Bool.eqb
                                        to_String].
    rewrite Hpage. reflexivity. }
  rewrite Hsel, Hsort, Hlimit, Hp. reflexivity.
Qed.

End Model.

Lemma advancedResults_page_fallback_witness :
  advancedResults Z (List.map Z.of_nat (seq 1 25)) (fun _ _ _ => None)
    (fun _ _ => true)
    (fun _ d => d) (fun _ => Z.leb) (fun d => d)
    [("page", QStr "0"); ("limit", QStr "10")]
  = advancedResults Z (List.map Z.of_nat (seq 1 25)) (fun _ _ _ => None)
    (fun _ _ => true)
      (fun _ d => d) (fun _ => Z.leb) (fun d => d)
      [("page", QStr "1"); ("limit", QStr "10")]
  /\ advancedResults Z (List.map Z.of_nat (seq 1 25)) (fun _ _ _ => None)
    (fun _ _ => true)
       (fun _ d => d) (fun _ => Z.leb) (fun d => d)
       [("page", QStr "abc"); ("limit", QStr "10")]
     = advancedResults Z (List.map Z.of_nat (seq 1 25)) (fun _ _ _ => None)
    (fun _ _ => true)
         (fun _ d => d) (fun _ => Z.leb) (fun d => d)
         [("page", QStr "1"); ("limit", QStr "10")].
Proof.
  split.
  - apply (advancedResults_page_fallback Z _ _ _ _ _ _ "0" [("limit", QStr "10")]).
    reflexivity.
  - apply (advancedResults_page_fallback Z _ _ _ _ _ _ "abc" [("limit", QStr "10")]).
    reflexivity.
Defined.

End QueryTextExtras.

Section ErrorHandlerExtras.
Import ErrorHandler PaymentService InvestmentController Ledger Samples.

Lemma string_or_filled (s fallback : string) :
  fallback <> EmptyString -> string_or s fallback <> EmptyString.
Proof. intros Hf. destruct s; simpl; [exact Hf | discriminate]. Qed.

Lemma number_or_nonzero (n : option Z) (fallback : Z) :
  fallback <> 0 -> Js.number_or n fallback <> 0.
Proof.
  intros Hf. destruct n as [[|v|v]|]; simpl; try exact Hf; discriminate.
Qed.

(** X15.  What [errorHandler] sends.  The body always says
    [success: false] with a message that is never empty, and the status
    is never 0.  A Mongoose validation error is answered 400 with its
    messages joined by commas, whatever else the error carries; short of
    that a duplicate key (code 11000) is answered 400, and short of that
    a cast error 404.  An [ErrorResponse] with a status and a message
    goes out with exactly these. *)
Theorem errorHandler_answer (err : JsError) :
  eb_success (snd (errorHandler err)) = false
  /\ (0 <? String.length (eb_error (snd (errorHandler err))))%nat = true
  /\ Z.eqb (fst (errorHandler err)) 0 = false
  /\ (name err = "ValidationError" ->
        errorHandler err
        = (400, {| eb_success := false;
                   eb_error := string_or (Js.join "," (errors err)) "Server Error" |}))
  /\ (name err <> "ValidationError" -> code err = Some 11000 ->
        errorHandler err
        = (400, {| eb_success := false; eb_error := "Duplicate field value entered" |}))
  /\ (name err = "CastError" -> code err <> Some 11000 ->
        errorHandler err
        = (404, {| eb_success := false; eb_error := "Resource not found" |}))
  /\ (forall e : ErrorResponse,
        statusCode e <> 0 -> message e <> EmptyString ->
        errorHandler (of_ErrorResponse e)
        = (statusCode e, {| eb_success := false; eb_error := message e |})).
Proof.
  split; [reflexivity|]. split; [|split; [|split; [|split; [|split]]]].
  - unfold errorHandler. cbn [snd eb_error].
    match goal with
    | |- context [string_or ?s ?f] =>
        pose proof (string_or_filled s f ltac:(discriminate)) as H;
        destruct (string_or s f); [contradiction | reflexivity]
    end.
  - unfold errorHandler. cbn [fst].
    apply Z.eqb_neq. apply number_or_nonzero. discriminate.
  - intros Hn. unfold errorHandler. rewrite Hn. reflexivity.
  - intros Hn Hc. unfold errorHandler. rewrite Hc.
    apply String.eqb_neq in Hn. rewrite Hn. reflexivity.
  - intros Hn Hc. unfold errorHandler. rewrite Hn. cbn.
    destruct (code err) as [[|v|v]|]; try reflexivity.
    repeat (destruct v as [v|v|]; try reflexivity).
    exfalso. apply Hc. reflexivity.
  - intros e Hs Hm. unfold errorHandler, of_ErrorResponse. cbn.
    destruct e as [msg st]. cbn in *.
    destruct st as [|v|v]; [contradiction | |];
      (destruct msg; [contradiction | reflexivity]).
Qed.

Lemma errorHandler_answer_witness :
  errorHandler {| name := "ValidationError"; code := Some 11000;
                  e_message := "Investment validation failed";
                  e_statusCode := None;
                  errors := ["Please add an amount"; "Please add a method"] |}
  = (400, {| eb_success := false;
             eb_error := "Please add an amount,Please add a method" |})
  /\ errorHandler (of_ErrorResponse (mkError "Funding deadline has passed" 400))
     = (400, {| eb_success := false; eb_error := "Funding deadline has passed" |}).
Proof.
  destruct (errorHandler_answer
              {| name := "ValidationError"; code := Some 11000;
                 e_message := "Investment validation failed";
                 e_statusCode := None;
                 errors := ["Please add an amount"; "Please add a method"] |})
    as (_ & _ & _ & Hval & _ & _ & Hpass).
  split; [exact (Hval eq_refl)|].
  apply Hpass; discriminate.
Defined.

End ErrorHandlerExtras.

Section StatusCodes.
Import ErrorHandler PaymentService InvestmentController Ledger Samples.

(** X17.  The status codes of the two ledger operations, once
    [errorHandler] has answered for their errors.  [createInvestment]
    goes out with 201, 400, 403 or 404; [cancelInvestment] with 200, 400,
    403, 404 or, when the investment's project is gone, 500.  Neither
    answers 401: that is left to [protect]. *)
Theorem ledger_status_codes (env : Env) (create : CreateRequest)
    (cancel : CancelRequest) (db : Db) :
  (exists r, snd (createInvestment env create db) = inr r
             /\ In (http_status r) [201; 400; 403; 404])
  /\ (exists r, snd (cancelInvestment env cancel db) = inr r
                /\ In (http_status r) [200; 400; 403; 404; 500]
                /\ (http_status r = 500 ->
                    exists inv,
                      List.find (fun i => String.eqb (i_id i) (params_id cancel))
                        (investments db) = Some inv
                      /\ projects db !! i_project inv = None)).
Proof.
  split.
  - destruct (checks_dichotomy env create db) as [[r Hr] | (p & Hp & He)].
    + rewrite (fails_check_rejected _ _ _ _ Hr). eexists. split; [reflexivity|].
      destruct r; simpl; tauto.
    + destruct (processPayment env (payment_options create p)) as [evs [pr|err]] eqn:Hpay.
      * rewrite (createInvestment_paid _ _ _ _ _ _ Hp He Hpay).
        eexists. split; [reflexivity|]. simpl. tauto.
      * rewrite (createInvestment_payment_throws _ _ _ _ _ _ Hp He Hpay).
        eexists. split; [reflexivity|]. simpl. tauto.
  - destruct (cancel_dichotomy cancel db) as [[r Hr] | (inv & Hf & Ha & Hs)].
    + rewrite (refuses_rejected env _ _ _ Hr). eexists. split; [reflexivity|].
      destruct r; simpl; (split; [tauto | discriminate]).
    + past_guards Hf Ha Hs.
      destruct (truthy (paymentId inv)) as [pid|].
      * destruct (processRefund env pid (amount inv)) as [evs [ok|err]]; cbn.
        -- destruct (projects db !! i_project inv) as [p|] eqn:Hp; cbn;
             eexists; (split; [reflexivity|]); simpl.
           ++ split; [tauto | discriminate].
           ++ split; [tauto|]. intros _. exists inv. auto.
        -- eexists. split; [reflexivity|]. simpl. split; [tauto | discriminate].
      * cbn. destruct (projects db !! i_project inv) as [p|] eqn:Hp; cbn;
          eexists; (split; [reflexivity|]); simpl.
        -- split; [tauto | discriminate].
        -- split; [tauto|]. intros _. exists inv. auto.
Qed.

End StatusCodes.

Section PasswordExtras.
Import Validators.

Lemma has_char_append (class : ascii -> bool) (a b : string) :
  has_char class (a ++ b) = has_char class a || has_char class b.
Proof.
  induction a as [|c a IH]; [reflexivity|].
  change (String c a ++ b) with (String c (a ++ b)).
  simpl. rewrite IH. apply orb_assoc.
Qed.

Lemma length_append (a b : string) :
  String.length (a ++ b) = (String.length a + String.length b)%nat.
Proof.
  induction a as [|c a IH]; [reflexivity|].
  change (String c a ++ b) with (String c (a ++ b)). simpl. rewrite IH. reflexivity.
Qed.

Lemma bonus_mono (x y : bool) : (x = true -> y = true) -> bonus x <= bonus y.
Proof. destruct x, y; simpl; intros H; try lia; discriminate (H eq_refl). Qed.

Lemma bonus_range (x : bool) : 0 <= bonus x <= 1.
Proof. destruct x; simpl; lia. Qed.

Lemma strength_mono (a b : string) :
  (String.length a <= String.length b)%nat ->
  (forall class, has_char class a = true -> has_char class b = true) ->
  strength (validatePasswordStrength a) <= strength (validatePasswordStrength b).
Proof.
  intros Hlen Hhas. unfold validatePasswordStrength. cbn [strength].
  pose proof (bonus_mono (Z.leb 8 (Z.of_nat (String.length a)))
                (Z.leb 8 (Z.of_nat (String.length b)))) as H1.
  pose proof (bonus_mono (Z.leb 12 (Z.of_nat (String.length a)))
                (Z.leb 12 (Z.of_nat (String.length b)))) as H2.
  pose proof (bonus_mono _ _ (Hhas is_upper)) as H3.
  pose proof (bonus_mono _ _ (Hhas is_lower)) as H4.
  pose proof (bonus_mono _ _ (Hhas Js.is_digit)) as H5.
  pose proof (bonus_mono _ _ (Hhas is_special)) as H6.
  assert (bonus (Z.leb 8 (Z.of_nat (String.length a)))
          <= bonus (Z.leb 8 (Z.of_nat (String.length b)))).
  { apply H1. intros Hle. apply Z.leb_le in Hle. apply Z.leb_le. lia. }
  assert (bonus (Z.leb 12 (Z.of_nat (String.length a)))
          <= bonus (Z.leb 12 (Z.of_nat (String.length b)))).
  { apply H2. intros Hle. apply Z.leb_le in Hle. apply Z.leb_le. lia. }
  lia.
Qed.

(** X18.  A password never gets weaker by being made longer: with text
    added before or after it, its strength does not drop, and a valid
    password stays valid; the strength is between 0 and 6. *)
Theorem password_strength_grows (before password after : string) :
  strength (validatePasswordStrength password)
  <= strength (validatePasswordStrength (before ++ password ++ after))
  /\ (isValid (validatePasswordStrength password) = true ->
      isValid (validatePasswordStrength (before ++ password ++ after)) = true)
  /\ 0 <= strength (validatePasswordStrength password) <= 6.
Proof.
  assert (Hmono : strength (validatePasswordStrength password)
                  <= strength (validatePasswordStrength (before ++ password ++ after))).
  { apply strength_mono.
    - rewrite !length_append. lia.
    - intros class H. rewrite !has_char_append, H.
      rewrite orb_true_r. reflexivity. }
  split; [exact Hmono|]. split.
  - unfold validatePasswordStrength at 1 2. cbn [isValid].
    intros H. apply Z.leb_le in H. apply Z.leb_le.
    unfold validatePasswordStrength in Hmono. cbn [strength] in Hmono. lia.
  - unfold validatePasswordStrength. cbn [strength].
    pose proof (bonus_range (Z.leb 8 (Z.of_nat (String.length password)))).
    pose proof (bonus_range (Z.leb 12 (Z.of_nat (String.length password)))).
    pose proof (bonus_range (has_char is_upper password)).
    pose proof (bonus_range (has_char is_lower password)).
    pose proof (bonus_range (has_char Js.is_digit password)).
    pose proof (bonus_range (has_char is_special password)).
    lia.
Qed.

Lemma password_strength_grows_witness :
  isValid (validatePasswordStrength "aA1") = true
  /\ isValid (validatePasswordStrength ("x" ++ "aA1" ++ "yz")) = true.
Proof.
  destruct (password_strength_grows "x" "aA1" "yz") as (_ & Hvalid & _).
  split; [reflexivity | exact (Hvalid eq_refl)].
Defined.

Lemma char_in_a_class (c : ascii) :
  is_upper c || is_lower c || Js.is_digit c || is_special c = true.
Proof.
  unfold is_special, Js.is_word, is_upper, is_lower, Js.is_digit. cbn zeta.
  destruct ((48 <=? nat_of_ascii c)%nat && (nat_of_ascii c <=? 57)%nat);
    destruct ((65 <=? nat_of_ascii c)%nat && (nat_of_ascii c <=? 90)%nat);
    destruct ((97 <=? nat_of_ascii c)%nat && (nat_of_ascii c <=? 122)%nat);
    destruct (nat_of_ascii c =? 95)%nat; reflexivity.
Qed.

(** X19.  Twelve characters are enough: every password of twelve or
    more characters is valid, whatever the characters are, since both
    length checks pass and the first character falls into one of the four
    classes. *)
Theorem long_password_is_valid (password : string) :
  (12 <= String.length password)%nat ->
  isValid (validatePasswordStrength password) = true
  /\ 3 <= strength (validatePasswordStrength password).
Proof.
  intros Hlen.
  assert (Hs : 3 <= strength (validatePasswordStrength password)).
  { unfold validatePasswordStrength. cbn [strength].
    assert (H8 : Z.leb 8 (Z.of_nat (String.length password)) = true)
      by (apply Z.leb_le; lia).
    assert (H12 : Z.leb 12 (Z.of_nat (String.length password)) = true)
      by (apply Z.leb_le; lia).
    rewrite H8, H12. cbn [bonus].
    destruct password as [|c rest]; [simpl in Hlen; lia|].
    pose proof (char_in_a_class c) as Hc. cbn [has_char].
    pose proof (bonus_range (is_upper c || has_char is_upper rest)).
    pose proof (bonus_range (is_lower c || has_char is_lower rest)).
    pose proof (bonus_range (Js.is_digit c || has_char Js.is_digit rest)).
    pose proof (bonus_range (is_special c || has_char is_special rest)).
    destruct (is_upper c); [cbn [orb bonus] in *; lia|].
    destruct (is_lower c); [cbn [orb bonus] in *; lia|].
    destruct (Js.is_digit c); [cbn [orb bonus] in *; lia|].
    destruct (is_special c); [cbn [orb bonus] in *; lia | discriminate Hc]. }
  split; [|exact Hs].
  unfold validatePasswordStrength in *. cbn [isValid strength] in *.
  apply Z.leb_le. exact Hs.
Qed.

Lemma long_password_is_valid_witness :
  isValid (validatePasswordStrength "aaaaaaaaaaaa") = true.
Proof.
  exact (proj1 (long_password_is_valid "aaaaaaaaaaaa" ltac:(simpl; lia))).
Defined.

End PasswordExtras.

Section FormatDateExtras.
Import Formatters.

Variable toLocaleDateString : Z -> string.
Variable toLocaleDateString_long : Z -> string.
Variable toString : Z -> string.

(** X20.  The relative format does not tell the future from the past: a
    date some time ahead of now reads as the date the same time back.
    Less than a day either way is [Today]; from one day to less than two,
    either way, [Yesterday]. *)
Theorem formatDate_relative_ignores_direction (now d : Z) :
  formatDate toLocaleDateString toLocaleDateString_long toString
    now (now + d) "relative"
  = formatDate toLocaleDateString toLocaleDateString_long toString
      now (now - d) "relative"
  /\ (Z.abs d < 86400000 ->
      formatDate toLocaleDateString toLocaleDateString_long toString
        now (now + d) "relative" = "Today")
  /\ (86400000 <= Z.abs d < 172800000 ->
      formatDate toLocaleDateString toLocaleDateString_long toString
        now (now + d) "relative" = "Yesterday").
Proof.
  unfold formatDate. cbn [String.eqb Ascii.eqb Bool.eqb].
  replace (now - (now + d)) with (- d) by lia.
  replace (now - (now - d)) with d by lia.
  rewrite Z.abs_opp.
  change (1000 * 60 * 60 * 24) with 86400000.
  split; [reflexivity|]. split; intros Hd.
  - rewrite Z.div_small by lia. reflexivity.
  - assert (H1 : Z.abs d / 86400000 = 1)
      by (Z.div_mod_to_equations; lia).
    rewrite H1. reflexivity.
Qed.

End FormatDateExtras.

Section FormatDateExamples.
Import Formatters.

Lemma formatDate_relative_ignores_direction_witness :
  formatDate show_Z show_Z show_Z 1000000000 (1000000000 + 90000000) "relative"
  = "Yesterday"
  /\ formatDate show_Z show_Z show_Z 1000000000 (1000000000 + 3600000) "relative"
     = "Today".
Proof.
  destruct (formatDate_relative_ignores_direction show_Z show_Z show_Z
              1000000000 90000000) as (_ & _ & Hy).
  destruct (formatDate_relative_ignores_direction show_Z show_Z show_Z
              1000000000 3600000) as (_ & Ht & _).
  split; [apply Hy; simpl; lia | apply Ht; simpl; lia].
Defined.

End FormatDateExamples.

Section FavoritesExtras.
Import Favorites Samples.

Lemma filter_out_absent (pid : string) (arr : list string) :
  includes pid arr = false ->
  List.filter (fun id => negb (String.eqb id pid)) arr = arr.
Proof.
  unfold includes. induction arr as [|x rest IH]; [reflexivity|].
  simpl. intros H. apply orb_false_iff in H. destruct H as [Hx Hrest].
  rewrite String.eqb_sym, Hx. simpl. rewrite IH by exact Hrest. reflexivity.
Qed.

Lemma includes_snoc (pid : string) (arr : list string) :
  includes pid (arr ++ [pid]) = true.
Proof.
  unfold includes. rewrite existsb_app. simpl.
  rewrite String.eqb_refl. rewrite orb_true_r. reflexivity.
Qed.

Lemma filter_snoc (pid : string) (arr : list string) :
  includes pid arr = false ->
  List.filter (fun id => negb (String.eqb id pid)) (arr ++ [pid]) = arr.
Proof.
  intros H. rewrite List.filter_app, (filter_out_absent _ _ H). simpl.
  rewrite String.eqb_refl. simpl. apply app_nil_r.
Qed.

Lemma set_favorites_back (p : Project) :
  set_favorites (favorites (metrics (set_favorites (favorites (metrics p) + 1) p)) - 1)
    (set_favorites (favorites (metrics p) + 1) p) = p.
Proof.
  destruct p as [t d i o g r dl m a st [v f]]. unfold set_favorites. cbn.
  replace (f + 1 - 1) with f by lia. reflexivity.
Qed.

(** X21.  Adding a project to one's favourites and removing it again
    puts things back: for a user and a project that exist, the project
    not being among the user's favourites, both calls answer 200, the
    project document is the one it was, counter included, and the user's
    list is the one it was (empty if the user had none). *)
Theorem favorites_round_trip (uid pid : string) (st : FavDb) (p : Project) (u : User) :
  projects (base st) !! pid = Some p ->
  users (base st) !! uid = Some u ->
  match favoriteProjects st !! uid with
  | Some arr => includes pid arr = false
  | None => True
  end ->
  snd (addToFavorites uid pid st) = Json 200 tt
  /\ snd (removeFromFavorites uid pid (fst (addToFavorites uid pid st))) = Json 200 tt
  /\ projects (base (fst (removeFromFavorites uid pid (fst (addToFavorites uid pid st)))))
     = projects (base st)
  /\ favoriteProjects (fst (removeFromFavorites uid pid (fst (addToFavorites uid pid st))))
       !! uid
     = Some (match favoriteProjects st !! uid with Some arr => arr | None => [] end)
  /\ (forall other, other <> uid ->
        favoriteProjects
          (fst (removeFromFavorites uid pid (fst (addToFavorites uid pid st)))) !! other
        = favoriteProjects st !! other)
  /\ investments (base (fst (removeFromFavorites uid pid (fst (addToFavorites uid pid st)))))
     = investments (base st).
Proof.
  intros Hp Hu Hfresh.
  set (arr := match favoriteProjects st !! uid with Some arr => arr | None => [] end).
  assert (Harr : includes pid arr = false).
  { unfold arr. destruct (favoriteProjects st !! uid); [exact Hfresh | reflexivity]. }
  assert (Hadd : addToFavorites uid pid st
                 = ({| base := fst (Project_save (B := unit) pid
                                      (set_favorites (favorites (metrics p) + 1) p)
                                      (base st));
                       favoriteProjects := <[uid := (arr ++ [pid])%list]>
                                             (favoriteProjects st) |},
                    Json 200 tt)).
  { unfold addToFavorites. rewrite Hp, Hu. unfold arr.
    destruct (favoriteProjects st !! uid) as [l|]; [rewrite Hfresh|]; reflexivity. }
  rewrite Hadd. cbn [fst snd].
  unfold removeFromFavorites. cbn [base favoriteProjects Project_save fst projects users].
  rewrite lookup_insert_eq, Hu, lookup_insert_eq, includes_snoc.
  cbn [negb fst snd base favoriteProjects projects investments].
  split; [reflexivity|]. split; [reflexivity|].
  split.
  { rewrite insert_insert_eq, set_favorites_back. apply insert_id. exact Hp. }
  split.
  { rewrite lookup_insert_eq, (filter_snoc _ _ Harr). reflexivity. }
  split; [|reflexivity].
  intros other Hne. rewrite !lookup_insert_ne by congruence. reflexivity.
Qed.

Lemma favorites_round_trip_witness :
  snd (addToFavorites "u1" "p1" fav0) = Json 200 tt
  /\ option_map (fun p => favorites (metrics p))
       (projects (base (fst (addToFavorites "u1" "p1" fav0))) !! "p1") = Some 3
  /\ projects (base (fst (removeFromFavorites "u1" "p1"
                            (fst (addToFavorites "u1" "p1" fav0)))))
     = projects db0
  /\ favoriteProjects (fst (removeFromFavorites "u1" "p1"
                              (fst (addToFavorites "u1" "p1" fav0)))) !! "u1"
     = Some [].
Proof.
  destruct (favorites_round_trip "u1" "p1" fav0 tower alice eq_refl eq_refl I)
    as (Hadd & _ & Hprojects & Hlist & _).
  split; [exact Hadd|]. split; [reflexivity|].
  split; [exact Hprojects | exact Hlist].
Defined.

(** X22.  A project is a favourite once.  After a successful
    [addToFavorites], the same call again is refused with 400 and changes
    nothing; and [removeFromFavorites] for a project that is not among
    the user's favourites is refused with 400 and changes nothing, so the
    counter never goes down for a user who had not raised it. *)
Theorem favorites_once (uid pid : string) (st : FavDb) :
  (snd (addToFavorites uid pid st) = Json 200 tt ->
   addToFavorites uid pid (fst (addToFavorites uid pid st))
   = (fst (addToFavorites uid pid st),
      NextErr (mkError "Project already in favorites" 400)))
  /\ (forall p u,
        projects (base st) !! pid = Some p ->
        users (base st) !! uid = Some u ->
        match favoriteProjects st !! uid with
        | Some arr => includes pid arr = false
        | None => True
        end ->
        removeFromFavorites uid pid st
        = (st, NextErr (mkError "Project not in favorites" 400))).
Proof.
  split.
  - unfold addToFavorites at 1.
    destruct (projects (base st) !! pid) as [p|] eqn:Hp; [|discriminate].
    destruct (users (base st) !! uid) as [u|] eqn:Hu; [|discriminate].
    destruct (match favoriteProjects st !! uid with
              | Some arr => includes pid arr
              | None => false
              end) eqn:Hin; [discriminate|].
    intros _.
    assert (Hadd : addToFavorites uid pid st
                   = ({| base := fst (Project_save (B := unit) pid
                                        (set_favorites (favorites (metrics p) + 1) p)
                                        (base st));
                         favoriteProjects :=
                           <[uid := (match favoriteProjects st !! uid with
                                     | Some arr => arr
                                     | None => []
                                     end ++ [pid])%list]> (favoriteProjects st) |},
                      Json 200 tt)).
    { unfold addToFavorites. rewrite Hp, Hu, Hin. reflexivity. }
    rewrite Hadd. cbn [fst].
    unfold addToFavorites.
    cbn [base favoriteProjects Project_save fst projects users].
    rewrite lookup_insert_eq, Hu, lookup_insert_eq, includes_snoc. reflexivity.
  - intros p u Hp Hu Hfresh. unfold removeFromFavorites. rewrite Hp, Hu.
    destruct (favoriteProjects st !! uid) as [arr|]; [|reflexivity].
    rewrite Hfresh. reflexivity.
Qed.

Lemma favorites_once_witness :
  addToFavorites "u1" "p1" (fst (addToFavorites "u1" "p1" fav0))
  = (fst (addToFavorites "u1" "p1" fav0),
     NextErr (mkError "Project already in favorites" 400))
  /\ removeFromFavorites "u2" "p1" (fst (addToFavorites "u1" "p1" fav0))
     = (fst (addToFavorites "u1" "p1" fav0),
        NextErr (mkError "Project not in favorites" 400)).
Proof.
  split.
  - exact (proj1 (favorites_once "u1" "p1" fav0) eq_refl).
  - apply (proj2 (favorites_once "u2" "p1" (fst (addToFavorites "u1" "p1" fav0)))
             (set_favorites 3 tower) bob); [reflexivity | reflexivity |].
    vm_compute. exact I.
Defined.

End FavoritesExtras.

Section AccessExtras.
Import Auth Samples.

Variable jwt_verify : string -> string -> JwtAnswer.
Variable JWT_SECRET : string.

(** X23.  A token that still verifies for a user who is no longer
    stored is answered with 404 [User not found], not with 401: whatever
    the route's roles and handler, the handler does not run and the
    database is as it was. *)
Theorem protected_route_user_gone {B} (roles : list UserRole)
    (handler : User -> Handler B unit) (req : Request) (db : Db) token id :
  bearer_token req = Some token ->
  jwt_verify token JWT_SECRET = Decoded id ->
  users db !! id = None ->
  protected_route jwt_verify JWT_SECRET roles handler req db
  = (db, inr (NextErr (mkError "User not found" 404))).
Proof.
  intros Ht Hv Hu. unfold protected_route, bind.
  rewrite (protect_user_gone jwt_verify JWT_SECRET req db token id Ht Hv Hu).
  reflexivity.
Qed.

End AccessExtras.

Section AccessExtrasExamples.
Import Auth Samples.

Lemma protected_route_user_gone_witness :
  protected_route sample_verify "s3cret" [admin; manager; investor]
    (fun u => respond 200 (u_id u)) (bearer "tok-gone") db0
  = (db0, inr (NextErr (mkError "User not found" 404))).
Proof.
  exact (protected_route_user_gone sample_verify "s3cret" [admin; manager; investor]
           (fun u => @respond string unit 200 (u_id u)) (bearer "tok-gone") db0
           "tok-gone" "u9" eq_refl eq_refl eq_refl).
Defined.

End AccessExtrasExamples.
